(** * Income ticker: the accrual calculator, the persisted timer state and
      the currency formatting of [app/routes/home.tsx] and
      [app/components/RichPerson.tsx].

    A JavaScript [number] is an IEEE 754 binary64 value; it is modelled by
    Rocq's primitive [float], whose operations are the same correctly
    rounded binary64 operations.  [number | null] is [option float]. *)

From Stdlib Require Import ZArith Floats Bool Lia List Ascii String.
From stdpp Require Import base strings gmap.

Local Open Scope float_scope.

(** ** The fragment of the JavaScript semantics the components rely on *)

Module JS.

Definition number := float.

(** [ToBoolean] on a number: [+0], [-0] and [NaN] are falsy. *)
Definition ToBoolean_number (x : number) : bool :=
  negb (is_zero x || is_nan x).

(** [ToBoolean] on [number | null]: [null] is falsy. *)
Definition ToBoolean_nullable (x : option number) : bool :=
  match x with
  | None => false
  | Some v => ToBoolean_number v
  end.

(** [ToBoolean] on a string: only the empty string is falsy. *)
Definition ToBoolean_string (s : string) : bool :=
  match s with
  | EmptyString => false
  | String _ _ => true
  end.

(** [x > y] is [y < x]; it is [false] as soon as one side is [NaN]. *)
Definition gt (x y : number) : bool := y <? x.
Definition lt (x y : number) : bool := x <? y.

(** [Object.is] (SameValue): [NaN] is itself, [+0] and [-0] differ. *)
Definition Object_is (x y : number) : bool := PrimFloat.Leibniz.eqb x y.

Definition Object_is_nullable (x y : option number) : bool :=
  match x, y with
  | None, None => true
  | Some a, Some b => Object_is a b
  | _, _ => false
  end.

(** [x || d] on numbers. *)
Definition or_number (x d : number) : number :=
  if ToBoolean_number x then x else d.

(** How the evaluation of an expression ends: with a value, or with
    one of the two exceptions the page can throw while it loads.
    TypeScript's types are erased: a value read from outside may lie
    outside its declared type, and what the program does with it is
    not modelled. *)
Inductive completion (A : Type) : Type :=
| Normal (a : A)
| Throw_SyntaxError
| Throw_TypeError
| IllTyped.
Arguments Normal {A} a.
Arguments Throw_SyntaxError {A}.
Arguments Throw_TypeError {A}.
Arguments IllTyped {A}.

#[global] Instance completion_ret : MRet completion := @Normal.
#[global] Instance completion_bind : MBind completion :=
  fun A B f m =>
    match m with
    | Normal a => f a
    | Throw_SyntaxError => Throw_SyntaxError
    | Throw_TypeError => Throw_TypeError
    | IllTyped => IllTyped
    end.

(** A type assertion on a value of type [any]. *)
Definition assert_type {A B : Type} (as_B : A -> option B) (v : A)
    : completion B :=
  match as_B v with
  | Some b => Normal b
  | None => IllTyped
  end.

(** The integral part of a number, with its sign. *)
Definition truncate (x : number) : number :=
  match Prim2SF x with
  | S754_finite s m e =>
      if (0 <=? e)%Z then x
      else SF2Prim (binary_normalize prec emax
                      (cond_Zopp s (Z.shiftr (Z.pos m) (- e))) 0 s)
  | _ => x
  end.

(** [TimeClip] of the Date constructor. *)
Definition TimeClip (time : number) : number :=
  if negb (is_finite time) then nan
  else if 8640000000000000 <? abs time then nan
  else truncate time + 0.

(** A Date object is its time value.  It is [None] for a Date built
    from a string, whose time value the date parser decides: the
    parser is not modelled. *)
Record Date := { getTime : option number }.

(** [Number(date)]. *)
Definition Number_of_Date (d : Date) : completion number :=
  match getTime d with
  | Some t => Normal t
  | None => IllTyped
  end.

End JS.

(** ** [JSON.parse] *)

Module JSON.

Local Open Scope Z_scope.

(** A string, as its UTF-16 code units. *)
Definition units := list N.

Definition code_units (s : string) : units :=
  map (fun c => N.of_nat (nat_of_ascii c)) (list_ascii_of_string s).

(** The values [JSON.parse] returns.  No field of the timer state is a
    string, an array or an object; of these the page can only observe
    how [new Date] converts them, for which the elements of an array
    and the names of the own properties of an object are kept (the
    text of a string and the values of the properties are not). *)
#[warnings="-register-all"]
Inductive value :=
| JNull
| JBool (b : bool)
| JNumber (x : float)
| JString
| JArray (elements : list value)
| JObject (keys : list units).

Definition is_ws (c : ascii) : bool :=
  match c with
  | " "%char | "009"%char | "010"%char | "013"%char => true
  | _ => false
  end.

Fixpoint skip_ws (s : string) : string :=
  match s with
  | String c rest => if is_ws c then skip_ws rest else s
  | EmptyString => s
  end.

Definition digit (c : ascii) : option Z :=
  let n := Z.of_nat (nat_of_ascii c) in
  if (48 <=? n)%Z && (n <=? 57)%Z then Some (n - 48)%Z else None.

(** The value of a hexadecimal digit, in either case. *)
Definition hex (c : ascii) : option N :=
  let n := N.of_nat (nat_of_ascii c) in
  (if (48 <=? n) && (n <=? 57) then Some (n - 48)
   else if (65 <=? n) && (n <=? 70) then Some (n - 55)
   else if (97 <=? n) && (n <=? 102) then Some (n - 87)
   else None)%N.

(** The character a two-character escape stands for. *)
Definition escape (c : ascii) : option N :=
  match c with
  | "034"%char => Some 34
  | "\"%char => Some 92
  | "/"%char => Some 47
  | "b"%char => Some 8
  | "f"%char => Some 12
  | "n"%char => Some 10
  | "r"%char => Some 13
  | "t"%char => Some 9
  | _ => None
  end%N.

(** The longest run of decimal digits at the head of [s]: the number
    they spell after [acc], how many there are, and what follows. *)
Fixpoint digits (acc : Z) (count : nat) (s : string) : Z * nat * string :=
  match s with
  | String c rest =>
      match digit c with
      | Some d => digits (10 * acc + d) (S count) rest
      | None => (acc, count, s)
      end
  | EmptyString => (acc, count, s)
  end.

(** The binary64 value nearest to [m * 10 ^ e], ties to even. *)
Definition of_decimal (neg : bool) (m : Z) (e : Z) : float :=
  match m with
  | Zpos p =>
      SF2Prim
        (if (0 <=? e)%Z
         then binary_round prec emax neg (p * Z.to_pos (10 ^ e)) 0
         else SFdiv prec emax (S754_finite neg p 0)
                              (S754_finite false (Z.to_pos (10 ^ (- e))) 0))
  | _ => if neg then PrimFloat.neg_zero else PrimFloat.zero
  end.

(** [-? int frac? exp?] *)
Definition number (s : string) : option (float * string) :=
  let '(neg, s) :=
    match s with
    | String "-"%char rest => (true, rest)
    | _ => (false, s)
    end in
  let '(int, n_int, after_int) := digits 0 0 s in
  let leading_zero :=
    match s with
    | String "0"%char _ => true
    | _ => false
    end in
  if (n_int =? 0)%nat || leading_zero && negb (n_int =? 1)%nat then None
  else
    let frac :=
      match after_int with
      | String "."%char rest =>
          let '(m, n_frac, after_frac) := digits int 0 rest in
          if (n_frac =? 0)%nat then None else Some (m, n_frac, after_frac)
      | _ => Some (int, 0%nat, after_int)
      end in
    match frac with
    | None => None
    | Some (m, n_frac, after_frac) =>
        let exp :=
          match after_frac with
          | String c rest =>
              if Ascii.eqb c "e" || Ascii.eqb c "E" then
                let '(eneg, rest) :=
                  match rest with
                  | String "-"%char r => (true, r)
                  | String "+"%char r => (false, r)
                  | _ => (false, rest)
                  end in
                let '(e, n_exp, after_exp) := digits 0 0 rest in
                if (n_exp =? 0)%nat then None
                else Some ((if eneg then - e else e)%Z, after_exp)
              else Some (0%Z, after_frac)
          | EmptyString => Some (0%Z, after_frac)
          end in
        match exp with
        | None => None
        | Some (e, rest) => Some (of_decimal neg m (e - Z.of_nat n_frac), rest)
        end
    end.

(** The characters of a string literal after its opening quote: the
    string they spell, escapes decoded, and what follows the closing
    quote. *)
Fixpoint string_body (s : string) : option (units * string) :=
  match s with
  | EmptyString => None
  | String "034"%char rest => Some ([], rest)
  | String "\"%char (String c rest) =>
      match c with
      | "u"%char =>
          match rest with
          | String h1 (String h2 (String h3 (String h4 rest'))) =>
              a ← hex h1; b ← hex h2; c ← hex h3; d ← hex h4;
              '(us, rest) ← string_body rest';
              Some ((((a * 16 + b) * 16 + c) * 16 + d)%N :: us, rest)
          | _ => None
          end
      | _ =>
          u ← escape c;
          '(us, rest) ← string_body rest;
          Some (u :: us, rest)
      end
  | String "\"%char EmptyString => None
  | String c rest =>
      if (nat_of_ascii c <? 32)%nat then None
      else '(us, rest) ← string_body rest;
           Some (N.of_nat (nat_of_ascii c) :: us, rest)
  end.

Fixpoint literal (word s : string) : option string :=
  match word, s with
  | EmptyString, _ => Some s
  | String a word', String b s' =>
      if Ascii.eqb a b then literal word' s' else None
  | String _ _, EmptyString => None
  end.

(** One JSON value at the head of [s], after white space, and what
    follows it.  [fuel] bounds the depth of the calls: two nested calls
    read at least one character between them, so twice the length of
    the text is enough. *)
Fixpoint parse_value (fuel : nat) (s : string) : option (value * string) :=
  match fuel with
  | O => None
  | S fuel =>
      match skip_ws s with
      | EmptyString => None
      | String c rest as s =>
          match c with
          | "n"%char => rest ← literal "ull" rest; Some (JNull, rest)
          | "t"%char => rest ← literal "rue" rest; Some (JBool true, rest)
          | "f"%char => rest ← literal "alse" rest; Some (JBool false, rest)
          | "034"%char => '(_, rest) ← string_body rest; Some (JString, rest)
          | "["%char =>
              match skip_ws rest with
              | String "]"%char rest => Some (JArray [], rest)
              | rest => parse_elements fuel [] rest
              end
          | "{"%char =>
              match skip_ws rest with
              | String "}"%char rest => Some (JObject [], rest)
              | rest => parse_members fuel [] rest
              end
          | _ => '(x, rest) ← number s; Some (JNumber x, rest)
          end
      end
  end
with parse_elements (fuel : nat) (elements : list value) (s : string)
    : option (value * string) :=
  match fuel with
  | O => None
  | S fuel =>
      '(v, rest) ← parse_value fuel s;
      match skip_ws rest with
      | String ","%char rest => parse_elements fuel (elements ++ [v]) rest
      | String "]"%char rest => Some (JArray (elements ++ [v]), rest)
      | _ => None
      end
  end
with parse_members (fuel : nat) (keys : list units) (s : string)
    : option (value * string) :=
  match fuel with
  | O => None
  | S fuel =>
      match skip_ws s with
      | String "034"%char rest =>
          '(key, rest) ← string_body rest;
          match skip_ws rest with
          | String ":"%char rest =>
              '(_, rest) ← parse_value fuel rest;
              match skip_ws rest with
              | String ","%char rest => parse_members fuel (keys ++ [key]) rest
              | String "}"%char rest => Some (JObject (keys ++ [key]), rest)
              | _ => None
              end
          | _ => None
          end
      | _ => None
      end
  end.

(** [JSON.parse(text)]. *)
Definition parse (text : string) : JS.completion value :=
  match parse_value (2 * String.length text + 2) text with
  | Some (v, rest) =>
      match skip_ws rest with
      | EmptyString => JS.Normal v
      | String _ _ => JS.Throw_SyntaxError
      end
  | None => JS.Throw_SyntaxError
  end.

Definition as_number (v : value) : option JS.number :=
  match v with
  | JNumber x => Some x
  | _ => None
  end.

Definition as_boolean (v : value) : option bool :=
  match v with
  | JBool b => Some b
  | _ => None
  end.

Definition as_nullable_number (v : value) : option (option JS.number) :=
  match v with
  | JNumber x => Some (Some x)
  | JNull => Some None
  | _ => None
  end.

(** Whether [ToString(v)] throws a TypeError.  A property of a parsed
    object is never a function: an own property [toString] hides
    [Object.prototype.toString], and [valueOf] gives no primitive
    ([Object.prototype.valueOf] returns the object), so the conversion
    fails.  An array is converted by [join], which converts each of its
    elements; [null] and the other primitives convert. *)
Fixpoint ToString_throws (v : value) : bool :=
  match v with
  | JObject keys => bool_decide (code_units "toString" ∈ keys)
  | JArray elements => existsb ToString_throws elements
  | _ => false
  end.

(** [new Date(v)] for a parsed value [v]: [null] and the booleans are
    converted to numbers; a string goes through the date parser; an
    array or an object is first converted to a primitive, which is a
    string when the conversion does not throw. *)
Definition new_Date (v : value) : JS.completion JS.Date :=
  match v with
  | JNumber x => JS.Normal {| JS.getTime := Some (JS.TimeClip x) |}
  | JNull => JS.Normal {| JS.getTime := Some (JS.TimeClip 0) |}
  | JBool b => JS.Normal {| JS.getTime := Some (JS.TimeClip (if b then 1 else 0)) |}
  | JString => JS.Normal {| JS.getTime := None |}
  | JArray _ | JObject _ =>
      if ToString_throws v then JS.Throw_TypeError
      else JS.Normal {| JS.getTime := None |}
  end%float.

(** The text of a string literal whose characters need no escape. *)
Definition quoted (s : string) : string :=
  String "034"%char (s ++ String "034"%char EmptyString).

End JSON.

(** ** [Intl.NumberFormat]: the options the components pass to it *)

Module Intl.

Record NumberFormatOptions := {
  style : string;
  currency : string;
  minimumFractionDigits : nat;
  maximumFractionDigits : nat
}.

(** One call [new Intl.NumberFormat("en-US", options).format(amount)]. *)
Record FormatCall := {
  options : NumberFormatOptions;
  amount : JS.number
}.

End Intl.

(** ** app/routes/home.tsx, first part: the accrual calculator *)

Module Calculator.

(** The value [useCurrentIncome] returns in a render whose [currentTime]
    state holds [currentTime] (the last sample of the 100 ms interval). *)
Definition useCurrentIncome
    (annualIncome : JS.number) (since : option JS.number)
    (currentTime : JS.number) : JS.number :=
  if negb (JS.ToBoolean_nullable since) then 0
  else
    match since with
    | None => 0
    | Some since =>
        let timeElapsed := currentTime - since in
        let incomePerMs := annualIncome / (365 * 24 * 60 * 60 * 1000) in
        timeElapsed * incomePerMs
    end.

End Calculator.

(** ** app/components/RichPerson.tsx *)

Module RichPerson.

Record RichPersonProps := {
  name : string;
  imageUrl : string;
  annualIncome : JS.number;
  startTime : JS.number
}.

Definition decimals (amount : JS.number) : nat :=
  if JS.lt amount 1 then 5 else if JS.lt amount 100 then 2 else 2.

Definition formatCurrency (amount : JS.number) : Intl.FormatCall :=
  {| Intl.options :=
       {| Intl.style := "currency";
          Intl.currency := "USD";
          Intl.minimumFractionDigits := decimals amount;
          Intl.maximumFractionDigits := decimals amount |};
     Intl.amount := amount |}.

Definition calculatePerSecond (p : RichPersonProps) : JS.number :=
  annualIncome p / (365 * 24 * 60 * 60).

Definition calculatePerMinute (p : RichPersonProps) : JS.number :=
  annualIncome p / (365 * 24 * 60).

Definition calculatePerHour (p : RichPersonProps) : JS.number :=
  annualIncome p / (365 * 24).

Definition calculatePerDay (p : RichPersonProps) : JS.number :=
  annualIncome p / 365.

(** The amounts a card formats, in document order. *)
Definition render (p : RichPersonProps) (currentTime : JS.number)
    : list Intl.FormatCall :=
  let earned :=
    Calculator.useCurrentIncome (annualIncome p) (Some (startTime p)) currentTime in
  [ formatCurrency (annualIncome p);
    formatCurrency earned;
    formatCurrency (calculatePerSecond p);
    formatCurrency (calculatePerSecond p);
    formatCurrency (calculatePerMinute p);
    formatCurrency (calculatePerHour p) ].

End RichPerson.

(** ** app/routes/home.tsx, second part: the timer state *)

Module Home.

Export Calculator.

(** The three pieces of state [useIncomeTracker] keeps. *)
Record TimerState := {
  income : JS.number;
  isRunning : bool;
  startTime : option JS.number
}.

Definition default_state : TimerState :=
  {| income := 0; isRunning := false; startTime := None |}.

(** *** Event handlers

    A handler closes over the state of the render that created it; the
    state updates it requests are applied together before the next
    render. *)

(** [handleStart], called when [Date.now()] is [now]. *)
Definition handleStart (s : TimerState) (now : JS.number) : TimerState :=
  {| income := income s;
     isRunning := negb (isRunning s);
     startTime := Some now |}.

Definition handleReset (s : TimerState) : TimerState :=
  {| income := 0; isRunning := false; startTime := None |}.

Definition setIncome (s : TimerState) (value : JS.number) : TimerState :=
  {| income := value;
     isRunning := isRunning s;
     startTime := startTime s |}.

(** *** The effect with dependencies [income, startTime, setIsRunning] *)

Definition effect (s : TimerState) : TimerState :=
  if JS.gt (income s) 0 && JS.ToBoolean_nullable (startTime s)
  then {| income := income s; isRunning := true; startTime := startTime s |}
  else s.

(** React compares each dependency with [Object.is]; [setIsRunning] is
    the same function in every render. *)
Definition same_deps (prev next : TimerState) : bool :=
  JS.Object_is (income prev) (income next)
  && JS.Object_is_nullable (startTime prev) (startTime next).

(** The render that follows a state update: the effect runs when one of
    its dependencies changed.  The effect leaves its own dependencies
    alone, so the render it causes runs no further effect. *)
Definition commit (prev next : TimerState) : TimerState :=
  if same_deps prev next then next else effect next.

(** The first render: every effect runs. *)
Definition mount (s : TimerState) : TimerState := effect s.

(** *** User actions *)

Inductive action :=
| Start (now : JS.number)
| Reset
| SetIncome (value : JS.number).

Definition handler (a : action) (s : TimerState) : TimerState :=
  match a with
  | Start now => handleStart s now
  | Reset => handleReset s
  | SetIncome value => setIncome s value
  end.

(** One user action, up to the state the page settles in. *)
Definition dispatch (a : action) (s : TimerState) : TimerState :=
  commit s (handler a s).

Definition run (l : list action) (s : TimerState) : TimerState :=
  fold_left (fun s a => dispatch a s) l s.

(** The operations one at a time, the effect being one of them. *)
Inductive step : TimerState -> TimerState -> Prop :=
| step_start s now : step s (handleStart s now)
| step_reset s : step s (handleReset s)
| step_setIncome s value : step s (setIncome s value)
| step_effect s : step s (effect s).

Inductive reachable : TimerState -> Prop :=
| reachable_default : reachable default_state
| reachable_step s s' : reachable s -> step s s' -> reachable s'.

(** [isRunning == true] implies [startTime != null]. *)
Definition invariant (s : TimerState) : Prop :=
  isRunning s = true -> startTime s <> None.

(** *** Formatting of the primary ticker *)

Definition useFormatCurrency (amount : JS.number) : Intl.FormatCall :=
  {| Intl.options :=
       {| Intl.style := "currency";
          Intl.currency := "USD";
          Intl.minimumFractionDigits := 2;
          Intl.maximumFractionDigits := 2 |};
     Intl.amount := amount |}.

(** The calls to the formatter one render of the page makes: the
    primary ticker, then the three comparison cards when they are
    shown.  Every card samples the clock on its own. *)
Definition card (name imageUrl : string) (annualIncome : JS.number)
    (startTime : JS.number) : RichPerson.RichPersonProps :=
  {| RichPerson.name := name;
     RichPerson.imageUrl := imageUrl;
     RichPerson.annualIncome := annualIncome;
     RichPerson.startTime := startTime |}.

Definition wikimedia (path : string) : string :=
  "https://upload.wikimedia.org/wikipedia/commons/" ++ path.

Definition render (s : TimerState) (currentTime : JS.number)
    (cardTime : nat -> JS.number) : list Intl.FormatCall :=
  let earned := useCurrentIncome (income s) (startTime s) currentTime in
  useFormatCurrency earned ::
  match startTime s with
  | Some since =>
      if isRunning s && JS.ToBoolean_number since then
        RichPerson.render
          (card "Elon Musk"
             (wikimedia "3/34/Elon_Musk_Royal_Society_%28crop2%29.jpg")
             147000000000 since)
          (cardTime 0%nat)
        ++ RichPerson.render
             (card "Jeff Bezos"
                (wikimedia "0/03/Jeff_Bezos_visits_LAAFB_SMC_%283908618%29_%28cropped%29.jpeg")
                10000000000 since)
             (cardTime 1%nat)
        ++ RichPerson.render
             (card "Mark Zuckerberg"
                (wikimedia "1/18/Mark_Zuckerberg_F8_2019_Keynote_%2832830578717%29_%28cropped%29.jpg")
                2000000000 since)
             (cardTime 2%nat)
      else []
  | None => []
  end.

(** *** Initialization from [window.localStorage] *)

Abbreviation Storage := (gmap string string).

Definition getItem (storage : Storage) (key : string) : option string :=
  storage !! key.

(** [item ? f(item) : otherwise] on the result of [getItem]. *)
Definition if_item {A : Type} (item : option string)
    (f : string -> JS.completion A) (otherwise : JS.completion A)
    : JS.completion A :=
  match item with
  | Some text => if JS.ToBoolean_string text then f text else otherwise
  | None => otherwise
  end.

Record LoaderData := {
  storedIncome : JSON.value;
  storedStartTime : option JS.Date;
  storedIsRunning : JSON.value
}.

Definition clientLoader (storage : Storage) : JS.completion LoaderData :=
  let income := getItem storage "income" in
  let startTime := getItem storage "startTime" in
  let isRunning := getItem storage "isRunning" in
  i ← if_item income JSON.parse (mret (JSON.JNumber 0));
  t ← if_item startTime
        (fun text => v ← JSON.parse text; d ← JSON.new_Date v; mret (Some d))
        (mret None);
  r ← if_item isRunning JSON.parse (mret (JSON.JBool false));
  mret {| storedIncome := i; storedStartTime := t; storedIsRunning := r |}.

(** The initial state of [useLocalStorageState<T>(key, initialValue)].
    [initialValue] is a pure expression; it is evaluated here where
    its value is used. *)
Definition useLocalStorageState {T : Type} (as_T : JSON.value -> option T)
    (storage : Storage) (key : string) (initialValue : JS.completion T)
    : JS.completion T :=
  if_item (getItem storage key)
    (fun storedValue => v ← JSON.parse storedValue; JS.assert_type as_T v)
    initialValue.

(** The state of the first render of [useIncomeTracker]. *)
Definition useIncomeTracker (storage : Storage)
    (initialIncome : JS.number) (initialStartTime : option JS.Date)
    (initialIsRunning : bool) : JS.completion TimerState :=
  income ← useLocalStorageState JSON.as_number storage "income"
             (mret (JS.or_number initialIncome 0));
  isRunning ← useLocalStorageState JSON.as_boolean storage "isRunning"
                (mret (initialIsRunning || false));
  startTime ← useLocalStorageState JSON.as_nullable_number storage "startTime"
                (match initialStartTime with
                 | Some d => t ← JS.Number_of_Date d; mret (Some t)
                 | None => mret None
                 end);
  mret {| income := income; isRunning := isRunning; startTime := startTime |}.

(** The first render of [Home] on the loader's data, effects included. *)
Definition Home (storage : Storage) (loaderData : LoaderData)
    : JS.completion TimerState :=
  initialIncome ← JS.assert_type JSON.as_number (storedIncome loaderData);
  initialIsRunning ← JS.assert_type JSON.as_boolean (storedIsRunning loaderData);
  s ← useIncomeTracker storage initialIncome (storedStartTime loaderData)
        initialIsRunning;
  mret (mount s).

(** Loading the page: the loader, then the first render. *)
Definition initialize (storage : Storage) : JS.completion TimerState :=
  loaderData ← clientLoader storage;
  Home storage loaderData.

(** The three entries the page reads. *)
Definition keys : list string := ["income"; "startTime"; "isRunning"].

(** An entry the conditionals [item ? ... : ...] take for missing:
    [getItem] returned [null], or the empty string. *)
Definition absent (item : option string) : bool :=
  match item with
  | Some text => negb (JS.ToBoolean_string text)
  | None => true
  end.

(** An entry that holds text [JSON.parse] rejects. *)
Definition malformed (item : option string) : Prop :=
  exists text, item = Some text /\ JSON.parse text = JS.Throw_SyntaxError.

(** An entry that holds JSON of which [new Date] can make no date: an
    array or an object whose conversion to a primitive throws. *)
Definition unconvertible (item : option string) : Prop :=
  exists text v,
    item = Some text /\ JS.ToBoolean_string text = true
    /\ JSON.parse text = JS.Normal v /\ JSON.new_Date v = JS.Throw_TypeError.

End Home.

(** ** app/routes/home.tsx, third part: the controls of the page *)

Module Controls.

Import Home.

(** The two attributes of a control that decide whether the user can
    operate it. *)
Record Control := {
  hidden : bool;
  disabled : bool
}.

(** The income field: [disabled={isRunning}]. *)
Definition incomeInput (s : TimerState) : Control :=
  {| hidden := false; disabled := isRunning s |}.

(** The Start button: [hidden={isRunning}] and
    [disabled={income <= 0 && !isRunning}]. *)
Definition startButton (s : TimerState) : Control :=
  {| hidden := isRunning s;
     disabled := (income s <=? 0) && negb (isRunning s) |}.

(** The Reset button has neither attribute. *)
Definition resetButton (s : TimerState) : Control :=
  {| hidden := false; disabled := false |}.

(** An element that is not displayed, or is disabled, receives no
    event from the user. *)
Definition operable (c : Control) : bool :=
  negb (hidden c) && negb (disabled c).

(** The control whose event handler performs an action: [onClick] of
    the two buttons, [onChange] of the income field. *)
Definition control (a : action) (s : TimerState) : Control :=
  match a with
  | Start _ => startButton s
  | Reset => resetButton s
  | SetIncome _ => incomeInput s
  end.

(** One action of the user on the page as rendered in state [s]. *)
Inductive user_step : TimerState -> TimerState -> Prop :=
| user_step_action a s :
    operable (control a s) = true -> user_step s (dispatch a s).

(** The states the user can bring the page to, from the default state. *)
Inductive user_reachable : TimerState -> Prop :=
| user_reachable_default : user_reachable default_state
| user_reachable_step s s' :
    user_reachable s -> user_step s s' -> user_reachable s'.

(** What holds of the states the controls let the user reach. *)
Definition user_invariant (s : TimerState) : Prop :=
  (isRunning s = true <-> startTime s <> None)
  /\ (isRunning s = true -> (income s <=? 0) = false).

End Controls.

(** ** app/routes/home.tsx, fourth part: writing the state through *)

Module Persist.

Import Home.

Local Open Scope Z_scope.

Definition digit_char (d : Z) : ascii := ascii_of_nat (Z.to_nat (48 + d)).

(** The decimal digits of [n] in front of [acc], the last digit first. *)
Fixpoint decimal_digits (fuel : nat) (n : Z) (acc : string) : string :=
  match fuel with
  | O => acc
  | S fuel =>
      let acc := String (digit_char (n mod 10)) acc in
      if n <? 10 then acc else decimal_digits fuel (n / 10) acc
  end.

(** A number of [k] bits has at most [k] digits. *)
Definition decimal (n : Z) : string :=
  decimal_digits (S (Z.to_nat (Z.log2 n))) n EmptyString.

(** The integer a finite number is, when it is one. *)
Definition integer_value (x : JS.number) : option Z :=
  match Prim2SF x with
  | S754_zero _ => Some 0
  | S754_finite s m e =>
      if 0 <=? e then Some (cond_Zopp s (Z.pos m * 2 ^ e))
      else if Z.pos m mod 2 ^ (- e) =? 0
           then Some (cond_Zopp s (Z.pos m / 2 ^ (- e)))
           else None
  | _ => None
  end.

(** [JSON.stringify(x)] for a number [x]: [null] for NaN and the
    infinities, and all the decimal digits of an integer below [2 ^ 53]
    in absolute value ([-0] prints as [0]).  How the other numbers
    print (the shortest decimal that reads back as the number) is not
    modelled: the result is [None]. *)
Definition stringify_number (x : JS.number) : option string :=
  if negb (is_finite x) then Some "null"%string
  else
    match integer_value x with
    | Some n =>
        if Z.abs n <? 2 ^ 53
        then Some (if n <? 0 then String "-" (decimal (- n)) else decimal n)
        else None
    | None => None
    end.

Definition stringify_boolean (b : bool) : option string :=
  Some (if b then "true" else "false")%string.

Definition stringify_nullable_number (x : option JS.number) : option string :=
  match x with
  | Some x => stringify_number x
  | None => Some "null"%string
  end.

Definition setItem (storage : Storage) (key value : string) : Storage :=
  <[key := value]> storage.

(** The effect of [useLocalStorageState]:
    [window.localStorage.setItem(key, JSON.stringify(state))]. *)
Definition useLocalStorageState_effect {T : Type}
    (stringify : T -> option string) (key : string) (state : T)
    (storage : Storage) : option Storage :=
  text ← stringify state; Some (setItem storage key text).

(** The three effects of [useIncomeTracker], in the order of its calls
    to [useLocalStorageState].  Each runs after the first render and
    after every render that changed its state, so that after a render
    in state [s] the three entries are the ones written here. *)
Definition persist (s : TimerState) (storage : Storage) : option Storage :=
  storage ← useLocalStorageState_effect stringify_number "income" (income s) storage;
  storage ← useLocalStorageState_effect stringify_boolean "isRunning" (isRunning s) storage;
  useLocalStorageState_effect stringify_nullable_number "startTime" (startTime s) storage.

End Persist.

(** ** Rounding in binary64, on integers

    The definitions below restate what [SpecFloat]'s [binary_round_aux]
    computes in terms of integer arithmetic; the properties section
    proves the correspondence. *)

Module Binary64.

Local Open Scope Z_scope.

(** A mantissa with its round and sticky bits, as one integer:
    [4 * m + 2 * round + sticky]. *)
Definition code (r : shr_record) : Z :=
  4 * shr_m r + 2 * Z.b2z (shr_r r) + Z.b2z (shr_s r).

Definition loc_code (l : location) : Z :=
  match l with
  | loc_Exact => 0
  | loc_Inexact Lt => 1
  | loc_Inexact Eq => 2
  | loc_Inexact Gt => 3
  end.

(** One step of [shr_1] on a code: a right shift that keeps the bit it
    drops in the sticky bit. *)
Definition half (c : Z) : Z := c / 2 + (if c mod 4 =? 1 then 1 else 0).

Definition halves (n : nat) (c : Z) : Z := Nat.iter n half c.

Definition shift (n c : Z) : Z := halves (Z.to_nat n) c.

(** [round_nearest_even] on a code. *)
Definition rne (c : Z) : Z :=
  c / 4 + (if (c mod 4 =? 3) || (c mod 8 =? 6) then 1 else 0).

(** The last step of [binary_round_aux]: zero, a finite number, or an
    overflow to infinity. *)
Definition finish (s : bool) (m e : Z) : spec_float :=
  match m with
  | Z0 => S754_zero s
  | Zpos p => if e <=? emax - prec then S754_finite s p e else S754_infinity s
  | Zneg _ => S754_nan
  end.

(** [fexp] for [prec = 53] and [emax = 1024]. *)
Definition fexp64 (z : Z) : Z := Z.max (z - 53) (-1074).

(** The result of rounding a positive real number. *)
Inductive res := RZero | RFin (m e : Z) | RInf.

Definition to_sf (s : bool) (r : res) : spec_float :=
  match r with
  | RZero => S754_zero s
  | RFin m e => S754_finite s (Z.to_pos m) e
  | RInf => S754_infinity s
  end.

Definition mk (m e : Z) : res := if e <=? 971 then RFin m e else RInf.

(** A rounded mantissa of 54 bits is [2 ^ 53]: it moves to the next
    exponent. *)
Definition norm (m e : Z) : res :=
  if m =? 0 then RZero
  else if m =? 9007199254740992 then mk 4503599627370496 (e + 1)
  else mk m e.

(** The binary64 number nearest to [V * 2 ^ F], ties to even, for a
    scale [F] at or below the least exponent -1074. *)
Definition RN (F V : Z) : res :=
  let ec := fexp64 (Zdigits2 V + F) in
  norm (rne (shift (ec - F) (4 * V))) ec.

(** The order of the results of [RN]. *)
Definition res_le (r1 r2 : res) : Prop :=
  match r1, r2 with
  | RZero, _ => True
  | _, RInf => True
  | RFin m1 e1, RFin m2 e2 => e1 < e2 \/ (e1 = e2 /\ m1 <= m2)
  | _, _ => False
  end.

Definition res_pos (r : res) : Prop :=
  match r with
  | RFin m _ => 0 < m
  | _ => True
  end.

(** The value of a zero or finite number, in units of [2 ^ -1074]. *)
Definition val (x : spec_float) : Z :=
  match x with
  | S754_finite s m e => cond_Zopp s (Z.pos m * 2 ^ (e + 1074))
  | _ => 0
  end.

(** Zero or finite. *)
Definition fz (x : spec_float) : bool :=
  match x with
  | S754_zero _ | S754_finite _ _ _ => true
  | _ => false
  end.

(** A zero of either sign, a positive number or [+infinity]. *)
Definition nonneg (x : spec_float) : bool :=
  match x with
  | S754_zero _ | S754_finite false _ _ | S754_infinity false => true
  | _ => false
  end.

(** The binary64 number nearest to [z * 2 ^ -1074]. *)
Definition sround (z : Z) : spec_float :=
  if z =? 0 then S754_zero false
  else if 0 <? z then to_sf false (RN (-1074) z)
  else to_sf true (RN (-1074) (- z)).

(** [365 * 24 * 60 * 60 * 1000 = 31536000000] as a binary64 number. *)
Definition MPY : spec_float := S754_finite false 8266973184000000 (-18).

End Binary64.

(** ** Rounding of numbers of either sign, and of quotients by [MPY] *)

Module Binary64Signed.

Import Binary64.
Local Open Scope Z_scope.

(** The binary64 number nearest to [z * 2 ^ F], with the sign of [z];
    [sz] is the sign given to a zero. *)
Definition sround_at (F : Z) (sz : bool) (z : Z) : spec_float :=
  if z =? 0 then S754_zero sz
  else if 0 <? z then to_sf false (RN F z)
  else to_sf true (RN F (- z)).

End Binary64Signed.

Module Binary64Div.

Import Binary64.
Local Open Scope Z_scope.

(** The mantissa of [MPY]. *)
Definition Q : Z := 8266973184000000.

(** The quotient [P / Q] with the place of the remainder, as a code:
    what [SFdiv_core_binary] hands to [binary_round_aux]. *)
Definition SC (P : Z) : Z :=
  4 * (P / Q)
  + (if P mod Q =? 0 then 0
     else if 2 * (P mod Q) <? Q then 1
     else if 2 * (P mod Q) =? Q then 2
     else 3).

(** [RN] on a code: the binary64 number nearest to the real number the
    code [c] stands for, times [2 ^ F]. *)
Definition RNc (F c : Z) : res :=
  let ec := fexp64 (Zdigits2 (c / 4) + F) in
  norm (rne (shift (ec - F) c)) ec.

End Binary64Div.

(** ** The contracts as the specification words them *)

Module Spec.

Definition MILLIS_PER_YEAR : JS.number := 365 * 24 * 60 * 60 * 1000.

(** [earnedSince(annualIncome, startTime, now)]: 0 when [startTime] is
    null, otherwise [(now - startTime) * (annualIncome / MILLIS_PER_YEAR)]. *)
Definition earnedSince (annualIncome : JS.number)
    (startTime : option JS.number) (now : JS.number) : JS.number :=
  match startTime with
  | None => 0
  | Some startTime => (now - startTime) * (annualIncome / MILLIS_PER_YEAR)
  end.

(** 5 decimal places when the amount is < 1, otherwise 2. *)
Definition fractionDigits (amount : JS.number) : nat :=
  if JS.lt amount 1 then 5 else 2.

Definition formatted_to_spec (c : Intl.FormatCall) : Prop :=
  Intl.minimumFractionDigits (Intl.options c) = fractionDigits (Intl.amount c)
  /\ Intl.maximumFractionDigits (Intl.options c) = fractionDigits (Intl.amount c).

(** [setIncome] changes only the income field. *)
Definition changes_only_income (s : Home.TimerState) (value : JS.number) : Prop :=
  Home.dispatch (Home.SetIncome value) s
  = {| Home.income := value;
       Home.isRunning := Home.isRunning s;
       Home.startTime := Home.startTime s |}.

(** Absent or malformed persisted state falls back to the defaults. *)
Definition falls_back_to_defaults (storage : Home.Storage) : Prop :=
  (forall key, In key Home.keys ->
     Home.getItem storage key = None \/ Home.malformed (Home.getItem storage key)) ->
  Home.initialize storage = JS.Normal Home.default_state.

End Spec.

(** * Properties *)

Import Home.

(** ** The accrual calculator *)

Lemma MILLIS_PER_YEAR_value : Spec.MILLIS_PER_YEAR = 31536000000.
Proof. reflexivity. Qed.

Lemma useCurrentIncome_null (a n : JS.number) : useCurrentIncome a None n = 0.
Proof. reflexivity. Qed.

Lemma useCurrentIncome_falsy (a t n : JS.number) :
  JS.ToBoolean_number t = false -> useCurrentIncome a (Some t) n = 0.
Proof.
  intros Ht. unfold useCurrentIncome. simpl. now rewrite Ht.
Qed.

Lemma useCurrentIncome_truthy (a t n : JS.number) :
  JS.ToBoolean_number t = true ->
  useCurrentIncome a (Some t) n = (n - t) * (a / 31536000000).
Proof.
  intros Ht. unfold useCurrentIncome. simpl. now rewrite Ht.
Qed.

(** One day at 365000 a year earns 1000. *)
Example one_day_of_365000 :
  useCurrentIncome 365000 (Some 1000) 86401000 = 1000.
Proof. reflexivity. Qed.

(** C2, as stated, fails: with [startTime = 0] (not null) and one unit
    of income per millisecond the calculator returns 0 at [now = 5000],
    where the formula gives 5000. *)
Lemma useCurrentIncome_epoch_differs_from_formula :
  useCurrentIncome 31536000000 (Some 0) 5000 = 0
  /\ Spec.earnedSince 31536000000 (Some 0) 5000 = 5000
  /\ useCurrentIncome 31536000000 (Some 0) 5000
       <> Spec.earnedSince 31536000000 (Some 0) 5000.
Proof.
  repeat split. intros H. apply (f_equal (fun x => x =? 0)) in H.
  vm_compute in H. discriminate.
Qed.

(** C2, amended: the calculator returns 0 when [startTime] is null, 0 or
    NaN, and otherwise [(now - startTime) * (annualIncome / MILLIS_PER_YEAR)]
    with [MILLIS_PER_YEAR = 365 * 24 * 60 * 60 * 1000 = 31536000000]. *)
Theorem useCurrentIncome_earnedSince (a : JS.number) (s : option JS.number)
    (n : JS.number) :
  useCurrentIncome a s n =
    (if JS.ToBoolean_nullable s then Spec.earnedSince a s n else 0)
  /\ Spec.MILLIS_PER_YEAR = 31536000000.
Proof.
  split; [|reflexivity].
  destruct s as [t|]; [|reflexivity].
  simpl. destruct (JS.ToBoolean_number t) eqn:Ht.
  - now apply useCurrentIncome_truthy.
  - now apply useCurrentIncome_falsy.
Qed.

(** C10: a [startTime] of 0 gives 0 whatever the income and the clock,
    as null does; the elapsed-time formula is not applied to it. *)
Theorem useCurrentIncome_epoch_zero (a n : JS.number) :
  useCurrentIncome a (Some 0) n = 0
  /\ useCurrentIncome a (Some 0) n = useCurrentIncome a None n.
Proof. split; reflexivity. Qed.

(** ** The timer state *)

Lemma effect_income (s : TimerState) : income (effect s) = income s.
Proof. unfold effect. now destruct (_ && _). Qed.

Lemma effect_startTime (s : TimerState) : startTime (effect s) = startTime s.
Proof. unfold effect. now destruct (_ && _). Qed.

Lemma effect_isRunning (s : TimerState) :
  isRunning (effect s) =
    if JS.gt (income s) 0 && JS.ToBoolean_nullable (startTime s)
    then true else isRunning s.
Proof. unfold effect. now destruct (_ && _). Qed.

Lemma commit_income (prev next : TimerState) :
  income (commit prev next) = income next.
Proof. unfold commit. destruct (same_deps _ _); [reflexivity|apply effect_income]. Qed.

Lemma commit_startTime (prev next : TimerState) :
  startTime (commit prev next) = startTime next.
Proof. unfold commit. destruct (same_deps _ _); [reflexivity|apply effect_startTime]. Qed.

Lemma Object_is_refl (x : JS.number) : JS.Object_is x x = true.
Proof. now apply FloatAxioms.Leibniz.eqb_spec. Qed.

Lemma Object_is_nullable_refl (x : option JS.number) :
  JS.Object_is_nullable x x = true.
Proof. destruct x; [apply Object_is_refl|reflexivity]. Qed.

Lemma eta_TimerState (s : TimerState) :
  {| income := income s; isRunning := isRunning s; startTime := startTime s |} = s.
Proof. now destruct s. Qed.

Lemma start_sets_startTime (s : TimerState) (now : JS.number) :
  startTime (dispatch (Start now) s) = Some now
  /\ income (dispatch (Start now) s) = income s.
Proof.
  unfold dispatch. now rewrite commit_startTime, commit_income.
Qed.

Lemma start_isRunning (s : TimerState) (now : JS.number) :
  isRunning (dispatch (Start now) s) =
    if JS.gt (income s) 0 && JS.ToBoolean_number now
       && negb (JS.Object_is_nullable (startTime s) (Some now))
    then true else negb (isRunning s).
Proof.
  unfold dispatch, commit, same_deps. simpl.
  rewrite Object_is_refl. simpl.
  destruct (JS.Object_is_nullable _ _); simpl.
  - now rewrite andb_false_r.
  - rewrite effect_isRunning, andb_true_r. reflexivity.
Qed.

(** C1, as stated, fails: started twice in a row from the default
    state (no income), the timer ends up stopped; so it does when
    restarted at the timestamp it already holds. *)
Lemma start_twice_stops :
  dispatch (Start 2000) (dispatch (Start 1000) default_state)
    = {| income := 0; isRunning := false; startTime := Some 2000 |}
  /\ dispatch (Start 1000)
       {| income := 50000; isRunning := true; startTime := Some 1000 |}
     = {| income := 50000; isRunning := false; startTime := Some 1000 |}.
Proof. split; reflexivity. Qed.

(** C1, amended: [start()] sets [startTime] to the current time in
    every case and leaves [income] alone.  It sets [isRunning] to true
    exactly when the timer was not running, or the income is greater
    than 0 and the current time is a non-zero number other than the
    [startTime] held so far (the effect then runs); otherwise, called
    while running, it stops the timer.  In particular a second call in
    a row resets [startTime] to the second timestamp, and leaves
    [isRunning] true exactly when the first call had stopped the timer,
    or the income is greater than 0 and the second timestamp is a
    non-zero number other than the first. *)
Theorem start_sets_running (s : TimerState) (now : JS.number) :
  startTime (dispatch (Start now) s) = Some now
  /\ income (dispatch (Start now) s) = income s
  /\ (isRunning (dispatch (Start now) s) = true
      <-> isRunning s = false
          \/ (JS.gt (income s) 0 = true /\ JS.ToBoolean_number now = true
              /\ JS.Object_is_nullable (startTime s) (Some now) = false))
  /\ (isRunning s = false
      \/ (JS.gt (income s) 0 = true /\ JS.ToBoolean_number now = true
          /\ JS.Object_is_nullable (startTime s) (Some now) = false) ->
      dispatch (Start now) s
        = {| income := income s; isRunning := true; startTime := Some now |})
  /\ forall later : JS.number,
       startTime (dispatch (Start later) (dispatch (Start now) s)) = Some later
       /\ income (dispatch (Start later) (dispatch (Start now) s)) = income s
       /\ (isRunning (dispatch (Start later) (dispatch (Start now) s)) = true
           <-> isRunning (dispatch (Start now) s) = false
               \/ (JS.gt (income s) 0 = true /\ JS.ToBoolean_number later = true
                   /\ JS.Object_is now later = false)).
Proof.
  assert (Hrun : forall (s : TimerState) (now : JS.number),
             isRunning (dispatch (Start now) s) = true
             <-> isRunning s = false
                 \/ (JS.gt (income s) 0 = true /\ JS.ToBoolean_number now = true
                     /\ JS.Object_is_nullable (startTime s) (Some now) = false)).
  { clear. intros s now. rewrite start_isRunning.
    destruct (JS.gt (income s) 0), (JS.ToBoolean_number now),
      (JS.Object_is_nullable (startTime s) (Some now)), (isRunning s);
      cbn [andb negb]; split; intros H;
      solve [reflexivity | now left | right; now repeat split
            | discriminate H
            | destruct H as [H|(H1 & H2 & H3)]; discriminate]. }
  pose proof (start_sets_startTime s now) as [Ht Hi].
  split; [exact Ht|]. split; [exact Hi|]. split; [apply Hrun|]. split.
  - intros H. apply Hrun in H.
    rewrite <- (eta_TimerState (dispatch (Start now) s)).
    now rewrite Ht, Hi, H.
  - intros later.
    pose proof (start_sets_startTime (dispatch (Start now) s) later) as [Ht' Hi'].
    split; [exact Ht'|]. split; [now rewrite Hi'|].
    rewrite Hrun, Hi, Ht. reflexivity.
Qed.

Lemma start_sets_running_witness :
  dispatch (Start 2000)
    {| income := 50000; isRunning := true; startTime := Some 1000 |}
  = {| income := 50000; isRunning := true; startTime := Some 2000 |}
  /\ dispatch (Start 1000) default_state
     = {| income := 0; isRunning := true; startTime := Some 1000 |}.
Proof.
  split.
  - apply (proj1 (proj2 (proj2 (proj2
             (start_sets_running
                {| income := 50000; isRunning := true; startTime := Some 1000 |}
                2000))))).
    right. repeat split.
  - apply (proj1 (proj2 (proj2 (proj2 (start_sets_running default_state 1000))))).
    left. reflexivity.
Defined.

(** C3: from every state, [reset()] yields the default state, before
    and after the effect has run. *)
Theorem reset_yields_default (s : TimerState) :
  handleReset s = {| income := 0; isRunning := false; startTime := None |}
  /\ dispatch Reset s = {| income := 0; isRunning := false; startTime := None |}.
Proof.
  split; [reflexivity|].
  unfold dispatch, commit. simpl. now destruct (same_deps _ _).
Qed.

Lemma invariant_default : invariant default_state.
Proof. intros H. discriminate H. Qed.

Lemma invariant_handleStart (s : TimerState) (now : JS.number) :
  invariant (handleStart s now).
Proof. intros _. discriminate. Qed.

Lemma invariant_handleReset (s : TimerState) : invariant (handleReset s).
Proof. intros H. discriminate H. Qed.

Lemma invariant_setIncome (s : TimerState) (value : JS.number) :
  invariant s -> invariant (setIncome s value).
Proof. intros Hs. exact Hs. Qed.

Lemma invariant_effect (s : TimerState) : invariant s -> invariant (effect s).
Proof.
  unfold invariant. rewrite effect_startTime, effect_isRunning.
  destruct (startTime s) as [t|]; [intros _ _; discriminate|].
  simpl. rewrite andb_false_r. intros Hs. exact Hs.
Qed.

Lemma invariant_step (s s' : TimerState) : invariant s -> step s s' -> invariant s'.
Proof.
  intros Hs Hstep. destruct Hstep.
  - apply invariant_handleStart.
  - apply invariant_handleReset.
  - now apply invariant_setIncome.
  - now apply invariant_effect.
Qed.

Lemma invariant_commit (prev next : TimerState) :
  invariant next -> invariant (commit prev next).
Proof.
  intros Hnext. unfold commit.
  destruct (same_deps prev next); [exact Hnext|now apply invariant_effect].
Qed.

Lemma invariant_dispatch (a : action) (s : TimerState) :
  invariant s -> invariant (dispatch a s).
Proof.
  intros Hs. apply invariant_commit. destruct a.
  - apply invariant_handleStart.
  - apply invariant_handleReset.
  - now apply invariant_setIncome.
Qed.

Lemma invariant_run (l : list action) (s : TimerState) :
  invariant s -> invariant (run l s).
Proof.
  revert s. induction l as [|a l IH]; intros s Hs; [exact Hs|].
  apply IH. now apply invariant_dispatch.
Qed.

(** C5: [isRunning == true] implies [startTime != null] in the default
    state; each operation ([start], [reset], [setIncome], the effect)
    preserves it, alone or followed by the render it causes; so it
    holds in every state reached from the default state. *)
Theorem invariant_holds :
  invariant default_state
  /\ (forall s s', invariant s -> step s s' -> invariant s')
  /\ (forall a s, invariant s -> invariant (dispatch a s))
  /\ (forall s, reachable s -> invariant s)
  /\ (forall l, invariant (run l default_state)).
Proof.
  split; [apply invariant_default|].
  split; [apply invariant_step|].
  split; [apply invariant_dispatch|].
  split.
  - intros s Hs. induction Hs as [|s s' _ IH Hstep].
    + apply invariant_default.
    + exact (invariant_step s s' IH Hstep).
  - intros l. apply invariant_run, invariant_default.
Qed.

Lemma invariant_holds_witness :
  invariant (run [SetIncome 50000; Start 1000; Start 2000] default_state)
  /\ invariant (effect (handleStart (setIncome default_state 50000) 1000)).
Proof.
  split.
  - apply (proj2 (proj2 (proj2 (proj2 invariant_holds)))).
  - apply (proj1 (proj2 (proj2 (proj2 invariant_holds)))).
    eapply reachable_step; [|apply step_effect].
    eapply reachable_step; [|apply step_start].
    eapply reachable_step; [|apply step_setIncome].
    apply reachable_default.
Defined.

(** C6, as stated, fails: with [startTime] set to 0 (not null) an income
    greater than 0 does not start the timer; nor does storing again the
    income already held, after which no effect runs. *)
Lemma setIncome_no_auto_flip :
  dispatch (SetIncome 50000)
    {| income := 0; isRunning := false; startTime := Some 0 |}
  = {| income := 50000; isRunning := false; startTime := Some 0 |}
  /\ dispatch (SetIncome 50000)
       {| income := 50000; isRunning := false; startTime := Some 1000 |}
     = {| income := 50000; isRunning := false; startTime := Some 1000 |}.
Proof. split; reflexivity. Qed.

(** C6, amended: after [setIncome(value)] with a value other than the
    income held so far, if the stored income is greater than 0 and
    [startTime] is set to a number other than 0 and NaN, then
    [isRunning] is true. *)
Theorem setIncome_auto_flip (s : TimerState) (value : JS.number) :
  JS.Object_is (income s) value = false ->
  JS.gt (income (dispatch (SetIncome value) s)) 0 = true ->
  JS.ToBoolean_nullable (startTime s) = true ->
  dispatch (SetIncome value) s
    = {| income := value; isRunning := true; startTime := startTime s |}.
Proof.
  unfold dispatch. rewrite commit_income. simpl.
  intros Hnew Hpos Hset.
  unfold commit, same_deps. simpl. rewrite Hnew. simpl.
  unfold effect. simpl. now rewrite Hpos, Hset.
Qed.

Lemma setIncome_auto_flip_witness :
  dispatch (SetIncome 50000)
    {| income := 0; isRunning := false; startTime := Some 1000 |}
  = {| income := 50000; isRunning := true; startTime := Some 1000 |}.
Proof.
  apply (setIncome_auto_flip
           {| income := 0; isRunning := false; startTime := Some 1000 |} 50000);
    reflexivity.
Defined.

(** C8, as stated, fails: [setIncome] does not change only the income.
    With the timer stopped and a [startTime] still set, storing a new
    income greater than 0 makes the effect set [isRunning] to true. *)
Lemma setIncome_starts_timer :
  dispatch (SetIncome 50000)
    {| income := 0; isRunning := false; startTime := Some 1000 |}
  = {| income := 50000; isRunning := true; startTime := Some 1000 |}
  /\ ~ Spec.changes_only_income
        {| income := 0; isRunning := false; startTime := Some 1000 |} 50000.
Proof.
  split; [reflexivity|]. unfold Spec.changes_only_income. discriminate.
Qed.

(** C8, amended: no call to [setIncome] modifies [startTime], in the
    Running state or in any other, and [income] becomes the value
    given.  [isRunning] stays as it is except in one case: when the
    timer is not running, the value differs from the income held, is
    greater than 0, and [startTime] is a number other than 0 and NaN,
    the effect sets [isRunning] to true.  So in the Running state, and
    whenever [startTime] is null, only the income changes. *)
Theorem setIncome_frame (s : TimerState) (value : JS.number) :
  setIncome s value
    = {| income := value; isRunning := isRunning s; startTime := startTime s |}
  /\ startTime (dispatch (SetIncome value) s) = startTime s
  /\ income (dispatch (SetIncome value) s) = value
  /\ isRunning (dispatch (SetIncome value) s)
     = isRunning s
       || (negb (JS.Object_is (income s) value) && JS.gt value 0
           && JS.ToBoolean_nullable (startTime s))
  /\ (isRunning s = true ->
      dispatch (SetIncome value) s
        = {| income := value; isRunning := true; startTime := startTime s |})
  /\ (JS.ToBoolean_nullable (startTime s) = false ->
      Spec.changes_only_income s value).
Proof.
  assert (Hrun : isRunning (dispatch (SetIncome value) s)
                 = isRunning s
                   || (negb (JS.Object_is (income s) value) && JS.gt value 0
                       && JS.ToBoolean_nullable (startTime s))).
  { unfold dispatch, commit, same_deps. cbn [handler setIncome income startTime].
    rewrite Object_is_nullable_refl, andb_true_r.
    destruct (JS.Object_is (income s) value); cbn [negb andb].
    - now rewrite orb_false_r.
    - rewrite effect_isRunning. unfold setIncome. cbn [income isRunning startTime].
      destruct (JS.gt value 0 && JS.ToBoolean_nullable (startTime s));
        [now rewrite orb_true_r|now rewrite orb_false_r]. }
  assert (Ht : startTime (dispatch (SetIncome value) s) = startTime s)
    by (unfold dispatch; now rewrite commit_startTime).
  assert (Hi : income (dispatch (SetIncome value) s) = value)
    by (unfold dispatch; now rewrite commit_income).
  split; [reflexivity|]. split; [exact Ht|]. split; [exact Hi|].
  split; [exact Hrun|]. split.
  - intros Hr. rewrite <- (eta_TimerState (dispatch (SetIncome value) s)).
    now rewrite Ht, Hi, Hrun, Hr.
  - intros Hnull. unfold Spec.changes_only_income.
    rewrite <- (eta_TimerState (dispatch (SetIncome value) s)).
    rewrite Ht, Hi, Hrun, Hnull, andb_false_r, orb_false_r. reflexivity.
Qed.

Lemma setIncome_frame_witness :
  dispatch (SetIncome 60000)
    {| income := 50000; isRunning := true; startTime := Some 1000 |}
  = {| income := 60000; isRunning := true; startTime := Some 1000 |}
  /\ dispatch (SetIncome 60000) default_state
     = {| income := 60000; isRunning := false; startTime := None |}.
Proof.
  split.
  - apply (proj1 (proj2 (proj2 (proj2 (proj2
             (setIncome_frame
                {| income := 50000; isRunning := true; startTime := Some 1000 |}
                60000)))))).
    reflexivity.
  - apply (proj2 (proj2 (proj2 (proj2 (proj2
             (setIncome_frame default_state 60000)))))).
    reflexivity.
Defined.

(** ** Currency formatting *)

Lemma decimals_spec (amount : JS.number) :
  RichPerson.decimals amount = Spec.fractionDigits amount.
Proof.
  unfold RichPerson.decimals, Spec.fractionDigits.
  destruct (JS.lt amount 1); [reflexivity|]. now destruct (JS.lt amount 100).
Qed.

Lemma formatCurrency_to_spec (amount : JS.number) :
  Spec.formatted_to_spec (RichPerson.formatCurrency amount).
Proof. split; apply decimals_spec. Qed.

Lemma RichPerson_render_to_spec (p : RichPerson.RichPersonProps)
    (currentTime : JS.number) :
  Forall Spec.formatted_to_spec (RichPerson.render p currentTime).
Proof.
  unfold RichPerson.render. repeat constructor; apply decimals_spec.
Qed.

(** C9, as stated, fails: the primary ticker formats an amount below 1
    (here 0, in the default state) with 2 decimal places, not 5. *)
Lemma primary_ticker_two_decimals :
  render default_state 0 (fun _ => 0) = [useFormatCurrency 0]
  /\ JS.lt (Intl.amount (useFormatCurrency 0)) 1 = true
  /\ Intl.minimumFractionDigits (Intl.options (useFormatCurrency 0)) = 2%nat
  /\ ~ Forall Spec.formatted_to_spec (render default_state 0 (fun _ => 0)).
Proof.
  repeat split. intros H. inversion H as [|c l [Hmin _] _]. discriminate Hmin.
Qed.

(** C9, amended: the comparison cards format every amount with 5
    decimal places when it is less than 1 and with 2 otherwise; the
    primary ticker formats every amount with 2 decimal places. *)
Theorem formatting_decimals :
  (forall amount,
     Intl.minimumFractionDigits (Intl.options (RichPerson.formatCurrency amount))
       = (if JS.lt amount 1 then 5%nat else 2%nat)
     /\ Intl.maximumFractionDigits (Intl.options (RichPerson.formatCurrency amount))
       = (if JS.lt amount 1 then 5%nat else 2%nat))
  /\ (forall amount,
        Intl.minimumFractionDigits (Intl.options (useFormatCurrency amount)) = 2%nat
        /\ Intl.maximumFractionDigits (Intl.options (useFormatCurrency amount)) = 2%nat)
  /\ (forall s currentTime cardTime,
        exists cards,
          render s currentTime cardTime
            = useFormatCurrency (useCurrentIncome (income s) (startTime s) currentTime)
              :: cards
          /\ Forall Spec.formatted_to_spec cards).
Proof.
  split; [exact formatCurrency_to_spec|].
  split; [intros amount; split; reflexivity|].
  intros s currentTime cardTime. unfold render.
  eexists. split; [reflexivity|].
  destruct (startTime s) as [since|]; [|constructor].
  destruct (isRunning s && JS.ToBoolean_number since); [|constructor].
  repeat (apply Forall_app; split); apply RichPerson_render_to_spec.
Qed.

(** ** Initialization from the persisted state *)

Example parse_scalars :
  JSON.parse "0" = JS.Normal (JSON.JNumber 0)
  /\ JSON.parse "1771459200123" = JS.Normal (JSON.JNumber 1771459200123)
  /\ JSON.parse "0.1" = JS.Normal (JSON.JNumber 0x1.999999999999ap-4)
  /\ JSON.parse "true" = JS.Normal (JSON.JBool true)
  /\ JSON.parse "null" = JS.Normal JSON.JNull
  /\ JSON.parse " [1, {} ] "
     = JS.Normal (JSON.JArray [JSON.JNumber 1; JSON.JObject []])
  /\ JSON.parse ("{" ++ JSON.quoted "a\u0062" ++ ": null}")
     = JS.Normal (JSON.JObject [JSON.code_units "ab"])
  /\ JSON.parse "abc" = JS.Throw_SyntaxError
  /\ JSON.parse "{" = JS.Throw_SyntaxError
  /\ JSON.parse "01" = JS.Throw_SyntaxError
  /\ JSON.parse "" = JS.Throw_SyntaxError.
Proof. repeat split. Qed.

(** A reload finds the state the page persisted. *)
Example reload_running :
  initialize (<["income" := "500000"%string]>
                (<["isRunning" := "true"%string]>
                   (<["startTime" := "1771459200123"%string]> ∅)))
  = JS.Normal {| income := 500000; isRunning := true;
                 startTime := Some 1771459200123 |}.
Proof. reflexivity. Qed.

Lemma parse_completes (text : string) :
  JSON.parse text = JS.Throw_SyntaxError \/ exists v, JSON.parse text = JS.Normal v.
Proof.
  unfold JSON.parse.
  destruct (JSON.parse_value _ _) as [[v rest]|]; [|now left].
  destruct (JSON.skip_ws rest); [right; now exists v|now left].
Qed.

Lemma new_Date_completes (v : JSON.value) :
  JSON.new_Date v = JS.Throw_TypeError \/ exists d, JSON.new_Date v = JS.Normal d.
Proof.
  destruct v; cbn [JSON.new_Date]; try (right; now eexists);
    destruct (JSON.ToString_throws _); (now left) || (right; now eexists).
Qed.

Lemma if_item_absent {A : Type} (item : option string)
    (f : string -> JS.completion A) (otherwise : JS.completion A) :
  absent item = true -> if_item item f otherwise = otherwise.
Proof.
  destruct item as [text|]; [|reflexivity].
  simpl. now destruct (JS.ToBoolean_string text).
Qed.

Lemma if_item_present {A : Type} (item : option string)
    (f : string -> JS.completion A) (otherwise : JS.completion A) :
  absent item = false ->
  exists text, item = Some text /\ if_item item f otherwise = f text.
Proof.
  destruct item as [text|]; [|discriminate].
  simpl. destruct (JS.ToBoolean_string text); [|discriminate].
  intros _. now exists text.
Qed.

Lemma if_item_malformed {A : Type} (item : option string)
    (f : JSON.value -> JS.completion A) (otherwise : JS.completion A) :
  absent item = false -> malformed item ->
  if_item item (fun text => v ← JSON.parse text; f v) otherwise
    = JS.Throw_SyntaxError.
Proof.
  intros Habs [text [Hitem Hparse]].
  destruct (if_item_present item (fun text => v ← JSON.parse text; f v)
              otherwise Habs) as [text' [Hitem' ->]].
  rewrite Hitem in Hitem'. injection Hitem' as <-. now rewrite Hparse.
Qed.

Lemma if_item_parsed {A : Type} (text : string) (v : JSON.value)
    (f : JSON.value -> JS.completion A) (otherwise : JS.completion A) :
  JS.ToBoolean_string text = true -> JSON.parse text = JS.Normal v ->
  if_item (Some text) (fun text => v ← JSON.parse text; f v) otherwise = f v.
Proof. intros Hne Hp. simpl. now rewrite Hne, Hp. Qed.

(** An entry is missing, holds text that is not JSON, or holds JSON. *)
Lemma entry_cases (item : option string) :
  absent item = true
  \/ (absent item = false /\ malformed item)
  \/ (exists text v, item = Some text /\ JS.ToBoolean_string text = true
                     /\ JSON.parse text = JS.Normal v).
Proof.
  destruct item as [text|]; [|now left]. simpl.
  destruct (JS.ToBoolean_string text) eqn:Hne; [|now left]. right.
  destruct (parse_completes text) as [H|[v H]].
  - left. split; [reflexivity|]. now exists text.
  - right. now exists text, v.
Qed.

(** What reading [income] or [isRunning] in the loader can do: throw
    the [SyntaxError] of a malformed entry, or go on. *)
Lemma loader_read (item : option string) (otherwise : JSON.value) :
  (absent item = false /\ malformed item
   /\ if_item item (fun text => v ← JSON.parse text; mret v) (mret otherwise)
      = JS.Throw_SyntaxError)
  \/ (~ (absent item = false /\ malformed item)
      /\ exists i,
           if_item item (fun text => v ← JSON.parse text; mret v) (mret otherwise)
           = JS.Normal i).
Proof.
  destruct (entry_cases item) as [H|[[Ha Hm]|(text & v & -> & Hne & Hp)]].
  - right. split; [intros [H' _]; congruence|].
    rewrite if_item_absent by assumption. now eexists.
  - left. split; [exact Ha|]. split; [exact Hm|]. now apply if_item_malformed.
  - right. split; [intros [_ (text' & [= <-] & Hp')]; congruence|].
    rewrite (if_item_parsed text v) by assumption. now eexists.
Qed.

(** What reading [startTime] in the loader can do: throw the
    [SyntaxError] of a malformed entry, throw the [TypeError] of
    [new Date], or go on. *)
Lemma loader_read_date (item : option string) :
  (absent item = false /\ malformed item
   /\ if_item item
        (fun text => v ← JSON.parse text; d ← JSON.new_Date v; mret (Some d))
        (mret None)
      = JS.Throw_SyntaxError)
  \/ (~ (absent item = false /\ malformed item) /\ unconvertible item
      /\ if_item item
           (fun text => v ← JSON.parse text; d ← JSON.new_Date v; mret (Some d))
           (mret None)
         = JS.Throw_TypeError)
  \/ (~ (absent item = false /\ malformed item) /\ ~ unconvertible item
      /\ exists t,
           if_item item
             (fun text => v ← JSON.parse text; d ← JSON.new_Date v; mret (Some d))
             (mret None)
           = JS.Normal t).
Proof.
  destruct (entry_cases item) as [H|[[Ha Hm]|(text & v & -> & Hne & Hp)]].
  - right. right. split; [intros [H' _]; congruence|]. split.
    + intros (text & v & -> & Hne & _). simpl in H. now rewrite Hne in H.
    + rewrite if_item_absent by assumption. now eexists.
  - left. split; [exact Ha|]. split; [exact Hm|].
    now apply (if_item_malformed item
                 (fun v => d ← JSON.new_Date v; mret (Some d))).
  - right.
    assert (Hok : ~ (absent (Some text) = false /\ malformed (Some text)))
      by (intros [_ (text' & [= <-] & Hp')]; congruence).
    rewrite (if_item_parsed text v
               (fun v => d ← JSON.new_Date v; mret (Some d))) by assumption.
    destruct (new_Date_completes v) as [Hd|[d Hd]].
    + left. split; [exact Hok|]. split; [now exists text, v|]. now rewrite Hd.
    + right. split; [exact Hok|]. split.
      * intros (text' & v' & [= <-] & _ & Hp' & Hd'). congruence.
      * rewrite Hd. now eexists.
Qed.

Lemma clientLoader_eq (storage : Storage) :
  clientLoader storage =
    (i ← if_item (getItem storage "income")
           (fun text => v ← JSON.parse text; mret v) (mret (JSON.JNumber 0));
     t ← if_item (getItem storage "startTime")
           (fun text => v ← JSON.parse text; d ← JSON.new_Date v; mret (Some d))
           (mret None);
     r ← if_item (getItem storage "isRunning")
           (fun text => v ← JSON.parse text; mret v) (mret (JSON.JBool false));
     mret {| storedIncome := i; storedStartTime := t; storedIsRunning := r |}).
Proof.
  unfold clientLoader.
  assert (H : forall otherwise item,
             if_item item JSON.parse otherwise
             = if_item item (fun text => v ← JSON.parse text; mret v) otherwise).
  { intros otherwise [text|]; [|reflexivity]. simpl.
    destruct (JS.ToBoolean_string text); [|reflexivity].
    now destruct (JSON.parse text). }
  now rewrite !H.
Qed.

Lemma clientLoader_absent (storage : Storage) :
  (forall key, In key keys -> absent (getItem storage key) = true) ->
  clientLoader storage
    = JS.Normal {| storedIncome := JSON.JNumber 0;
                   storedStartTime := None;
                   storedIsRunning := JSON.JBool false |}.
Proof.
  intros H. unfold clientLoader.
  rewrite !if_item_absent by (apply H; simpl; tauto).
  reflexivity.
Qed.

Lemma initialize_absent (storage : Storage) :
  (forall key, In key keys -> absent (getItem storage key) = true) ->
  initialize storage = JS.Normal default_state.
Proof.
  intros H. unfold initialize. rewrite (clientLoader_absent storage H).
  simpl. unfold Home.Home, useIncomeTracker, useLocalStorageState. simpl.
  rewrite !if_item_absent by (apply H; simpl; tauto).
  reflexivity.
Qed.

(** The loader reads [income], then [startTime], then [isRunning]: it
    throws the error of the first of its steps that fails. *)
Lemma clientLoader_SyntaxError_iff (storage : Storage) :
  clientLoader storage = JS.Throw_SyntaxError
  <-> (absent (getItem storage "income") = false
       /\ malformed (getItem storage "income"))
      \/ (absent (getItem storage "startTime") = false
          /\ malformed (getItem storage "startTime"))
      \/ ((absent (getItem storage "isRunning") = false
           /\ malformed (getItem storage "isRunning"))
          /\ ~ unconvertible (getItem storage "startTime")).
Proof.
  rewrite clientLoader_eq.
  destruct (loader_read (getItem storage "income") (JSON.JNumber 0))
    as [(Ai & Mi & ->)|(Ni & i & ->)]; [split; [tauto|reflexivity]|].
  destruct (loader_read_date (getItem storage "startTime"))
    as [(At & Mt & ->)|[(Nt & Ut & ->)|(Nt & Ut & t & ->)]].
  - split; [tauto|reflexivity].
  - split; [discriminate|]. intros [H|[H|[_ H]]]; contradiction.
  - destruct (loader_read (getItem storage "isRunning") (JSON.JBool false))
      as [(Ar & Mr & ->)|(Nr & r & ->)].
    + split; [tauto|reflexivity].
    + split; [discriminate|]. intros [H|[H|[H _]]]; contradiction.
Qed.

Lemma clientLoader_TypeError_iff (storage : Storage) :
  clientLoader storage = JS.Throw_TypeError
  <-> ~ (absent (getItem storage "income") = false
         /\ malformed (getItem storage "income"))
      /\ unconvertible (getItem storage "startTime").
Proof.
  rewrite clientLoader_eq.
  destruct (loader_read (getItem storage "income") (JSON.JNumber 0))
    as [(Ai & Mi & ->)|(Ni & i & ->)]; [split; [discriminate|tauto]|].
  destruct (loader_read_date (getItem storage "startTime"))
    as [(At & Mt & ->)|[(Nt & Ut & ->)|(Nt & Ut & t & ->)]].
  - split; [discriminate|]. intros [_ (text & v & Hi & _ & Hp & _)].
    destruct Mt as (text' & Hi' & Hp'). congruence.
  - split; [tauto|reflexivity].
  - destruct (loader_read (getItem storage "isRunning") (JSON.JBool false))
      as [(Ar & Mr & ->)|(Nr & r & ->)]; (split; [discriminate|tauto]).
Qed.

(** C4, as stated, fails: an [income] entry that is not JSON makes the
    loader, and so initialization, throw the [SyntaxError] of
    [JSON.parse]. *)
Lemma malformed_income_throws :
  let storage : Storage := <["income" := "abc"%string]> ∅ in
  (forall key, In key keys ->
     getItem storage key = None \/ malformed (getItem storage key))
  /\ clientLoader storage = JS.Throw_SyntaxError
  /\ initialize storage = JS.Throw_SyntaxError
  /\ ~ Spec.falls_back_to_defaults storage.
Proof.
  intros storage.
  assert (Hkeys : forall key, In key keys ->
             getItem storage key = None \/ malformed (getItem storage key)).
  { intros key [<-|[<-|[<-|[]]]].
    - right. exists "abc"%string. split; reflexivity.
    - now left.
    - now left. }
  split; [exact Hkeys|]. split; [reflexivity|]. split; [reflexivity|].
  intros H. specialize (H Hkeys). discriminate H.
Qed.

(** C4, amended: when every entry of the persisted state is absent (or
    empty), initialization surfaces no error and the state is the
    default [{income: 0, isRunning: false, startTime: null}]; when an
    entry holds text that is not JSON, an error that nothing catches
    leaves the loader and initialization: the [SyntaxError] of
    [JSON.parse], or, when the entry is [isRunning] and the [startTime]
    entry read before it holds an array or an object that [new Date]
    cannot convert, the [TypeError] of [new Date]. *)
Theorem initialize_absent_or_malformed (storage : Storage) :
  ((forall key, In key keys -> absent (getItem storage key) = true) ->
   initialize storage = JS.Normal default_state)
  /\ (forall key, In key keys ->
        absent (getItem storage key) = false ->
        malformed (getItem storage key) ->
        (clientLoader storage = JS.Throw_SyntaxError
         /\ initialize storage = JS.Throw_SyntaxError)
        \/ (key = "isRunning"%string
            /\ unconvertible (getItem storage "startTime")
            /\ clientLoader storage = JS.Throw_TypeError
            /\ initialize storage = JS.Throw_TypeError)).
Proof.
  split; [apply initialize_absent|].
  intros key Hkey Habs Hmal.
  assert (Hsyn : clientLoader storage = JS.Throw_SyntaxError ->
                 clientLoader storage = JS.Throw_SyntaxError
                 /\ initialize storage = JS.Throw_SyntaxError).
  { intros H. split; [exact H|]. unfold initialize. now rewrite H. }
  destruct Hkey as [<-|[<-|[<-|[]]]].
  - left. apply Hsyn, clientLoader_SyntaxError_iff. tauto.
  - left. apply Hsyn, clientLoader_SyntaxError_iff. tauto.
  - destruct (loader_read (getItem storage "income") (JSON.JNumber 0))
      as [(Ai & Mi & _)|(Ni & _)];
      [left; apply Hsyn, clientLoader_SyntaxError_iff; tauto|].
    destruct (loader_read_date (getItem storage "startTime"))
      as [(At & Mt & _)|[(Nt & Ut & _)|(Nt & Ut & _)]].
    + left. apply Hsyn, clientLoader_SyntaxError_iff. tauto.
    + right. split; [reflexivity|]. split; [exact Ut|].
      assert (H : clientLoader storage = JS.Throw_TypeError)
        by (apply clientLoader_TypeError_iff; tauto).
      split; [exact H|]. unfold initialize. now rewrite H.
    + left. apply Hsyn, clientLoader_SyntaxError_iff. tauto.
Qed.

Lemma initialize_absent_or_malformed_witness :
  initialize ∅ = JS.Normal default_state
  /\ initialize (<["startTime" := "{"%string]> ∅) = JS.Throw_SyntaxError
  /\ initialize (<["startTime" := ("{" ++ JSON.quoted "toString" ++ ":1}")%string]>
                   (<["isRunning" := "tru"%string]> ∅))
     = JS.Throw_TypeError.
Proof.
  split; [|split].
  - apply (proj1 (initialize_absent_or_malformed ∅)).
    intros key _. reflexivity.
  - destruct (proj2 (initialize_absent_or_malformed
                       (<["startTime" := "{"%string]> ∅))
                "startTime"%string) as [[_ H]|[Hk _]].
    + simpl. tauto.
    + reflexivity.
    + exists "{"%string. split; reflexivity.
    + exact H.
    + discriminate Hk.
  - destruct (proj2 (initialize_absent_or_malformed
                       (<["startTime" := ("{" ++ JSON.quoted "toString" ++ ":1}")%string]>
                          (<["isRunning" := "tru"%string]> ∅)))
                "isRunning"%string) as [[H _]|(_ & _ & _ & H)].
    + simpl. tauto.
    + reflexivity.
    + exists "tru"%string. split; reflexivity.
    + discriminate H.
    + exact H.
Defined.

(** ** Monotonicity of the accrual calculator

    The calculator subtracts, divides and multiplies binary64 numbers.
    Each operation rounds to nearest; rounding is monotone, which the
    lemmas below establish from the definitions of [SpecFloat]. *)

Section Rounding.

Import Binary64.
Local Open Scope Z_scope.

Ltac divmod := Z.to_euclidean_division_equations; lia.

Lemma half_mono c1 c2 : c1 <= c2 -> half c1 <= half c2.
Proof.
  intros H. unfold half.
  destruct (Z.eqb_spec (c1 mod 4) 1), (Z.eqb_spec (c2 mod 4) 1); divmod.
Qed.

Lemma half_double c : half (2 * c) = c.
Proof. unfold half. destruct (Z.eqb_spec ((2 * c) mod 4) 1); divmod. Qed.

Lemma half_nonneg c : 0 <= c -> 0 <= half c.
Proof. intros H. unfold half. destruct (Z.eqb_spec (c mod 4) 1); divmod. Qed.

Lemma rne_mono c1 c2 : c1 <= c2 -> rne c1 <= rne c2.
Proof.
  intros H. unfold rne.
  destruct (Z.eqb_spec (c1 mod 4) 3), (Z.eqb_spec (c1 mod 8) 6),
    (Z.eqb_spec (c2 mod 4) 3), (Z.eqb_spec (c2 mod 8) 6); cbn [orb]; divmod.
Qed.

Lemma rne_exact m : rne (4 * m) = m.
Proof.
  unfold rne.
  destruct (Z.eqb_spec ((4 * m) mod 4) 3), (Z.eqb_spec ((4 * m) mod 8) 6);
    cbn [orb]; divmod.
Qed.

(** [shr_1] halves the code. *)
Lemma code_shr_1 r :
  0 <= shr_m r -> code (shr_1 r) = half (code r) /\ 0 <= shr_m (shr_1 r).
Proof.
  destruct r as [m rb sb]. cbn [shr_m]. intros Hm.
  destruct m as [|p|p]; [| |lia].
  - destruct rb, sb; split; reflexivity || (cbn; lia).
  - assert (Hhalf : forall q b, 0 <= b <= 1 ->
              half (4 * (2 * q + b) + 2 * Z.b2z rb + Z.b2z sb)
              = 4 * q + 2 * b + Z.b2z (rb || sb)).
    { intros q b Hb. unfold half.
      destruct (Z.eqb_spec ((4 * (2 * q + b) + 2 * Z.b2z rb + Z.b2z sb) mod 4) 1);
        destruct rb, sb; cbn [Z.b2z orb] in *; divmod. }
    destruct p as [p|p|]; unfold code; cbn [shr_1 shr_m shr_r shr_s Z.b2z];
      (split; [|lia]).
    + rewrite <- (Hhalf (Z.pos p) 1) by lia. f_equal; lia.
    + transitivity (4 * Z.pos p + 2 * 0 + Z.b2z (rb || sb)); [lia|].
      rewrite <- (Hhalf (Z.pos p) 0) by lia. f_equal; lia.
    + transitivity (4 * 0 + 2 * 1 + Z.b2z (rb || sb)); [lia|].
      rewrite <- (Hhalf 0 1) by lia. f_equal; lia.
Qed.

Lemma code_m r : shr_m r = code r / 4.
Proof. destruct r as [m rb sb]. unfold code. cbn [shr_m shr_r shr_s]. destruct rb, sb; cbn [Z.b2z]; divmod. Qed.

Lemma code_loc m l : code (shr_record_of_loc m l) = 4 * m + loc_code l.
Proof. destruct l as [|[]]; unfold code; cbn; lia. Qed.

Lemma shr_m_of_loc m l : shr_m (shr_record_of_loc m l) = m.
Proof. now destruct l as [|[]]. Qed.

Lemma rne_code r :
  round_nearest_even (shr_m r) (loc_of_shr_record r) = rne (code r).
Proof.
  destruct r as [m rb sb]. unfold code, rne. cbn [shr_m shr_r shr_s].
  assert (He : Z.even m = (m mod 2 =? 0)).
  { rewrite Zeven_mod. reflexivity. }
  destruct (Z.eqb_spec ((4 * m + 2 * Z.b2z rb + Z.b2z sb) mod 4) 3),
    (Z.eqb_spec ((4 * m + 2 * Z.b2z rb + Z.b2z sb) mod 8) 6);
    destruct rb, sb; cbn [Z.b2z orb loc_of_shr_record round_nearest_even] in *;
    try rewrite He; try destruct (Z.eqb_spec (m mod 2) 0); divmod.
Qed.

Lemma iter_pos_nat {A : Type} (f : A -> A) (p : positive) (x : A) :
  SpecFloat.iter_pos f p x = Nat.iter (Pos.to_nat p) f x.
Proof.
  revert x. induction p as [p IH|p IH|]; intros x; cbn [SpecFloat.iter_pos].
  - rewrite !IH, Pos2Nat.inj_xI, <- Nat.iter_add, <- Nat.iter_succ_r.
    f_equal. lia.
  - rewrite !IH, Pos2Nat.inj_xO, <- Nat.iter_add. f_equal. lia.
  - reflexivity.
Qed.

Lemma halves_succ n c : halves (S n) c = halves n (half c).
Proof. unfold halves. now rewrite Nat.iter_succ_r. Qed.

Lemma halves_add n k c : halves (n + k) c = halves n (halves k c).
Proof. unfold halves. now rewrite Nat.iter_add. Qed.

Lemma halves_mono n c1 c2 : c1 <= c2 -> halves n c1 <= halves n c2.
Proof.
  revert c1 c2. induction n as [|n IH]; intros c1 c2 H; [exact H|].
  rewrite !halves_succ. now apply IH, half_mono.
Qed.

Lemma halves_nonneg n c : 0 <= c -> 0 <= halves n c.
Proof.
  revert c. induction n as [|n IH]; intros c H; [exact H|].
  rewrite halves_succ. now apply IH, half_nonneg.
Qed.

Lemma halves_exact n c : halves n (c * 2 ^ Z.of_nat n) = c.
Proof.
  revert c. induction n as [|n IH]; intros c.
  - cbn. lia.
  - rewrite halves_succ, Nat2Z.inj_succ, Z.pow_succ_r by lia.
    replace (c * (2 * 2 ^ Z.of_nat n)) with (2 * (c * 2 ^ Z.of_nat n)) by lia.
    now rewrite half_double.
Qed.

Lemma shift_nonpos n c : n <= 0 -> shift n c = c.
Proof. intros H. unfold shift. now replace (Z.to_nat n) with O by lia. Qed.

Lemma shift_mono n c1 c2 : c1 <= c2 -> shift n c1 <= shift n c2.
Proof. apply halves_mono. Qed.

Lemma shift_nonneg n c : 0 <= c -> 0 <= shift n c.
Proof. apply halves_nonneg. Qed.

Lemma shift_exact n c : 0 <= n -> shift n (c * 2 ^ n) = c.
Proof.
  intros H. unfold shift. rewrite <- (Z2Nat.id n) at 2 by lia. apply halves_exact.
Qed.

Lemma shift_add n k c : 0 <= n -> 0 <= k -> shift (n + k) c = shift n (shift k c).
Proof.
  intros Hn Hk. unfold shift. rewrite Z2Nat.inj_add by lia. apply halves_add.
Qed.

Lemma shift_scaled n k c : 0 <= n -> 0 <= k -> shift (n + k) (c * 2 ^ k) = shift n c.
Proof. intros Hn Hk. now rewrite shift_add, shift_exact. Qed.

Lemma code_iter n r :
  0 <= shr_m r ->
  code (Nat.iter n shr_1 r) = halves n (code r)
  /\ 0 <= shr_m (Nat.iter n shr_1 r).
Proof.
  intros Hm. induction n as [|n [IHc IHm]]; [now split|].
  unfold halves in *. rewrite !Nat.iter_succ.
  destruct (code_shr_1 _ IHm) as [Hc Hm']. split; [|exact Hm'].
  now rewrite Hc, IHc.
Qed.

Lemma code_shr r e n :
  0 <= shr_m r ->
  code (fst (shr r e n)) = shift n (code r)
  /\ snd (shr r e n) = e + Z.max 0 n
  /\ 0 <= shr_m (fst (shr r e n)).
Proof.
  intros Hm. destruct n as [|p|p]; cbn [shr fst snd].
  - rewrite shift_nonpos by lia. split; [reflexivity|split; [lia|assumption]].
  - rewrite iter_pos_nat. unfold shift. rewrite Z2Nat.inj_pos.
    destruct (code_iter (Pos.to_nat p) r Hm) as [Hc Hm'].
    split; [exact Hc|split; [lia|exact Hm']].
  - rewrite shift_nonpos by lia. split; [reflexivity|split; [lia|assumption]].
Qed.

(** [binary_round_aux] in terms of codes: align, round to nearest
    even, align again, test for overflow. *)
Lemma bra_code s m e l :
  0 <= m ->
  let n1 := fexp prec emax (Zdigits2 m + e) - e in
  let e1 := e + Z.max 0 n1 in
  let m' := rne (shift n1 (4 * m + loc_code l)) in
  let n2 := fexp prec emax (Zdigits2 m' + e1) - e1 in
  binary_round_aux prec emax s m e l
    = finish s (shift n2 (4 * m') / 4) (e1 + Z.max 0 n2).
Proof.
  intros Hm n1 e1 m' n2. unfold binary_round_aux, shr_fexp.
  fold n1.
  pose proof (code_shr (shr_record_of_loc m l) e n1) as H1.
  rewrite shr_m_of_loc, code_loc in H1. specialize (H1 Hm).
  destruct (shr (shr_record_of_loc m l) e n1) as [r1 e1'] eqn:E1.
  cbn [fst snd] in H1. destruct H1 as (Hc1 & He1 & Hm1).
  rewrite rne_code, Hc1. fold m'. subst e1'. fold e1. fold n2.
  assert (Hm' : 0 <= m').
  { unfold m'. 
    transitivity (rne 0); [reflexivity|]. apply rne_mono, shift_nonneg. 
    destruct l as [|[]]; cbn [loc_code]; lia. }
  pose proof (code_shr (shr_record_of_loc m' loc_Exact) e1 n2) as H2.
  rewrite shr_m_of_loc, code_loc in H2. specialize (H2 Hm').
  destruct (shr (shr_record_of_loc m' loc_Exact) e1 n2) as [r2 e2'] eqn:E2.
  cbn [fst snd] in H2. destruct H2 as (Hc2 & He2 & Hm2).
  cbn [loc_code] in Hc2. rewrite Z.add_0_r in Hc2.
  rewrite (code_m r2), Hc2, He2. reflexivity.
Qed.

(** Digits *)

Lemma digits2_pos_size p : digits2_pos p = Pos.size p.
Proof. induction p as [p IH|p IH|]; cbn; now rewrite ?IH. Qed.

Lemma Zdigits2_log2 x : 0 < x -> Zdigits2 x = Z.log2 x + 1.
Proof.
  destruct x as [|p|p]; try lia. intros _. cbn [Zdigits2].
  rewrite digits2_pos_size. destruct p as [p|p|]; cbn [Z.log2 Pos.size]; lia.
Qed.

Lemma Zdigits2_le x d : 0 < x -> (Zdigits2 x <= d <-> x < 2 ^ d).
Proof.
  intros Hx. rewrite Zdigits2_log2 by assumption.
  rewrite (Z.log2_lt_pow2 x d Hx). lia.
Qed.

Lemma Zdigits2_ge x d : 0 < x -> (d <= Zdigits2 x <-> 2 ^ (d - 1) <= x).
Proof.
  intros Hx. rewrite Zdigits2_log2 by assumption.
  rewrite (Z.log2_le_pow2 x (d - 1) Hx). lia.
Qed.

Lemma Zdigits2_pos x : 0 < x -> 0 < Zdigits2 x.
Proof.
  intros Hx. rewrite Zdigits2_log2 by assumption.
  pose proof (Z.log2_nonneg x). lia.
Qed.

Lemma Zdigits2_mono x y : 0 < x -> x <= y -> Zdigits2 x <= Zdigits2 y.
Proof.
  intros Hx Hxy. rewrite !Zdigits2_log2 by lia.
  pose proof (Z.log2_le_mono x y Hxy). lia.
Qed.

Lemma Zdigits2_scaled x k : 0 < x -> 0 <= k -> Zdigits2 (x * 2 ^ k) = Zdigits2 x + k.
Proof.
  intros Hx Hk.
  assert (0 < 2 ^ k) by (apply Z.pow_pos_nonneg; lia).
  rewrite !Zdigits2_log2 by nia.
  rewrite Z.log2_mul_pow2 by lia. lia.
Qed.

Lemma Zdigits2_bounds x : 0 < x -> 2 ^ (Zdigits2 x - 1) <= x < 2 ^ Zdigits2 x.
Proof.
  intros Hx. split.
  - now apply Zdigits2_ge.
  - now apply Zdigits2_le.
Qed.

(** The exponent function of binary64 *)

Lemma fexp_fexp64 z : fexp prec emax z = fexp64 z.
Proof. reflexivity. Qed.

(** Results of rounding a positive value *)

Lemma pow2_53 : 2 ^ 53 = 9007199254740992. Proof. reflexivity. Qed.
Lemma pow2_52 : 2 ^ 52 = 4503599627370496. Proof. reflexivity. Qed.

Lemma RN_mantissa F V :
  0 < V -> F <= -1074 ->
  let ec := fexp64 (Zdigits2 V + F) in
  let m := rne (shift (ec - F) (4 * V)) in
  0 <= m <= 9007199254740992
  /\ (-1074 < ec -> 4503599627370496 <= m)
  /\ (Zdigits2 V + F <= -1074 + 52 -> m <= 4503599627370496).
Proof.
  intros HV HF ec m.
  pose proof (Zdigits2_bounds V HV) as [Hlo Hhi].
  pose proof (Zdigits2_pos V HV) as Hd.
  assert (Hn : 0 <= ec - F) by (unfold ec, fexp64; lia).
  assert (Hup : forall k, 0 <= k -> Zdigits2 V <= ec - F + k -> m <= 2 ^ k).
  { intros k Hk Hle. unfold m. rewrite <- (rne_exact (2 ^ k)).
    apply rne_mono. rewrite <- (shift_exact (ec - F) (4 * 2 ^ k) Hn).
    apply shift_mono.
    assert (2 ^ Zdigits2 V <= 2 ^ (ec - F + k)) by (apply Z.pow_le_mono_r; lia).
    rewrite Z.pow_add_r in H by lia. lia. }
  repeat split.
  - unfold m. transitivity (rne 0); [reflexivity|].
    apply rne_mono, shift_nonneg. lia.
  - rewrite <- pow2_53. apply Hup; [lia|]. unfold ec, fexp64. lia.
  - intros Hec. assert (Hec' : ec = Zdigits2 V + F - 53) by (unfold ec, fexp64 in *; lia).
    unfold m. rewrite <- pow2_52, <- (rne_exact (2 ^ 52)).
    apply rne_mono. rewrite <- (shift_exact (ec - F) (4 * 2 ^ 52) Hn).
    apply shift_mono.
    replace (Zdigits2 V - 1) with (52 + (ec - F)) in Hlo by lia.
    rewrite Z.pow_add_r in Hlo by lia. lia.
  - intros Hsub. rewrite <- pow2_52. apply Hup; [lia|]. unfold ec, fexp64. lia.
Qed.

Lemma shift_zero n : shift n 0 = 0.
Proof.
  destruct (Z.le_gt_cases 0 n) as [H|H].
  - rewrite <- (shift_exact n 0 H) at 2. reflexivity.
  - apply shift_nonpos. lia.
Qed.

(** The second alignment and the overflow test, on a rounded mantissa. *)
Lemma finish_norm s m ec :
  0 <= m <= 9007199254740992 -> -1074 <= ec ->
  let n2 := fexp64 (Zdigits2 m + ec) - ec in
  finish s (shift n2 (4 * m) / 4) (ec + Z.max 0 n2) = to_sf s (norm m ec).
Proof.
  intros Hm Hec n2. unfold norm.
  destruct (Z.eqb_spec m 0) as [->|Hm0].
  { rewrite shift_zero. reflexivity. }
  destruct (Z.eqb_spec m 9007199254740992) as [->|Hm1].
  { assert (Hn2 : n2 = 1) by (unfold n2, fexp64; cbn [Zdigits2 digits2_pos Pos.succ]; lia).
    rewrite Hn2. change (shift 1 (4 * 9007199254740992) / 4) with 4503599627370496.
    unfold finish, mk. change (emax - prec) with 971.
    replace (ec + Z.max 0 1) with (ec + 1) by lia.
    now destruct (ec + 1 <=? 971). }
  assert (Hd : Zdigits2 m <= 53).
  { apply Zdigits2_le; [lia|]. rewrite pow2_53. lia. }
  assert (Hn2 : n2 <= 0) by (unfold n2, fexp64; lia).
  rewrite shift_nonpos by assumption.
  replace (4 * m / 4) with m by divmod.
  replace (ec + Z.max 0 n2) with ec by lia.
  unfold finish, mk. change (emax - prec) with 971.
  destruct m as [|p|p]; try lia.
  now destruct (ec <=? 971).
Qed.

(** [binary_round_aux] on an exact mantissa is [RN], whatever the scale
    the value is written at. *)
Lemma bra_exact s M E F :
  0 < M -> F <= E -> F <= -1074 -> E <= fexp64 (Zdigits2 M + E) ->
  binary_round_aux prec emax s M E loc_Exact = to_sf s (RN F (M * 2 ^ (E - F))).
Proof.
  intros HM HFE HF Hcan. rewrite bra_code by lia. cbn zeta.
  change (fexp prec emax) with fexp64. cbn [loc_code]. rewrite Z.add_0_r.
  set (ec := fexp64 (Zdigits2 M + E)) in *.
  replace (E + Z.max 0 (ec - E)) with ec by lia.
  unfold RN. rewrite Zdigits2_scaled by lia.
  replace (Zdigits2 M + (E - F) + F) with (Zdigits2 M + E) by lia. fold ec.
  replace (4 * (M * 2 ^ (E - F))) with (4 * M * 2 ^ (E - F)) by lia.
  replace (ec - F) with (ec - E + (E - F)) by lia.
  rewrite shift_scaled by lia.
  set (m := rne (shift (ec - E) (4 * M))).
  assert (Hm : 0 <= m <= 9007199254740992).
  { pose proof (RN_mantissa F (M * 2 ^ (E - F))) as H.
    assert (0 < 2 ^ (E - F)) by (apply Z.pow_pos_nonneg; lia).
    cbn zeta in H. rewrite Zdigits2_scaled in H by lia.
    replace (Zdigits2 M + (E - F) + F) with (Zdigits2 M + E) in H by lia. fold ec in H.
    replace (4 * (M * 2 ^ (E - F))) with (4 * M * 2 ^ (E - F)) in H by lia.
    replace (ec - F) with (ec - E + (E - F)) in H by lia.
    rewrite shift_scaled in H by lia. apply H; nia. }
  apply finish_norm; [exact Hm|unfold ec, fexp64; lia].
Qed.

Lemma norm_le m1 e1 m2 e2 :
  0 <= m1 <= 9007199254740992 -> 0 <= m2 <= 9007199254740992 ->
  (e1 = e2 /\ m1 <= m2) \/ (e1 < e2 /\ 4503599627370496 <= m2) ->
  res_le (norm m1 e1) (norm m2 e2).
Proof.
  intros H1 H2 H. unfold norm, mk.
  destruct (Z.eqb_spec m1 0); [exact I|].
  destruct (Z.eqb_spec m2 0); [lia|].
  destruct (Z.eqb_spec m1 9007199254740992), (Z.eqb_spec m2 9007199254740992),
    (Z.leb_spec (e1 + 1) 971), (Z.leb_spec (e2 + 1) 971),
    (Z.leb_spec e1 971), (Z.leb_spec e2 971); cbn [res_le]; lia || exact I.
Qed.

Lemma norm_pos m e : 0 <= m -> res_pos (norm m e).
Proof.
  intros H. unfold norm, mk.
  destruct (Z.eqb_spec m 0); [exact I|].
  destruct (Z.eqb_spec m 9007199254740992).
  - destruct (e + 1 <=? 971); cbn; lia || exact I.
  - destruct (e <=? 971); cbn; lia || exact I.
Qed.

Lemma RN_pos F V : 0 < V -> F <= -1074 -> res_pos (RN F V).
Proof.
  intros HV HF. apply norm_pos. now apply (RN_mantissa F V HV HF).
Qed.

Lemma fexp64_mono a b : a <= b -> fexp64 a <= fexp64 b.
Proof. unfold fexp64. lia. Qed.

(** Rounding to nearest is monotone. *)
Lemma RN_mono F V1 V2 :
  0 < V1 -> V1 <= V2 -> F <= -1074 -> res_le (RN F V1) (RN F V2).
Proof.
  intros H1 H12 HF.
  pose proof (RN_mantissa F V1 H1 HF) as (Hm1 & _ & _).
  pose proof (RN_mantissa F V2 ltac:(lia) HF) as (Hm2 & Hn2 & _).
  cbn zeta in *. unfold RN.
  pose proof (Zdigits2_mono V1 V2 H1 H12) as Hd.
  assert (Hec : fexp64 (Zdigits2 V1 + F) <= fexp64 (Zdigits2 V2 + F))
    by (apply fexp64_mono; lia).
  apply norm_le; try assumption.
  destruct (Z.eq_dec (fexp64 (Zdigits2 V1 + F)) (fexp64 (Zdigits2 V2 + F))) as [E|E].
  - left. split; [exact E|]. rewrite E. apply rne_mono, shift_mono. lia.
  - right. split; [lia|]. apply Hn2. unfold fexp64 in *. lia.
Qed.

Lemma res_le_SFleb r1 r2 :
  res_pos r1 -> res_pos r2 -> res_le r1 r2 ->
  SFleb (to_sf false r1) (to_sf false r2) = true.
Proof.
  destruct r1 as [|m1 e1|], r2 as [|m2 e2|]; cbn [res_pos res_le to_sf];
    intros H1 H2 H; try reflexivity; try contradiction.
  unfold SFleb, SFcompare.
  destruct H as [H|[-> H]].
  - now rewrite (proj2 (Z.compare_lt_iff e1 e2) H).
  - rewrite Z.compare_refl.
    change (Pos.compare_cont Eq (Z.to_pos m1) (Z.to_pos m2))
      with (Z.to_pos m1 ?= Z.to_pos m2)%positive.
    destruct (Pos.compare_spec (Z.to_pos m1) (Z.to_pos m2)); try reflexivity. lia.
Qed.

Lemma zero_le_to_sf s r : SFleb (S754_zero s) (to_sf false r) = true.
Proof. now destruct r. Qed.

(** Valid finite numbers *)

Lemma valid_finite s m e :
  valid_binary (S754_finite s m e) = true ->
  fexp64 (Zdigits2 (Z.pos m) + e) = e /\ -1074 <= e <= 971
  /\ Zdigits2 (Z.pos m) <= 53.
Proof.
  cbn [SpecFloat.valid_binary]. unfold bounded, canonical_mantissa.
  change (fexp prec emax) with fexp64. change (emax - prec) with 971.
  change (Z.pos (digits2_pos m)) with (Zdigits2 (Z.pos m)).
  intros H. apply andb_prop in H as [H1 H2].
  apply Z.eqb_eq in H1. apply Z.leb_le in H2.
  unfold fexp64 in *. lia.
Qed.

(** A binary64 number rounds to itself. *)
Lemma RN_id F m e :
  F <= -1074 ->
  fexp64 (Zdigits2 (Z.pos m) + e) = e -> -1074 <= e <= 971 ->
  RN F (Z.pos m * 2 ^ (e - F)) = RFin (Z.pos m) e.
Proof.
  intros HF Hcan He. unfold RN.
  rewrite Zdigits2_scaled by lia.
  replace (Zdigits2 (Z.pos m) + (e - F) + F) with (Zdigits2 (Z.pos m) + e) by lia.
  rewrite Hcan.
  replace (4 * (Z.pos m * 2 ^ (e - F))) with (4 * Z.pos m * 2 ^ (e - F)) by lia.
  rewrite shift_exact, rne_exact by lia.
  assert (Hd : Zdigits2 (Z.pos m) <= 53) by (unfold fexp64 in Hcan; lia).
  apply Zdigits2_le in Hd; [|lia]. rewrite pow2_53 in Hd.
  unfold norm, mk.
  destruct (Z.eqb_spec (Z.pos m) 0); [lia|].
  destruct (Z.eqb_spec (Z.pos m) 9007199254740992); [lia|].
  destruct (Z.leb_spec e 971); [reflexivity|lia].
Qed.

(** The value of a finite number, in units of [2 ^ -1074] *)

Lemma val_lex m1 e1 m2 e2 :
  valid_binary (S754_finite false m1 e1) = true ->
  valid_binary (S754_finite false m2 e2) = true ->
  e1 < e2 ->
  Z.pos m1 * 2 ^ (e1 + 1074) < Z.pos m2 * 2 ^ (e2 + 1074).
Proof.
  intros V1 V2 He.
  apply valid_finite in V1 as (C1 & B1 & D1), V2 as (C2 & B2 & D2).
  apply Zdigits2_le in D1; [|lia].
  assert (D2' : 53 <= Zdigits2 (Z.pos m2)) by (unfold fexp64 in C2; lia).
  apply Zdigits2_ge in D2'; [|lia].
  change (53 - 1) with 52 in D2'.
  assert (P1 : 0 < 2 ^ (e1 + 1074)) by (apply Z.pow_pos_nonneg; lia).
  assert (P2 : 2 ^ (e1 + 1 + 1074) <= 2 ^ (e2 + 1074)) by (apply Z.pow_le_mono_r; lia).
  replace (e1 + 1 + 1074) with (1 + (e1 + 1074)) in P2 by lia.
  rewrite Z.pow_add_r in P2 by lia. change (2 ^ 1) with 2 in P2.
  rewrite pow2_53 in D1. rewrite pow2_52 in D2'. nia.
Qed.

(** The order of binary64 numbers is the order of their values. *)
Lemma SFleb_val x y :
  valid_binary x = true -> valid_binary y = true ->
  fz x = true -> fz y = true ->
  SFleb x y = true -> val x <= val y.
Proof.
  intros Vx Vy Fx Fy.
  destruct x as [sx| |  |sx mx ex], y as [sy| | |sy my ey]; try discriminate;
    unfold SFleb, SFcompare; cbn [val].
  - pose proof (valid_finite _ _ _ Vy) as (_ & By & _).
    assert (0 < 2 ^ (ey + 1074)) by (apply Z.pow_pos_nonneg; lia).
    destruct sy; [discriminate|]. intros _. cbn [cond_Zopp]. nia.
  - pose proof (valid_finite _ _ _ Vx) as (_ & Bx & _).
    assert (0 < 2 ^ (ex + 1074)) by (apply Z.pow_pos_nonneg; lia).
    destruct sx; [|discriminate]. intros _. cbn [cond_Zopp]. nia.
  - pose proof (valid_finite _ _ _ Vx) as (_ & Bx & _).
    pose proof (valid_finite _ _ _ Vy) as (_ & By & _).
    assert (0 < 2 ^ (ex + 1074)) by (apply Z.pow_pos_nonneg; lia).
    assert (0 < 2 ^ (ey + 1074)) by (apply Z.pow_pos_nonneg; lia).
    destruct sx, sy; cbn [cond_Zopp]; try discriminate; try (intros _; nia).
    + destruct (Z.compare_spec ex ey) as [->|Hlt|Hgt]; try discriminate.
      * change (Pos.compare_cont Eq mx my) with (mx ?= my)%positive.
        destruct (Pos.compare_spec mx my); cbn [CompOpp]; try discriminate;
          intros _; nia.
      * intros _. pose proof (val_lex my ey mx ex Vy Vx Hgt). lia.
    + destruct (Z.compare_spec ex ey) as [->|Hlt|Hgt]; try discriminate.
      * change (Pos.compare_cont Eq mx my) with (mx ?= my)%positive.
        destruct (Pos.compare_spec mx my); try discriminate; intros _; nia.
      * intros _. pose proof (val_lex mx ex my ey Vx Vy Hlt). lia.
Qed.

(** Alignment *)

Lemma iter_xO m d : Z.pos (Pos.iter xO m d) = Z.pos m * 2 ^ Z.pos d.
Proof.
  induction d as [|d IH] using Pos.peano_ind.
  - cbn [Pos.iter]. rewrite Pos2Z.inj_xO. change (2 ^ 1) with 2. lia.
  - rewrite Pos.iter_succ, Pos2Z.inj_xO, IH, Pos2Z.inj_succ, Z.pow_succ_r by lia. lia.
Qed.

Lemma shl_align_spec mx ex ez :
  snd (shl_align mx ex ez) = Z.min ex ez
  /\ Z.pos (fst (shl_align mx ex ez)) = Z.pos mx * 2 ^ (ex - Z.min ex ez).
Proof.
  unfold shl_align. destruct (ez - ex) as [|d|d] eqn:E; cbn [fst snd].
  - replace (Z.min ex ez) with ex by lia. rewrite Z.sub_diag. cbn. lia.
  - replace (Z.min ex ez) with ex by lia. rewrite Z.sub_diag. cbn. lia.
  - replace (Z.min ex ez) with ez by lia. rewrite iter_xO.
    replace (ex - ez) with (Z.pos d) by lia. split; reflexivity.
Qed.

Lemma binary_round_RN s p e :
  -1074 <= e ->
  binary_round prec emax s p e = to_sf s (RN (-1074) (Z.pos p * 2 ^ (e + 1074))).
Proof.
  intros He. unfold binary_round.
  change (fexp prec emax) with fexp64.
  change (Z.pos (digits2_pos p)) with (Zdigits2 (Z.pos p)).
  set (fe := fexp64 (Zdigits2 (Z.pos p) + e)).
  pose proof (shl_align_spec p e fe) as [Hs Hf].
  destruct (shl_align p e fe) as [mz ez]. cbn [fst snd] in Hs, Hf. subst ez.
  assert (Hfe : -1074 <= fe) by (unfold fe, fexp64; lia).
  assert (Hp : 0 < 2 ^ (e - Z.min e fe)) by (apply Z.pow_pos_nonneg; lia).
  rewrite (bra_exact s (Z.pos mz) (Z.min e fe) (-1074)); try lia.
  - f_equal. f_equal. rewrite Hf, <- Z.mul_assoc, <- Z.pow_add_r by lia.
    f_equal. f_equal. lia.
  - rewrite Hf, Zdigits2_scaled by lia.
    replace (Zdigits2 (Z.pos p) + (e - Z.min e fe) + Z.min e fe)
      with (Zdigits2 (Z.pos p) + e) by lia.
    fold fe. lia.
Qed.

Lemma binary_normalize_sround z e :
  -1074 <= e ->
  binary_normalize prec emax z e false = sround (z * 2 ^ (e + 1074)).
Proof.
  intros He. assert (Hp : 0 < 2 ^ (e + 1074)) by (apply Z.pow_pos_nonneg; lia).
  unfold sround. destruct z as [|p|p]; cbn [binary_normalize].
  - reflexivity.
  - rewrite binary_round_RN by assumption.
    destruct (Z.eqb_spec (Z.pos p * 2 ^ (e + 1074)) 0); [nia|].
    destruct (Z.ltb_spec 0 (Z.pos p * 2 ^ (e + 1074))); [reflexivity|nia].
  - rewrite binary_round_RN by assumption.
    destruct (Z.eqb_spec (Z.neg p * 2 ^ (e + 1074)) 0); [nia|].
    destruct (Z.ltb_spec 0 (Z.neg p * 2 ^ (e + 1074))); [nia|].
    f_equal. f_equal. lia.
Qed.

Lemma sround_val s m e :
  valid_binary (S754_finite s m e) = true ->
  sround (val (S754_finite s m e)) = S754_finite s m e.
Proof.
  intros V. pose proof (valid_finite _ _ _ V) as (C & B & D).
  assert (Hp : 0 < 2 ^ (e + 1074)) by (apply Z.pow_pos_nonneg; lia).
  pose proof (RN_id (-1074) m e ltac:(lia) C B) as H.
  replace (e - -1074) with (e + 1074) in H by lia.
  unfold sround. cbn [val].
  destruct s; cbn [cond_Zopp].
  - destruct (Z.eqb_spec (- (Z.pos m * 2 ^ (e + 1074))) 0); [nia|].
    destruct (Z.ltb_spec 0 (- (Z.pos m * 2 ^ (e + 1074)))); [nia|].
    rewrite Z.opp_involutive, H. reflexivity.
  - destruct (Z.eqb_spec (Z.pos m * 2 ^ (e + 1074)) 0); [nia|].
    destruct (Z.ltb_spec 0 (Z.pos m * 2 ^ (e + 1074))); [|nia].
    rewrite H. reflexivity.
Qed.

(** A difference is the exact difference, rounded. *)
Lemma SFsub_spec x sy my ey :
  valid_binary x = true -> valid_binary (S754_finite sy my ey) = true ->
  fz x = true ->
  SFsub prec emax x (S754_finite sy my ey) = sround (val x - val (S754_finite sy my ey)).
Proof.
  intros Vx Vy Fx.
  destruct x as [sx| | |sx mx ex]; try discriminate.
  - cbn [SFsub]. cbn [val]. rewrite Z.sub_0_l.
    rewrite <- (sround_val (negb sy) my ey) by exact Vy.
    f_equal. cbn [val]. destruct sy; cbn [negb cond_Zopp]; lia.
  - cbn [SFsub].
    pose proof (valid_finite _ _ _ Vx) as (_ & Bx & _).
    pose proof (valid_finite _ _ _ Vy) as (_ & By & _).
    pose proof (shl_align_spec mx ex (Z.min ex ey)) as [_ Hx].
    pose proof (shl_align_spec my ey (Z.min ex ey)) as [_ Hy].
    rewrite Hx, Hy, binary_normalize_sround by lia.
    f_equal. cbn [val].
    replace (Z.min ex (Z.min ex ey)) with (Z.min ex ey) by lia.
    replace (Z.min ey (Z.min ex ey)) with (Z.min ex ey) by lia.
    assert (Hez : Z.min ex ey <= ex /\ Z.min ex ey <= ey /\ -1074 <= Z.min ex ey) by lia.
    generalize dependent (Z.min ex ey). intros ez _ _ Hez.
    replace (ex + 1074) with (ex - ez + (ez + 1074)) by lia.
    replace (ey + 1074) with (ey - ez + (ez + 1074)) by lia.
    rewrite (Z.pow_add_r 2 (ex - ez) (ez + 1074)),
      (Z.pow_add_r 2 (ey - ez) (ez + 1074)) by lia.
    destruct sx, sy; cbn [cond_Zopp]; ring.
Qed.

(** A product is the exact product, rounded. *)
Lemma SFmul_spec sx mx ex sy my ey :
  valid_binary (S754_finite sx mx ex) = true ->
  valid_binary (S754_finite sy my ey) = true ->
  SFmul prec emax (S754_finite sx mx ex) (S754_finite sy my ey)
    = to_sf (xorb sx sy)
        (RN (-2148) (Z.pos mx * 2 ^ (ex + 1074) * (Z.pos my * 2 ^ (ey + 1074)))).
Proof.
  intros Vx Vy. cbn [SFmul].
  pose proof (valid_finite _ _ _ Vx) as (Cx & Bx & Dx).
  pose proof (valid_finite _ _ _ Vy) as (Cy & By & Dy).
  rewrite (bra_exact _ _ _ (-2148)); try lia.
  - f_equal. f_equal. rewrite Pos2Z.inj_mul.
    replace (ex + ey - -2148) with (ex + 1074 + (ey + 1074)) by lia.
    rewrite Z.pow_add_r by lia. lia.
  - rewrite Pos2Z.inj_mul.
    pose proof (Zdigits2_bounds (Z.pos mx) ltac:(lia)) as [Lx _].
    pose proof (Zdigits2_bounds (Z.pos my) ltac:(lia)) as [Ly _].
    pose proof (Zdigits2_pos (Z.pos mx) ltac:(lia)) as Px.
    pose proof (Zdigits2_pos (Z.pos my) ltac:(lia)) as Py.
    assert (Hd : Zdigits2 (Z.pos mx) + Zdigits2 (Z.pos my) - 1
                 <= Zdigits2 (Z.pos mx * Z.pos my)).
    { apply Zdigits2_ge; [lia|].
      replace (Zdigits2 (Z.pos mx) + Zdigits2 (Z.pos my) - 1 - 1)
        with ((Zdigits2 (Z.pos mx) - 1) + (Zdigits2 (Z.pos my) - 1)) by lia.
      rewrite Z.pow_add_r by lia.
      assert (0 < 2 ^ (Zdigits2 (Z.pos mx) - 1)) by (apply Z.pow_pos_nonneg; lia).
      assert (0 < 2 ^ (Zdigits2 (Z.pos my) - 1)) by (apply Z.pow_pos_nonneg; lia).
      nia. }
    unfold fexp64 in *. lia.
Qed.

Lemma to_sf_nonneg r : nonneg (to_sf false r) = true.
Proof. now destruct r. Qed.

Lemma sround_nonneg z : 0 <= z -> nonneg (sround z) = true.
Proof.
  intros Hz. unfold sround.
  destruct (Z.eqb_spec z 0); [reflexivity|].
  destruct (Z.ltb_spec 0 z); [apply to_sf_nonneg|lia].
Qed.

Lemma sround_mono z1 z2 :
  0 <= z1 -> z1 <= z2 -> SFleb (sround z1) (sround z2) = true.
Proof.
  intros H1 H12. unfold sround.
  destruct (Z.eqb_spec z1 0) as [->|N1].
  - destruct (Z.eqb_spec z2 0); [reflexivity|].
    destruct (Z.ltb_spec 0 z2); [apply zero_le_to_sf|lia].
  - destruct (Z.eqb_spec z2 0); [lia|].
    destruct (Z.ltb_spec 0 z1); [|lia].
    destruct (Z.ltb_spec 0 z2); [|lia].
    apply res_le_SFleb; try (apply RN_pos; lia).
    apply RN_mono; lia.
Qed.

Lemma SFsub_mono t n1 n2 :
  valid_binary t = true -> valid_binary n1 = true -> valid_binary n2 = true ->
  (exists s m e, t = S754_finite s m e) -> fz n1 = true -> fz n2 = true ->
  SFleb t n1 = true -> SFleb n1 n2 = true ->
  SFleb (SFsub prec emax n1 t) (SFsub prec emax n2 t) = true
  /\ nonneg (SFsub prec emax n1 t) = true
  /\ nonneg (SFsub prec emax n2 t) = true.
Proof.
  intros Vt V1 V2 (s & m & e & ->) F1 F2 L1 L2.
  apply SFleb_val in L1; [|assumption || reflexivity..].
  apply SFleb_val in L2; [|assumption..].
  rewrite !SFsub_spec by assumption.
  split; [apply sround_mono; lia|].
  split; apply sround_nonneg; lia.
Qed.

Lemma SFmul_mono d1 d2 k :
  valid_binary d1 = true -> valid_binary d2 = true -> valid_binary k = true ->
  fz d1 = true -> fz d2 = true -> fz k = true ->
  nonneg d1 = true -> nonneg d2 = true -> nonneg k = true ->
  SFleb d1 d2 = true ->
  SFleb (SFmul prec emax d1 k) (SFmul prec emax d2 k) = true.
Proof.
  intros V1 V2 Vk F1 F2 Fk N1 N2 Nk L.
  apply SFleb_val in L; [|assumption..].
  destruct k as [sk| | |sk mk ek]; try discriminate.
  - destruct d1 as [s1| | |s1 m1 e1], d2 as [s2| | |s2 m2 e2]; try discriminate;
      reflexivity.
  - destruct sk; [discriminate|].
    pose proof (valid_finite _ _ _ Vk) as (_ & Bk & _).
    assert (Pk : 0 < 2 ^ (ek + 1074)) by (apply Z.pow_pos_nonneg; lia).
    destruct d1 as [s1| | |s1 m1 e1]; try discriminate.
    + destruct d2 as [s2| | |s2 m2 e2]; try discriminate; [reflexivity|].
      destruct s2; [discriminate|].
      rewrite SFmul_spec by assumption. cbn [SFmul xorb].
      destruct s1; apply zero_le_to_sf.
    + destruct s1; [discriminate|].
      pose proof (valid_finite _ _ _ V1) as (_ & B1 & _).
      assert (P1 : 0 < 2 ^ (e1 + 1074)) by (apply Z.pow_pos_nonneg; lia).
      destruct d2 as [s2| | |s2 m2 e2]; try discriminate.
      * cbn [val cond_Zopp] in L. nia.
      * destruct s2; [discriminate|].
        pose proof (valid_finite _ _ _ V2) as (_ & B2 & _).
        assert (P2 : 0 < 2 ^ (e2 + 1074)) by (apply Z.pow_pos_nonneg; lia).
        rewrite !SFmul_spec by assumption. cbn [xorb].
        cbn [val cond_Zopp] in L.
        apply res_le_SFleb; try (apply RN_pos; nia).
        apply RN_mono; nia.
Qed.

(** No overflow below the largest binade *)

Lemma Zdigits2_le_pow x j : 0 <= x -> 0 <= j -> x <= 2 ^ j -> Zdigits2 x <= j + 1.
Proof.
  intros Hx Hj H. destruct (Z.eq_dec x 0) as [->|N]; [cbn; lia|].
  apply Zdigits2_le; [lia|]. rewrite Z.pow_add_r by lia. change (2 ^ 1) with 2.
  assert (0 < 2 ^ j) by (apply Z.pow_pos_nonneg; lia). lia.
Qed.

Lemma Zdigits2_nonneg x : 0 <= Zdigits2 x.
Proof. destruct x; cbn; lia. Qed.

Lemma bra_no_overflow s m e l :
  0 <= m -> e <= 970 -> Zdigits2 m + e <= 1023 ->
  fz (binary_round_aux prec emax s m e l) = true
  /\ (s = false -> nonneg (binary_round_aux prec emax s m e l) = true).
Proof.
  intros Hm He Hmag. rewrite bra_code by assumption. cbn zeta.
  change (fexp prec emax) with fexp64.
  set (n1 := fexp64 (Zdigits2 m + e) - e).
  set (n := Z.max 0 n1).
  set (m' := rne (shift n1 (4 * m + loc_code l))).
  set (n2 := fexp64 (Zdigits2 m' + (e + n)) - (e + n)).
  assert (Hl : 0 <= loc_code l <= 3) by (destruct l as [|[]]; cbn; lia).
  assert (Hm'0 : 0 <= m').
  { unfold m'. transitivity (rne 0); [reflexivity|].
    apply rne_mono, shift_nonneg. lia. }
  pose proof (Zdigits2_nonneg m) as Hd0.
  set (j := Z.max (Zdigits2 m - n) 0).
  assert (Hm' : m' <= 2 ^ j).
  { unfold m'. rewrite <- (rne_exact (2 ^ j)). apply rne_mono.
    replace (shift n1 (4 * m + loc_code l)) with (shift n (4 * m + loc_code l))
      by (unfold shift, n; f_equal; lia).
    rewrite <- (shift_exact n (4 * 2 ^ j)) by (unfold n; lia).
    apply shift_mono.
    assert (Hmb : m + 1 <= 2 ^ Zdigits2 m).
    { destruct (Z.eq_dec m 0) as [->|N]; [cbn; lia|].
      pose proof (Zdigits2_bounds m ltac:(lia)). lia. }
    assert (2 ^ Zdigits2 m <= 2 ^ (j + n)) by (apply Z.pow_le_mono_r; unfold j, n; lia).
    rewrite Z.pow_add_r in H by (unfold j, n; lia). lia. }
  pose proof (Zdigits2_le_pow m' j Hm'0 ltac:(unfold j; lia) Hm') as Hd'.
  assert (He2 : e + n + Z.max 0 n2 <= 971).
  { unfold n2, n, n1, j, fexp64 in *. lia. }
  assert (Hq : 0 <= shift n2 (4 * m') / 4).
  { apply Z.div_pos; [|lia]. apply shift_nonneg. lia. }
  unfold finish. change (emax - prec) with 971.
  destruct (shift n2 (4 * m') / 4) as [|q|q]; try lia.
  - split; [reflexivity|]. intros ->. reflexivity.
  - destruct (Z.leb_spec (e + n + Z.max 0 n2) 971); [|lia].
    split; [reflexivity|]. intros ->. reflexivity.
Qed.

(** Division by the number of milliseconds in a year *)

(** A finite income divided by the milliseconds of a year is finite. *)
Lemma SFdiv_MPY a :
  valid_binary a = true -> fz a = true -> nonneg a = true ->
  fz (SFdiv prec emax a MPY) = true /\ nonneg (SFdiv prec emax a MPY) = true.
Proof.
  intros Va Fa Na. destruct a as [sa| | |sa ma ea]; try discriminate.
  - split; reflexivity.
  - destruct sa; [discriminate|].
    pose proof (valid_finite _ _ _ Va) as (_ & Ba & Da).
    unfold MPY. cbn [SFdiv xorb]. unfold SFdiv_core_binary.
    change (fexp prec emax) with fexp64.
    change (Zdigits2 8266973184000000) with 53.
    set (d1 := Zdigits2 (Z.pos ma)) in *.
    set (e' := Z.min (fexp64 (d1 + ea - (53 + -18))) (ea - -18)).
    set (sh := ea - -18 - e').
    assert (Hsh : 0 <= sh) by (unfold sh, e'; lia).
    assert (Hm' : match sh with
                  | Z.pos _ => Z.shiftl (Z.pos ma) sh
                  | 0 => Z.pos ma
                  | Z.neg _ => 0
                  end = Z.pos ma * 2 ^ sh).
    { destruct sh as [|p|p]; [cbn; lia| |lia]. now rewrite Z.shiftl_mul_pow2. }
    rewrite Hm'.
    pose proof (Z_div_mod (Z.pos ma * 2 ^ sh) 8266973184000000 ltac:(lia)) as Hdiv.
    destruct (Z.div_eucl (Z.pos ma * 2 ^ sh) 8266973184000000) as [q r].
    destruct Hdiv as [Hq Hr].
    assert (Psh : 0 < 2 ^ sh) by (apply Z.pow_pos_nonneg; lia).
    assert (Hq0 : 0 <= q) by nia.
    pose proof (Zdigits2_pos (Z.pos ma) ltac:(lia)) as Hd1. fold d1 in Hd1.
    assert (Hdq : Zdigits2 q <= Z.max 0 (d1 + sh - 52)).
    { destruct (Z.eq_dec q 0) as [->|N]; [cbn; lia|].
      assert (Hlt : q * 2 ^ 52 < 2 ^ (d1 + sh)).
      { pose proof (Zdigits2_bounds (Z.pos ma) ltac:(lia)) as [_ Hhi]. fold d1 in Hhi.
        rewrite Z.pow_add_r by lia. rewrite pow2_52. nia. }
      assert (d1 + sh - 52 > 0).
      { destruct (Z.le_gt_cases (d1 + sh) 52) as [Hle|Hgt]; [|lia].
        assert (2 ^ (d1 + sh) <= 2 ^ 52) by (apply Z.pow_le_mono_r; lia). nia. }
      apply Zdigits2_le; [lia|].
      replace (Z.max 0 (d1 + sh - 52)) with (d1 + sh - 52) by lia.
      replace (d1 + sh) with (d1 + sh - 52 + 52) in Hlt by lia.
      rewrite Z.pow_add_r in Hlt by lia.
      assert (0 < 2 ^ 52) by reflexivity. nia. }
    destruct (bra_no_overflow false q e' (new_location 8266973184000000 r))
      as [H1 H2].
    + exact Hq0.
    + unfold e', fexp64. lia.
    + unfold sh, e', fexp64 in *. lia.
    + split; [exact H1|now apply H2].
Qed.


(** *** From [float] to [spec_float] *)

Lemma Prim2SF_MPY : Prim2SF 31536000000 = MPY.
Proof. reflexivity. Qed.

Lemma is_finite_fz (x : float) : is_finite x = true -> fz (Prim2SF x) = true.
Proof.
  unfold is_finite, is_nan, is_infinity.
  rewrite !FloatAxioms.eqb_spec, FloatAxioms.abs_spec.
  change (Prim2SF infinity) with (S754_infinity false).
  destruct (Prim2SF x) as [s|[]| |s m e]; cbn; intros H;
    reflexivity || discriminate H.
Qed.

Lemma truthy_nonzero (x : float) :
  JS.ToBoolean_number x = true ->
  match Prim2SF x with
  | S754_zero _ | S754_nan => False
  | _ => True
  end.
Proof.
  unfold JS.ToBoolean_number, is_zero, is_nan.
  rewrite !FloatAxioms.eqb_spec. change (Prim2SF PrimFloat.zero) with (S754_zero false).
  destruct (Prim2SF x) as [s|s| |s m e]; cbn; intros H;
    exact I || discriminate H.
Qed.

Lemma leb_zero_nonneg (x : float) :
  (0 <=? x)%float = true -> nonneg (Prim2SF x) = true.
Proof.
  rewrite FloatAxioms.leb_spec. change (Prim2SF 0) with (S754_zero false).
  destruct (Prim2SF x) as [s|[]| |[] m e]; cbn; intros H;
    reflexivity || discriminate H.
Qed.

Lemma SF_earned_monotone (A T N1 N2 : spec_float) :
  valid_binary A = true -> valid_binary T = true ->
  valid_binary N1 = true -> valid_binary N2 = true ->
  valid_binary (SFsub prec emax N1 T) = true ->
  valid_binary (SFsub prec emax N2 T) = true ->
  valid_binary (SFdiv prec emax A MPY) = true ->
  fz A = true -> nonneg A = true ->
  match T with S754_zero _ | S754_nan => False | _ => True end ->
  SFleb T N1 = true -> SFleb N1 N2 = true ->
  fz (SFsub prec emax N2 T) = true ->
  SFleb (SFmul prec emax (SFsub prec emax N1 T) (SFdiv prec emax A MPY))
        (SFmul prec emax (SFsub prec emax N2 T) (SFdiv prec emax A MPY)) = true.
Proof.
  intros VA VT V1 V2 VD1 VD2 VK FA NA HT L1 L2 FD2.
  assert (FT : exists s m e, T = S754_finite s m e).
  { destruct T as [s|s| |s m e]; try contradiction; [exfalso|now eauto].
    destruct N2 as [s2|[]| |s2 m2 e2], s; discriminate FD2. }
  destruct FT as (st & mt & et & ->).
  assert (F2 : fz N2 = true).
  { destruct N2 as [s2|s2| |s2 m2 e2]; try reflexivity; discriminate FD2. }
  assert (F1 : fz N1 = true).
  { destruct N1 as [s1|[]| |s1 m1 e1]; try reflexivity; try discriminate L1.
    destruct N2 as [s2|s2| |s2 m2 e2]; discriminate F2 || discriminate L2. }
  destruct (SFsub_mono (S754_finite st mt et) N1 N2) as (LD & ND1 & ND2);
    try assumption; [now eauto|].
  destruct (SFdiv_MPY A VA FA NA) as [FK NK].
  assert (FD1 : fz (SFsub prec emax N1 (S754_finite st mt et)) = true).
  { destruct (SFsub prec emax N1 (S754_finite st mt et)) as [s|[]| |s m e];
      try reflexivity; try discriminate ND1.
    destruct (SFsub prec emax N2 (S754_finite st mt et)) as [s|s| |s m e];
      discriminate FD2 || discriminate LD. }
  now apply SFmul_mono.
Qed.

End Rounding.

(** C7, as stated, fails: an infinite income makes the calculator
    return NaN at [now = startTime] (0 times Infinity), and NaN is not
    below the Infinity earned later; with no income, an elapsed time
    that overflows to Infinity gives NaN as well (Infinity times 0). *)
Lemma earned_not_monotone :
  ((0 <=? infinity) = true
   /\ (1000 <=? 1000) = true /\ (1000 <=? 2000) = true
   /\ (useCurrentIncome infinity (Some 1000) 1000
         <=? useCurrentIncome infinity (Some 1000) 2000) = false)
  /\ ((0 <=? 0) = true
      /\ (-0x1.fffffffffffffp+1023 <=? -0x1.fffffffffffffp+1023) = true
      /\ (-0x1.fffffffffffffp+1023 <=? 0x1.fffffffffffffp+1023) = true
      /\ (useCurrentIncome 0 (Some (-0x1.fffffffffffffp+1023)) (-0x1.fffffffffffffp+1023)
            <=? useCurrentIncome 0 (Some (-0x1.fffffffffffffp+1023)) 0x1.fffffffffffffp+1023)
         = false).
Proof. repeat split. Qed.

(** C7, amended: for every finite annualIncome [a >= 0] and every
    startTime [t], the amount earned is non-decreasing as [now]
    increases over [now >= t], as long as the elapsed time [now - t]
    stays finite. *)
Theorem earned_monotone (a t now1 now2 : JS.number) :
  is_finite a = true -> (0 <=? a) = true ->
  (t <=? now1) = true -> (now1 <=? now2) = true ->
  is_finite (now2 - t) = true ->
  (useCurrentIncome a (Some t) now1 <=? useCurrentIncome a (Some t) now2) = true.
Proof.
  intros Fa Ha L1 L2 Fd.
  destruct (JS.ToBoolean_number t) eqn:Ht.
  - rewrite !useCurrentIncome_truthy by assumption.
    rewrite FloatAxioms.leb_spec, !FloatAxioms.mul_spec, !FloatAxioms.sub_spec,
      FloatAxioms.div_spec, Prim2SF_MPY.
    apply SF_earned_monotone; try apply FloatAxioms.Prim2SF_valid.
    + rewrite <- FloatAxioms.sub_spec. apply FloatAxioms.Prim2SF_valid.
    + rewrite <- FloatAxioms.sub_spec. apply FloatAxioms.Prim2SF_valid.
    + rewrite <- Prim2SF_MPY, <- FloatAxioms.div_spec. apply FloatAxioms.Prim2SF_valid.
    + now apply is_finite_fz.
    + now apply leb_zero_nonneg.
    + now apply truthy_nonzero.
    + now rewrite <- FloatAxioms.leb_spec.
    + now rewrite <- FloatAxioms.leb_spec.
    + rewrite <- FloatAxioms.sub_spec. now apply is_finite_fz.
  - rewrite !useCurrentIncome_falsy by assumption. reflexivity.
Qed.

Lemma earned_monotone_witness :
  (useCurrentIncome 365000 (Some 1000) 2000
     <=? useCurrentIncome 365000 (Some 1000) 86401000) = true.
Proof.
  apply (earned_monotone 365000 1000 2000 86401000); reflexivity.
Defined.

(** * Further properties *)

Ltac divmod := Z.to_euclidean_division_equations; lia.

(** ** The accrual calculator on both sides of the start time

    The difference and the product are monotone whatever the signs of
    their operands, and the quotient by [MPY] is monotone. *)

Section Signs.

Import Binary64 Binary64Signed Binary64Div.
Local Open Scope Z_scope.

Lemma res_le_SFleb_neg r1 r2 :
  res_pos r1 -> res_pos r2 -> res_le r1 r2 ->
  SFleb (to_sf true r2) (to_sf true r1) = true.
Proof.
  destruct r1 as [|m1 e1|], r2 as [|m2 e2|]; cbn [res_pos res_le to_sf];
    intros H1 H2 H; try reflexivity; try contradiction.
  unfold SFleb, SFcompare.
  destruct H as [H|[-> H]].
  - now rewrite (proj2 (Z.compare_gt_iff e2 e1) H).
  - rewrite Z.compare_refl.
    change (Pos.compare_cont Eq (Z.to_pos m2) (Z.to_pos m1))
      with (Z.to_pos m2 ?= Z.to_pos m1)%positive.
    destruct (Pos.compare_spec (Z.to_pos m2) (Z.to_pos m1)); try reflexivity. lia.
Qed.

Lemma neg_le_nonneg r x : nonneg x = true -> SFleb (to_sf true r) x = true.
Proof.
  destruct r as [|mr er|], x as [s|[]| |[] m e]; try discriminate; reflexivity.
Qed.

Lemma sround_at_mono F s1 s2 z1 z2 :
  F <= -1074 -> z1 <= z2 ->
  SFleb (sround_at F s1 z1) (sround_at F s2 z2) = true.
Proof.
  intros HF H. unfold sround_at.
  destruct (Z.eqb_spec z1 0) as [->|N1], (Z.eqb_spec z2 0) as [->|N2].
  - reflexivity.
  - destruct (Z.ltb_spec 0 z2); [apply zero_le_to_sf|lia].
  - destruct (Z.ltb_spec 0 z1); [lia|]. now apply neg_le_nonneg.
  - destruct (Z.ltb_spec 0 z1), (Z.ltb_spec 0 z2); try lia.
    + apply res_le_SFleb; try (apply RN_pos; lia). apply RN_mono; lia.
    + apply neg_le_nonneg, to_sf_nonneg.
    + apply res_le_SFleb_neg; try (apply RN_pos; lia). apply RN_mono; lia.
Qed.

Lemma sround_sround_at z : sround z = sround_at (-1074) false z.
Proof. reflexivity. Qed.

Lemma sround_at_sign F sz z :
  (0 <= z -> nonneg (sround_at F sz z) = true)
  /\ (z <= 0 -> SFleb (sround_at F sz z) (S754_zero false) = true).
Proof.
  unfold sround_at. split; intros H.
  - destruct (Z.eqb_spec z 0); [reflexivity|].
    destruct (Z.ltb_spec 0 z); [apply to_sf_nonneg|lia].
  - destruct (Z.eqb_spec z 0); [reflexivity|].
    destruct (Z.ltb_spec 0 z); [lia|]. now apply neg_le_nonneg.
Qed.

(** The difference is monotone in its first operand, whatever the signs. *)
Lemma SFsub_mono_all t n1 n2 :
  valid_binary t = true -> valid_binary n1 = true -> valid_binary n2 = true ->
  (exists s m e, t = S754_finite s m e) -> fz n1 = true -> fz n2 = true ->
  SFleb n1 n2 = true ->
  SFleb (SFsub prec emax n1 t) (SFsub prec emax n2 t) = true.
Proof.
  intros Vt V1 V2 (s & m & e & ->) F1 F2 L.
  apply SFleb_val in L; [|assumption..].
  rewrite !SFsub_spec, !sround_sround_at by assumption.
  apply sround_at_mono; lia.
Qed.

(** A product by a positive number is the exact product, rounded. *)
Lemma SFmul_pos_spec d mk ek :
  valid_binary d = true -> valid_binary (S754_finite false mk ek) = true ->
  fz d = true ->
  exists sz,
    SFmul prec emax d (S754_finite false mk ek)
      = sround_at (-2148) sz (val d * val (S754_finite false mk ek)).
Proof.
  intros Vd Vk Fd.
  pose proof (valid_finite _ _ _ Vk) as (_ & Bk & _).
  assert (Pk : 0 < 2 ^ (ek + 1074)) by (apply Z.pow_pos_nonneg; lia).
  destruct d as [sd| | |sd md ed]; try discriminate.
  - exists (xorb sd false). cbn [SFmul val]. reflexivity.
  - pose proof (valid_finite _ _ _ Vd) as (_ & Bd & _).
    assert (Pd : 0 < 2 ^ (ed + 1074)) by (apply Z.pow_pos_nonneg; lia).
    exists false. rewrite SFmul_spec by assumption.
    unfold sround_at. cbn [val cond_Zopp].
    destruct sd; cbn [xorb cond_Zopp].
    + destruct (Z.eqb_spec (- (Z.pos md * 2 ^ (ed + 1074)) * (Z.pos mk * 2 ^ (ek + 1074))) 0);
        [nia|].
      destruct (Z.ltb_spec 0 (- (Z.pos md * 2 ^ (ed + 1074)) * (Z.pos mk * 2 ^ (ek + 1074))));
        [nia|].
      f_equal. f_equal. ring.
    + destruct (Z.eqb_spec (Z.pos md * 2 ^ (ed + 1074) * (Z.pos mk * 2 ^ (ek + 1074))) 0);
        [nia|].
      destruct (Z.ltb_spec 0 (Z.pos md * 2 ^ (ed + 1074) * (Z.pos mk * 2 ^ (ek + 1074))));
        [reflexivity|nia].
Qed.

Lemma SFmul_zero_r d s :
  fz d = true -> exists sz, SFmul prec emax d (S754_zero s) = S754_zero sz.
Proof. destruct d as [sd|sd| |sd md ed]; try discriminate; intros _; now eexists. Qed.

(** The product by a non-negative number is monotone, whatever the sign
    of the other factor. *)
Lemma SFmul_mono_all d1 d2 k :
  valid_binary d1 = true -> valid_binary d2 = true -> valid_binary k = true ->
  fz d1 = true -> fz d2 = true -> fz k = true -> nonneg k = true ->
  SFleb d1 d2 = true ->
  SFleb (SFmul prec emax d1 k) (SFmul prec emax d2 k) = true.
Proof.
  intros V1 V2 Vk F1 F2 Fk Nk L.
  apply SFleb_val in L; [|assumption..].
  destruct k as [sk| | |sk mk ek]; try discriminate.
  - destruct (SFmul_zero_r d1 sk F1) as [s1 ->].
    destruct (SFmul_zero_r d2 sk F2) as [s2 ->]. reflexivity.
  - destruct sk; [discriminate|].
    destruct (SFmul_pos_spec d1 mk ek V1 Vk F1) as [s1 ->].
    destruct (SFmul_pos_spec d2 mk ek V2 Vk F2) as [s2 ->].
    apply sround_at_mono; [lia|].
    pose proof (valid_finite _ _ _ Vk) as (_ & Bk & _).
    assert (Pk : 0 < 2 ^ (ek + 1074)) by (apply Z.pow_pos_nonneg; lia).
    apply Z.mul_le_mono_nonneg_r; [cbn [val cond_Zopp]; nia|exact L].
Qed.

(** The sign of a product by a non-negative number. *)
Lemma SFmul_sign d k :
  valid_binary d = true -> valid_binary k = true ->
  fz d = true -> fz k = true -> nonneg k = true ->
  (nonneg d = true -> nonneg (SFmul prec emax d k) = true)
  /\ (SFleb d (S754_zero false) = true ->
      SFleb (SFmul prec emax d k) (S754_zero false) = true).
Proof.
  intros Vd Vk Fd Fk Nk.
  destruct k as [sk| | |sk mk ek]; try discriminate.
  - destruct (SFmul_zero_r d sk Fd) as [s ->]. split; reflexivity.
  - destruct sk; [discriminate|].
    destruct (SFmul_pos_spec d mk ek Vd Vk Fd) as [s ->].
    pose proof (valid_finite _ _ _ Vk) as (_ & Bk & _).
    assert (Pk : 0 < 2 ^ (ek + 1074)) by (apply Z.pow_pos_nonneg; lia).
    split; intros H.
    + apply sround_at_sign.
      destruct d as [sd| | |[] md ed]; try discriminate; cbn [val cond_Zopp]; nia.
    + apply sround_at_sign.
      apply SFleb_val in H; [|assumption || reflexivity..].
      cbn [val cond_Zopp] in *. nia.
Qed.

(** The quotient of a finite number by the milliseconds of a year is
    finite, whatever its sign. *)
Lemma SFdiv_MPY_fz a :
  valid_binary a = true -> fz a = true -> fz (SFdiv prec emax a MPY) = true.
Proof.
  intros Va Fa. destruct a as [sa| | |sa ma ea]; try discriminate.
  - reflexivity.
  - pose proof (valid_finite _ _ _ Va) as (_ & Ba & Da).
    unfold MPY. cbn [SFdiv]. unfold SFdiv_core_binary.
    change (fexp prec emax) with fexp64.
    change (Zdigits2 8266973184000000) with 53.
    set (d1 := Zdigits2 (Z.pos ma)) in *.
    set (e' := Z.min (fexp64 (d1 + ea - (53 + -18))) (ea - -18)).
    set (sh := ea - -18 - e').
    assert (Hsh : 0 <= sh) by (unfold sh, e'; lia).
    assert (Hm' : match sh with
                  | Z.pos _ => Z.shiftl (Z.pos ma) sh
                  | 0 => Z.pos ma
                  | Z.neg _ => 0
                  end = Z.pos ma * 2 ^ sh).
    { destruct sh as [|p|p]; [cbn; lia| |lia]. now rewrite Z.shiftl_mul_pow2. }
    rewrite Hm'.
    pose proof (Z_div_mod (Z.pos ma * 2 ^ sh) 8266973184000000 ltac:(lia)) as Hdiv.
    destruct (Z.div_eucl (Z.pos ma * 2 ^ sh) 8266973184000000) as [q r].
    destruct Hdiv as [Hq Hr].
    assert (Psh : 0 < 2 ^ sh) by (apply Z.pow_pos_nonneg; lia).
    assert (Hq0 : 0 <= q) by nia.
    pose proof (Zdigits2_pos (Z.pos ma) ltac:(lia)) as Hd1. fold d1 in Hd1.
    assert (Hdq : Zdigits2 q <= Z.max 0 (d1 + sh - 52)).
    { destruct (Z.eq_dec q 0) as [->|N]; [cbn; lia|].
      assert (Hlt : q * 2 ^ 52 < 2 ^ (d1 + sh)).
      { pose proof (Zdigits2_bounds (Z.pos ma) ltac:(lia)) as [_ Hhi]. fold d1 in Hhi.
        rewrite Z.pow_add_r by lia. rewrite pow2_52. nia. }
      assert (d1 + sh - 52 > 0).
      { destruct (Z.le_gt_cases (d1 + sh) 52) as [Hle|Hgt]; [|lia].
        assert (2 ^ (d1 + sh) <= 2 ^ 52) by (apply Z.pow_le_mono_r; lia). nia. }
      apply Zdigits2_le; [lia|].
      replace (Z.max 0 (d1 + sh - 52)) with (d1 + sh - 52) by lia.
      replace (d1 + sh) with (d1 + sh - 52 + 52) in Hlt by lia.
      rewrite Z.pow_add_r in Hlt by lia.
      assert (0 < 2 ^ 52) by reflexivity. nia. }
    apply (bra_no_overflow (xorb sa false) q e' (new_location 8266973184000000 r)).
    + exact Hq0.
    + unfold e', fexp64. lia.
    + unfold sh, e', fexp64 in *. lia.
Qed.

End Signs.

Section Skew.

Import Binary64 Binary64Signed Binary64Div.
Local Open Scope Z_scope.

Lemma finite_difference N T :
  match T with S754_zero _ | S754_nan => False | _ => True end ->
  fz (SFsub prec emax N T) = true ->
  (exists s m e, T = S754_finite s m e) /\ fz N = true.
Proof.
  intros HT FD.
  destruct T as [s|s| |s m e]; try contradiction.
  - exfalso. destruct N as [s2|[]| |s2 m2 e2], s; discriminate FD.
  - split; [now eauto|].
    destruct N as [s2|s2| |s2 m2 e2]; try reflexivity; discriminate FD.
Qed.

Lemma nonneg_leb x : nonneg x = true -> SFleb (S754_zero false) x = true.
Proof. destruct x as [s|[]| |[] m e]; try discriminate; reflexivity. Qed.

Lemma SF_earned_sign (A T N : spec_float) :
  valid_binary A = true -> valid_binary T = true -> valid_binary N = true ->
  valid_binary (SFsub prec emax N T) = true ->
  valid_binary (SFdiv prec emax A MPY) = true ->
  fz A = true -> nonneg A = true ->
  match T with S754_zero _ | S754_nan => False | _ => True end ->
  fz (SFsub prec emax N T) = true ->
  (SFleb T N = true ->
   SFleb (S754_zero false)
     (SFmul prec emax (SFsub prec emax N T) (SFdiv prec emax A MPY)) = true)
  /\ (SFleb N T = true ->
      SFleb (SFmul prec emax (SFsub prec emax N T) (SFdiv prec emax A MPY))
        (S754_zero false) = true).
Proof.
  intros VA VT VN VD VK FA NA HT FD.
  destruct (finite_difference N T HT FD) as [(st & mt & et & ->) FN].
  destruct (SFdiv_MPY A VA FA NA) as [FK NK].
  destruct (SFmul_sign _ _ VD VK FD FK NK) as [Hpos Hneg].
  split; intros L.
  - apply nonneg_leb, Hpos.
    apply SFleb_val in L; [|assumption || reflexivity..].
    rewrite SFsub_spec, sround_sround_at by assumption.
    apply sround_at_sign. lia.
  - apply Hneg.
    apply SFleb_val in L; [|assumption || reflexivity..].
    rewrite SFsub_spec, sround_sround_at by assumption.
    apply sround_at_sign. lia.
Qed.

Lemma SF_earned_monotone_all (A T N1 N2 : spec_float) :
  valid_binary A = true -> valid_binary T = true ->
  valid_binary N1 = true -> valid_binary N2 = true ->
  valid_binary (SFsub prec emax N1 T) = true ->
  valid_binary (SFsub prec emax N2 T) = true ->
  valid_binary (SFdiv prec emax A MPY) = true ->
  fz A = true -> nonneg A = true ->
  match T with S754_zero _ | S754_nan => False | _ => True end ->
  SFleb N1 N2 = true ->
  fz (SFsub prec emax N1 T) = true -> fz (SFsub prec emax N2 T) = true ->
  SFleb (SFmul prec emax (SFsub prec emax N1 T) (SFdiv prec emax A MPY))
        (SFmul prec emax (SFsub prec emax N2 T) (SFdiv prec emax A MPY)) = true.
Proof.
  intros VA VT V1 V2 VD1 VD2 VK FA NA HT L FD1 FD2.
  destruct (finite_difference N1 T HT FD1) as [FT F1].
  destruct (finite_difference N2 T HT FD2) as [_ F2].
  destruct (SFdiv_MPY A VA FA NA) as [FK NK].
  apply SFmul_mono_all; try assumption.
  now apply SFsub_mono_all.
Qed.

Lemma SF_earned_at_start (A T : spec_float) :
  valid_binary A = true -> valid_binary T = true ->
  fz A = true -> fz T = true ->
  match T with S754_zero _ | S754_nan => False | _ => True end ->
  SFeqb (SFmul prec emax (SFsub prec emax T T) (SFdiv prec emax A MPY))
    (S754_zero false) = true.
Proof.
  intros VA VT FA FT HT.
  destruct T as [s|s| |s m e]; try contradiction; try discriminate.
  rewrite SFsub_spec by assumption. rewrite Z.sub_diag.
  change (sround 0) with (S754_zero false).
  pose proof (SFdiv_MPY_fz A VA FA) as FK.
  destruct (SFdiv prec emax A MPY) as [sk|sk| |sk mk ek]; try discriminate;
    reflexivity.
Qed.

End Skew.

Section Division.

Import Binary64 Binary64Signed Binary64Div.
Local Open Scope Z_scope.

Lemma SC_bounds P : 0 <= P -> 4 * (P / Q) <= SC P <= 4 * (P / Q) + 3.
Proof.
  intros HP. unfold SC.
  destruct (P mod Q =? 0); [lia|].
  destruct (2 * (P mod Q) <? Q); [lia|].
  destruct (2 * (P mod Q) =? Q); lia.
Qed.

Lemma SC_div4 P : 0 <= P -> SC P / 4 = P / Q.
Proof. intros HP. pose proof (SC_bounds P HP). divmod. Qed.

Lemma SC_mono P1 P2 : 0 <= P1 -> P1 <= P2 -> SC P1 <= SC P2.
Proof.
  intros H1 H12. unfold SC, Q.
  destruct (Z.eqb_spec (P1 mod 8266973184000000) 0),
    (Z.ltb_spec (2 * (P1 mod 8266973184000000)) 8266973184000000),
    (Z.eqb_spec (2 * (P1 mod 8266973184000000)) 8266973184000000),
    (Z.eqb_spec (P2 mod 8266973184000000) 0),
    (Z.ltb_spec (2 * (P2 mod 8266973184000000)) 8266973184000000),
    (Z.eqb_spec (2 * (P2 mod 8266973184000000)) 8266973184000000);
    divmod.
Qed.

Lemma half_SC P : 0 <= P -> half (SC (2 * P)) = SC P.
Proof.
  intros HP. unfold half.
  destruct (Z.eqb_spec (SC (2 * P) mod 4) 1) as [E|E]; revert E; unfold SC, Q;
    destruct (Z.eqb_spec (P mod 8266973184000000) 0),
      (Z.ltb_spec (2 * (P mod 8266973184000000)) 8266973184000000),
      (Z.eqb_spec (2 * (P mod 8266973184000000)) 8266973184000000),
      (Z.eqb_spec ((2 * P) mod 8266973184000000) 0),
      (Z.ltb_spec (2 * ((2 * P) mod 8266973184000000)) 8266973184000000),
      (Z.eqb_spec (2 * ((2 * P) mod 8266973184000000)) 8266973184000000);
    intros E; divmod.
Qed.
Lemma halves_SC n P : 0 <= P -> halves n (SC (P * 2 ^ Z.of_nat n)) = SC P.
Proof.
  intros HP. induction n as [|n IH].
  - cbn [Z.of_nat]. rewrite Z.pow_0_r, Z.mul_1_r. reflexivity.
  - rewrite halves_succ, Nat2Z.inj_succ, Z.pow_succ_r by lia.
    assert (0 < 2 ^ Z.of_nat n) by (apply Z.pow_pos_nonneg; lia).
    replace (P * (2 * 2 ^ Z.of_nat n)) with (2 * (P * 2 ^ Z.of_nat n)) by lia.
    rewrite half_SC by nia. exact IH.
Qed.

Lemma shift_SC k P : 0 <= k -> 0 <= P -> shift k (SC (P * 2 ^ k)) = SC P.
Proof.
  intros Hk HP. unfold shift. rewrite <- (Z2Nat.id k) at 2 by lia.
  now apply halves_SC.
Qed.

Lemma Zdigits2_mono0 x y : 0 <= x -> x <= y -> Zdigits2 x <= Zdigits2 y.
Proof.
  intros Hx Hxy. destruct (Z.eq_dec x 0) as [->|N].
  - apply Zdigits2_nonneg.
  - apply Zdigits2_mono; lia.
Qed.

Lemma RNc_mantissa F c :
  0 <= c -> F <= -1074 ->
  let ec := fexp64 (Zdigits2 (c / 4) + F) in
  let m := rne (shift (ec - F) c) in
  0 <= m <= 9007199254740992 /\ (-1074 < ec -> 4503599627370496 <= m).
Proof.
  intros Hc HF ec m.
  set (v := c / 4) in *.
  assert (Hv : 0 <= v /\ 4 * v <= c /\ c <= 4 * (v + 1)) by (unfold v; divmod).
  pose proof (Zdigits2_nonneg v) as Hd.
  assert (Hn : 0 <= ec - F) by (unfold ec, fexp64; lia).
  assert (Hvb : v + 1 <= 2 ^ Zdigits2 v).
  { destruct (Z.eq_dec v 0) as [->|N]; [cbn; lia|].
    pose proof (Zdigits2_bounds v ltac:(lia)). lia. }
  repeat split.
  - unfold m. transitivity (rne 0); [reflexivity|].
    apply rne_mono, shift_nonneg. lia.
  - unfold m. rewrite <- pow2_53, <- (rne_exact (2 ^ 53)). apply rne_mono.
    rewrite <- (shift_exact (ec - F) (4 * 2 ^ 53) Hn). apply shift_mono.
    assert (2 ^ Zdigits2 v <= 2 ^ (53 + (ec - F)))
      by (apply Z.pow_le_mono_r; unfold ec, fexp64; lia).
    rewrite Z.pow_add_r in H by lia. lia.
  - intros Hec.
    assert (Hec' : ec = Zdigits2 v + F - 53) by (unfold ec, fexp64 in *; lia).
    assert (Hv1 : 0 < v).
    { destruct (Z.eq_dec v 0) as [E|E]; [|lia]. rewrite E in Hec'. cbn in Hec'.
      unfold ec, fexp64 in *. lia. }
    pose proof (Zdigits2_bounds v Hv1) as [Hlo _].
    unfold m. rewrite <- pow2_52, <- (rne_exact (2 ^ 52)). apply rne_mono.
    rewrite <- (shift_exact (ec - F) (4 * 2 ^ 52) Hn). apply shift_mono.
    replace (Zdigits2 v - 1) with (52 + (ec - F)) in Hlo by lia.
    rewrite Z.pow_add_r in Hlo by lia. lia.
Qed.

Lemma RNc_pos F c : 0 <= c -> F <= -1074 -> res_pos (RNc F c).
Proof. intros Hc HF. apply norm_pos. now apply (RNc_mantissa F c Hc HF). Qed.

Lemma RNc_mono F c1 c2 :
  0 <= c1 -> c1 <= c2 -> F <= -1074 -> res_le (RNc F c1) (RNc F c2).
Proof.
  intros H1 H12 HF.
  pose proof (RNc_mantissa F c1 H1 HF) as (Hm1 & _).
  pose proof (RNc_mantissa F c2 ltac:(lia) HF) as (Hm2 & Hn2).
  cbn zeta in *. unfold RNc.
  assert (Hd : Zdigits2 (c1 / 4) <= Zdigits2 (c2 / 4))
    by (apply Zdigits2_mono0; divmod).
  assert (Hec : fexp64 (Zdigits2 (c1 / 4) + F) <= fexp64 (Zdigits2 (c2 / 4) + F))
    by (apply fexp64_mono; lia).
  apply norm_le; try assumption.
  destruct (Z.eq_dec (fexp64 (Zdigits2 (c1 / 4) + F)) (fexp64 (Zdigits2 (c2 / 4) + F)))
    as [E|E].
  - left. split; [exact E|]. rewrite E. apply rne_mono, shift_mono. lia.
  - right. split; [lia|]. apply Hn2. unfold fexp64 in *. lia.
Qed.

Lemma loc_code_new_location r :
  0 <= r < Q ->
  loc_code (new_location Q r)
  = (if r =? 0 then 0
     else if 2 * r <? Q then 1
     else if 2 * r =? Q then 2
     else 3).
Proof.
  intros Hr. unfold new_location. change (Z.even Q) with true. cbn iota.
  unfold new_location_even.
  destruct (Z.eqb_spec r 0); [reflexivity|].
  change (Z.pos 2 * r) with (2 * r).
  destruct (Z.compare_spec (2 * r) Q) as [E|L|G]; cbn [loc_code].
  - destruct (Z.ltb_spec (2 * r) Q); [lia|].
    destruct (Z.eqb_spec (2 * r) Q); [reflexivity|lia].
  - destruct (Z.ltb_spec (2 * r) Q); [reflexivity|lia].
  - destruct (Z.ltb_spec (2 * r) Q); [lia|].
    destruct (Z.eqb_spec (2 * r) Q); [lia|reflexivity].
Qed.

(** The quotient by [MPY] is the exact quotient, rounded. *)
Lemma SFdiv_MPY_spec sa ma ea :
  valid_binary (S754_finite sa ma ea) = true ->
  SFdiv prec emax (S754_finite sa ma ea) MPY
  = to_sf sa (RNc (-1092) (SC (Z.pos ma * 2 ^ (ea + 1074) * 2 ^ 36))).
Proof.
  intros Va. pose proof (valid_finite _ _ _ Va) as (_ & Ba & Da).
  unfold MPY. cbn [SFdiv]. unfold SFdiv_core_binary.
  change (fexp prec emax) with fexp64.
  change (Zdigits2 8266973184000000) with 53.
  change 8266973184000000 with Q.
  rewrite xorb_false_r.
  set (d1 := Zdigits2 (Z.pos ma)) in *.
  set (e' := Z.min (fexp64 (d1 + ea - (53 + -18))) (ea - -18)).
  set (sh := ea - -18 - e').
  assert (Hsh : 0 <= sh) by (unfold sh, e'; lia).
  assert (He' : -1074 <= e') by (unfold e', fexp64; lia).
  assert (Hm' : match sh with
                | Z.pos _ => Z.shiftl (Z.pos ma) sh
                | 0 => Z.pos ma
                | Z.neg _ => 0
                end = Z.pos ma * 2 ^ sh).
  { destruct sh as [|p|p]; [cbn; lia| |lia]. now rewrite Z.shiftl_mul_pow2. }
  rewrite Hm'. set (N := Z.pos ma * 2 ^ sh).
  assert (Psh : 0 < 2 ^ sh) by (apply Z.pow_pos_nonneg; lia).
  assert (HN : 0 < N) by (unfold N; nia).
  pose proof (Z_div_mod N Q ltac:(reflexivity)) as Hdiv.
  assert (Hqr : Z.div_eucl N Q = (N / Q, N mod Q)).
  { unfold Z.div, Z.modulo. now destruct (Z.div_eucl N Q). }
  rewrite Hqr in *. destruct Hdiv as [Hq Hr].
  set (q := N / Q) in *. set (r := N mod Q) in *.
  assert (Hq0 : 0 <= q) by (unfold Q in *; nia).
  pose proof (Zdigits2_bounds (Z.pos ma) ltac:(lia)) as [Hlo Hhi]. fold d1 in Hlo, Hhi.
  pose proof (Zdigits2_pos (Z.pos ma) ltac:(lia)) as Hd1. fold d1 in Hd1.
  (* the digits of the numerator *)
  assert (HNlo : 2 ^ (d1 + sh - 1) <= N).
  { replace (d1 + sh - 1) with (d1 - 1 + sh) by lia.
    rewrite Z.pow_add_r by lia. unfold N. nia. }
  assert (HNhi : N < 2 ^ (d1 + sh)).
  { rewrite Z.pow_add_r by lia. unfold N. nia. }
  (* the first alignment never shifts left *)
  assert (Hcan : e' <= fexp64 (Zdigits2 q + e')).
  { destruct (Z.eq_dec q 0) as [E|E].
    - rewrite E. cbn [Zdigits2].
      assert (N < 2 ^ 53) by (rewrite pow2_53; unfold Q in *; lia).
      assert (d1 + sh - 1 < 53).
      { destruct (Z.lt_ge_cases (d1 + sh - 1) 53) as [L|G]; [exact L|].
        assert (2 ^ 53 <= 2 ^ (d1 + sh - 1)) by (apply Z.pow_le_mono_r; lia). lia. }
      unfold sh, e', fexp64 in *. lia.
    - assert (Hdq : d1 + sh - 53 <= Zdigits2 q).
      { destruct (Z.le_gt_cases (d1 + sh - 53) 1) as [L|G].
        - pose proof (Zdigits2_pos q ltac:(lia)). lia.
        - apply Zdigits2_ge; [lia|].
          assert (Hp : 2 ^ (d1 + sh - 1) = 2 ^ (d1 + sh - 53 - 1) * 2 ^ 53).
          { rewrite <- Z.pow_add_r by lia. f_equal. lia. }
          rewrite pow2_53 in Hp.
          assert (0 < 2 ^ (d1 + sh - 53 - 1)) by (apply Z.pow_pos_nonneg; lia).
          unfold Q in *. nia. }
      unfold sh, e', fexp64 in *. lia. }
  rewrite bra_code by exact Hq0. cbn zeta.
  change (fexp prec emax) with fexp64.
  rewrite loc_code_new_location by exact Hr.
  assert (HSC : 4 * q + (if r =? 0 then 0 else if 2 * r <? Q then 1
                         else if 2 * r =? Q then 2 else 3) = SC N) by reflexivity.
  rewrite HSC.
  set (ec := fexp64 (Zdigits2 q + e')) in *.
  replace (e' + Z.max 0 (ec - e')) with ec by lia.
  (* the same value at the scale -1092 *)
  set (k := e' - -1092).
  assert (Hk : 0 <= k) by (unfold k; lia).
  assert (Pk : 0 < 2 ^ k) by (apply Z.pow_pos_nonneg; lia).
  assert (HP : Z.pos ma * 2 ^ (ea + 1074) * 2 ^ 36 = N * 2 ^ k).
  { unfold N. rewrite <- !Z.mul_assoc, <- !Z.pow_add_r by lia.
    f_equal. f_equal. unfold k, sh. lia. }
  rewrite HP. unfold RNc. rewrite SC_div4 by nia.
  assert (Hec : fexp64 (Zdigits2 (N * 2 ^ k / Q) + -1092) = ec).
  { destruct (Z.eq_dec q 0) as [E|E].
    - assert (HqF : N * 2 ^ k / Q < 2 ^ k).
      { apply Z.div_lt_upper_bound; [reflexivity|].
        assert (N < Q) by (rewrite E in Hq; lia). nia. }
      assert (0 <= N * 2 ^ k / Q) by (apply Z.div_pos; [nia|reflexivity]).
      assert (Zdigits2 (N * 2 ^ k / Q) <= k).
      { destruct (Z.eq_dec (N * 2 ^ k / Q) 0) as [->|NZ]; [cbn; lia|].
        apply Zdigits2_le; lia. }
      pose proof (Zdigits2_nonneg (N * 2 ^ k / Q)).
      unfold ec in *. rewrite E in *. cbn [Zdigits2] in *.
      unfold k, fexp64 in *. lia.
    - assert (Hq1 : 0 < q) by lia.
      pose proof (Zdigits2_bounds q Hq1) as [Hql Hqh].
      pose proof (Zdigits2_pos q Hq1) as Hqp.
      assert (HqF1 : q * 2 ^ k <= N * 2 ^ k / Q).
      { apply Z.div_le_lower_bound; [reflexivity|]. nia. }
      assert (HqF2 : N * 2 ^ k / Q < (q + 1) * 2 ^ k).
      { apply Z.div_lt_upper_bound; [reflexivity|]. nia. }
      assert (HdF : Zdigits2 (N * 2 ^ k / Q) = Zdigits2 q + k).
      { apply Z.le_antisymm.
        - apply Zdigits2_le; [nia|]. rewrite Z.pow_add_r by lia. nia.
        - apply Zdigits2_ge; [nia|].
          replace (Zdigits2 q + k - 1) with (Zdigits2 q - 1 + k) by lia.
          rewrite Z.pow_add_r by lia.
          transitivity (q * 2 ^ k); [|exact HqF1].
          apply Z.mul_le_mono_nonneg_r; lia. }
      unfold ec. rewrite HdF. apply f_equal. unfold k. lia. }
  rewrite Hec.
  replace (ec - -1092) with (ec - e' + k) by (unfold k; lia).
  rewrite shift_add, shift_SC by lia.
  set (m := rne (shift (ec - e') (SC N))).
  assert (Hm : 0 <= m <= 9007199254740992).
  { pose proof (RNc_mantissa (-1092) (SC (N * 2 ^ k))) as H.
    cbn zeta in H. rewrite SC_div4, Hec in H by nia.
    replace (ec - -1092) with (ec - e' + k) in H by (unfold k; lia).
    rewrite shift_add, shift_SC in H by lia.
    apply H; [|lia]. pose proof (SC_bounds (N * 2 ^ k) ltac:(nia)).
    assert (0 <= N * 2 ^ k / Q) by (apply Z.div_pos; [nia|reflexivity]). lia. }
  apply finish_norm; [exact Hm|unfold ec, fexp64; lia].
Qed.
(** The quotient by [MPY] is monotone on non-negative numbers. *)
Lemma SFdiv_MPY_mono a1 a2 :
  valid_binary a1 = true -> valid_binary a2 = true ->
  fz a1 = true -> fz a2 = true -> nonneg a1 = true ->
  SFleb a1 a2 = true ->
  SFleb (SFdiv prec emax a1 MPY) (SFdiv prec emax a2 MPY) = true
  /\ nonneg a2 = true.
Proof.
  intros V1 V2 F1 F2 N1 L.
  pose proof (SFleb_val a1 a2 V1 V2 F1 F2 L) as Hv.
  destruct a1 as [s1| | |[] m1 e1]; try discriminate.
  - destruct a2 as [s2| | |[] m2 e2]; try discriminate.
    + split; reflexivity.
    + split; [|reflexivity]. rewrite SFdiv_MPY_spec by assumption.
      apply zero_le_to_sf.
  - pose proof (valid_finite _ _ _ V1) as (_ & B1 & _).
    assert (P1 : 0 < Z.pos m1 * 2 ^ (e1 + 1074))
      by (apply Z.mul_pos_pos; [lia|apply Z.pow_pos_nonneg; lia]).
    cbn [val cond_Zopp] in Hv.
    destruct a2 as [s2| | |s2 m2 e2]; try discriminate.
    pose proof (valid_finite _ _ _ V2) as (_ & B2 & _).
    assert (P2 : 0 < Z.pos m2 * 2 ^ (e2 + 1074))
        by (apply Z.mul_pos_pos; [lia|apply Z.pow_pos_nonneg; lia]).
      destruct s2; cbn [val cond_Zopp] in Hv; [lia|].
      split; [|reflexivity]. rewrite !SFdiv_MPY_spec by assumption.
      assert (H36 : 0 < 2 ^ 36) by reflexivity.
      set (p1 := Z.pos m1 * 2 ^ (e1 + 1074)) in *.
      set (p2 := Z.pos m2 * 2 ^ (e2 + 1074)) in *.
      assert (Q1 : 0 <= p1 * 2 ^ 36) by (apply Z.mul_nonneg_nonneg; lia).
      assert (Q2 : 0 <= p2 * 2 ^ 36) by (apply Z.mul_nonneg_nonneg; lia).
      assert (Q12 : p1 * 2 ^ 36 <= p2 * 2 ^ 36)
        by (apply Z.mul_le_mono_nonneg_r; lia).
      assert (C1 : 0 <= SC (p1 * 2 ^ 36)).
      { pose proof (SC_bounds _ Q1).
        assert (0 <= p1 * 2 ^ 36 / Q) by (apply Z.div_pos; [lia|reflexivity]).
        lia. }
      assert (C2 : 0 <= SC (p2 * 2 ^ 36)).
      { pose proof (SC_bounds _ Q2).
        assert (0 <= p2 * 2 ^ 36 / Q) by (apply Z.div_pos; [lia|reflexivity]).
        lia. }
      apply res_le_SFleb.
      + apply RNc_pos; [exact C1|lia].
      + apply RNc_pos; [exact C2|lia].
      + apply RNc_mono; [exact C1| |lia]. now apply SC_mono.
Qed.

Lemma SFmul_comm x y : SFmul prec emax x y = SFmul prec emax y x.
Proof.
  destruct x as [sx|sx| |sx mx ex], y as [sy|sy| |sy my ey]; cbn [SFmul];
    rewrite ?(xorb_comm sx sy); try reflexivity.
  now rewrite Pos.mul_comm, Z.add_comm.
Qed.

Lemma SF_earned_monotone_income (A1 A2 T N : spec_float) :
  valid_binary A1 = true -> valid_binary A2 = true ->
  valid_binary T = true -> valid_binary N = true ->
  valid_binary (SFsub prec emax N T) = true ->
  valid_binary (SFdiv prec emax A1 MPY) = true ->
  valid_binary (SFdiv prec emax A2 MPY) = true ->
  nonneg A1 = true -> SFleb A1 A2 = true -> fz A2 = true ->
  match T with S754_zero _ | S754_nan => False | _ => True end ->
  SFleb T N = true -> fz (SFsub prec emax N T) = true ->
  SFleb (SFmul prec emax (SFsub prec emax N T) (SFdiv prec emax A1 MPY))
        (SFmul prec emax (SFsub prec emax N T) (SFdiv prec emax A2 MPY)) = true.
Proof.
  intros VA1 VA2 VT VN VD VK1 VK2 NA1 LA FA2 HT L FD.
  assert (FA1 : fz A1 = true).
  { destruct A1 as [s|[]| |s m e]; try reflexivity; try discriminate.
    destruct A2 as [s2|s2| |s2 m2 e2]; discriminate. }
  destruct (SFdiv_MPY_mono A1 A2 VA1 VA2 FA1 FA2 NA1 LA) as [LK NA2].
  destruct (SFdiv_MPY A1 VA1 FA1 NA1) as [FK1 _].
  destruct (SFdiv_MPY A2 VA2 FA2 NA2) as [FK2 _].
  destruct (finite_difference N T HT FD) as [(st & mt & et & ->) FN].
  rewrite !(SFmul_comm (SFsub prec emax N (S754_finite st mt et))).
  apply SFmul_mono_all; try assumption.
  apply SFleb_val in L; [|assumption || reflexivity..].
  rewrite SFsub_spec, sround_sround_at by assumption.
  apply sround_at_sign. lia.
Qed.

End Division.
(** X1: for a finite income and a finite start time, nothing is earned
    at the instant of the start: the calculator returns a zero. *)
Theorem earned_at_start (a t : JS.number) :
  is_finite a = true -> is_finite t = true ->
  (useCurrentIncome a (Some t) t =? 0) = true.
Proof.
  intros Fa Ft.
  destruct (JS.ToBoolean_number t) eqn:Ht.
  - rewrite useCurrentIncome_truthy by assumption.
    rewrite FloatAxioms.eqb_spec, FloatAxioms.mul_spec, FloatAxioms.sub_spec,
      FloatAxioms.div_spec, Prim2SF_MPY.
    apply SF_earned_at_start; try apply FloatAxioms.Prim2SF_valid.
    + now apply is_finite_fz.
    + now apply is_finite_fz.
    + now apply truthy_nonzero.
  - rewrite useCurrentIncome_falsy by assumption. reflexivity.
Qed.

Lemma earned_at_start_witness :
  (useCurrentIncome 365000 (Some 1771459200123) 1771459200123 =? 0) = true.
Proof. apply (earned_at_start 365000 1771459200123); reflexivity. Defined.

(** X2: for a finite income [a >= 0] and a finite elapsed time, the
    amount earned is never NaN and has the sign of the elapsed time: it
    is at least 0 from the start time on and at most 0 before it (a clock
    set back shows a negative amount). *)
Theorem earned_sign (a t now : JS.number) :
  is_finite a = true -> (0 <=? a) = true -> is_finite (now - t) = true ->
  ((t <=? now) = true -> (0 <=? useCurrentIncome a (Some t) now) = true)
  /\ ((now <=? t) = true -> (useCurrentIncome a (Some t) now <=? 0) = true).
Proof.
  intros Fa Ha Fd.
  destruct (JS.ToBoolean_number t) eqn:Ht.
  - rewrite !useCurrentIncome_truthy by assumption.
    rewrite !FloatAxioms.leb_spec, !FloatAxioms.mul_spec, !FloatAxioms.sub_spec,
      FloatAxioms.div_spec, Prim2SF_MPY.
    change (Prim2SF 0) with (S754_zero false).
    apply SF_earned_sign; try apply FloatAxioms.Prim2SF_valid.
    + rewrite <- FloatAxioms.sub_spec. apply FloatAxioms.Prim2SF_valid.
    + rewrite <- Prim2SF_MPY, <- FloatAxioms.div_spec. apply FloatAxioms.Prim2SF_valid.
    + now apply is_finite_fz.
    + now apply leb_zero_nonneg.
    + now apply truthy_nonzero.
    + rewrite <- FloatAxioms.sub_spec. now apply is_finite_fz.
  - rewrite !useCurrentIncome_falsy by assumption. split; reflexivity.
Qed.

Lemma earned_sign_witness :
  (useCurrentIncome 365000 (Some 2000) 1000 <=? 0) = true.
Proof.
  apply (proj2 (earned_sign 365000 2000 1000 eq_refl eq_refl eq_refl)).
  reflexivity.
Defined.

(** X3: for a finite income [a >= 0], the amount earned is
    non-decreasing in [now] on both sides of the start time, as long as
    the elapsed times are finite. *)
Theorem earned_monotone_skew (a t now1 now2 : JS.number) :
  is_finite a = true -> (0 <=? a) = true ->
  (now1 <=? now2) = true ->
  is_finite (now1 - t) = true -> is_finite (now2 - t) = true ->
  (useCurrentIncome a (Some t) now1 <=? useCurrentIncome a (Some t) now2) = true.
Proof.
  intros Fa Ha L Fd1 Fd2.
  destruct (JS.ToBoolean_number t) eqn:Ht.
  - rewrite !useCurrentIncome_truthy by assumption.
    rewrite FloatAxioms.leb_spec, !FloatAxioms.mul_spec, !FloatAxioms.sub_spec,
      FloatAxioms.div_spec, Prim2SF_MPY.
    apply SF_earned_monotone_all; try apply FloatAxioms.Prim2SF_valid.
    + rewrite <- FloatAxioms.sub_spec. apply FloatAxioms.Prim2SF_valid.
    + rewrite <- FloatAxioms.sub_spec. apply FloatAxioms.Prim2SF_valid.
    + rewrite <- Prim2SF_MPY, <- FloatAxioms.div_spec. apply FloatAxioms.Prim2SF_valid.
    + now apply is_finite_fz.
    + now apply leb_zero_nonneg.
    + now apply truthy_nonzero.
    + now rewrite <- FloatAxioms.leb_spec.
    + rewrite <- FloatAxioms.sub_spec. now apply is_finite_fz.
    + rewrite <- FloatAxioms.sub_spec. now apply is_finite_fz.
  - rewrite !useCurrentIncome_falsy by assumption. reflexivity.
Qed.

Lemma earned_monotone_skew_witness :
  (useCurrentIncome 365000 (Some 5000) 1000
     <=? useCurrentIncome 365000 (Some 5000) 86405000) = true.
Proof.
  apply (earned_monotone_skew 365000 5000 1000 86405000); reflexivity.
Defined.
(** X4: at any instant from the start time on, a larger annual income
    never earns less: for finite incomes [0 <= a1 <= a2] and a finite
    elapsed time [now - t >= 0] the amount earned is non-decreasing in
    the income. *)
Theorem earned_monotone_income (a1 a2 t now : JS.number) :
  (0 <=? a1) = true -> (a1 <=? a2) = true -> is_finite a2 = true ->
  (t <=? now) = true -> is_finite (now - t) = true ->
  (useCurrentIncome a1 (Some t) now <=? useCurrentIncome a2 (Some t) now) = true.
Proof.
  intros H1 H12 F2 L Fd.
  destruct (JS.ToBoolean_number t) eqn:Ht.
  - rewrite !useCurrentIncome_truthy by assumption.
    rewrite FloatAxioms.leb_spec, !FloatAxioms.mul_spec, !FloatAxioms.sub_spec,
      !FloatAxioms.div_spec, Prim2SF_MPY.
    apply SF_earned_monotone_income; try apply FloatAxioms.Prim2SF_valid.
    + rewrite <- FloatAxioms.sub_spec. apply FloatAxioms.Prim2SF_valid.
    + rewrite <- Prim2SF_MPY, <- FloatAxioms.div_spec. apply FloatAxioms.Prim2SF_valid.
    + rewrite <- Prim2SF_MPY, <- FloatAxioms.div_spec. apply FloatAxioms.Prim2SF_valid.
    + now apply leb_zero_nonneg.
    + now rewrite <- FloatAxioms.leb_spec.
    + now apply is_finite_fz.
    + now apply truthy_nonzero.
    + now rewrite <- FloatAxioms.leb_spec.
    + rewrite <- FloatAxioms.sub_spec. now apply is_finite_fz.
  - rewrite !useCurrentIncome_falsy by assumption. reflexivity.
Qed.

Lemma earned_monotone_income_witness :
  (useCurrentIncome 50000 (Some 1000) 86401000
     <=? useCurrentIncome 147000000000 (Some 1000) 86401000) = true.
Proof.
  apply (earned_monotone_income 50000 147000000000 1000 86401000); reflexivity.
Defined.
(** ** The effect settles *)

(** X5: the effect of [useIncomeTracker] settles in one run: running it
    again changes nothing, it leaves its own dependencies [income] and
    [startTime] as they are (so the render it causes does not run it
    again), and it leaves a running state as it is. *)
Theorem effect_settles (s : TimerState) :
  effect (effect s) = effect s
  /\ same_deps s (effect s) = true
  /\ (isRunning s = true -> effect s = s).
Proof.
  split; [|split].
  - unfold effect at 1. rewrite effect_income, effect_startTime.
    destruct (JS.gt (income s) 0 && JS.ToBoolean_nullable (startTime s)) eqn:E;
      [|reflexivity].
    unfold effect. rewrite E. reflexivity.
  - unfold same_deps. rewrite effect_income, effect_startTime.
    now rewrite Object_is_refl, Object_is_nullable_refl.
  - intros Hr. unfold effect. destruct (_ && _); [|reflexivity].
    rewrite <- Hr. apply eta_TimerState.
Qed.

Lemma effect_settles_witness :
  effect {| income := 50000; isRunning := true; startTime := Some 1000 |}
  = {| income := 50000; isRunning := true; startTime := Some 1000 |}.
Proof.
  apply (proj2 (proj2 (effect_settles
                         {| income := 50000; isRunning := true;
                            startTime := Some 1000 |}))).
  reflexivity.
Defined.

(** ** Initialization, continued *)

Lemma bind_Normal_inv {A B : Type} (m : JS.completion A)
    (f : A -> JS.completion B) (b : B) :
  (m ≫= f) = JS.Normal b -> exists a, m = JS.Normal a /\ f a = JS.Normal b.
Proof. destruct m as [a| | |]; [|discriminate..]. intros H. now exists a. Qed.

Lemma bind_no_throw {A B : Type} (m : JS.completion A)
    (f : A -> JS.completion B) :
  m <> JS.Throw_SyntaxError -> (forall a, f a <> JS.Throw_SyntaxError) ->
  (m ≫= f) <> JS.Throw_SyntaxError.
Proof.
  destruct m as [a| | |]; [intros _ H; apply H|congruence|discriminate..].
Qed.

Lemma assert_type_no_throw {A B : Type} (as_B : A -> option B) (v : A) :
  JS.assert_type as_B v <> JS.Throw_SyntaxError.
Proof. unfold JS.assert_type. now destruct (as_B v). Qed.

Lemma if_item_no_throw {A : Type} (item : option string)
    (f : JSON.value -> JS.completion A) (otherwise : JS.completion A) :
  ~ (absent item = false /\ malformed item) ->
  (forall v, f v <> JS.Throw_SyntaxError) -> otherwise <> JS.Throw_SyntaxError ->
  if_item item (fun text => v ← JSON.parse text; f v) otherwise
    <> JS.Throw_SyntaxError.
Proof.
  intros Hok Hf Ho.
  destruct (entry_cases item) as [H|[H|(text & v & -> & Hne & Hp)]].
  - now rewrite if_item_absent.
  - contradiction.
  - simpl. rewrite Hne, Hp. apply Hf.
Qed.

(** Once the loader has read the three entries, the first render reads
    them again: [JSON.parse] accepts them again. *)
Lemma Home_no_throw (storage : Storage) (loaderData : LoaderData) :
  (forall key, In key keys ->
     ~ (absent (getItem storage key) = false /\ malformed (getItem storage key))) ->
  Home.Home storage loaderData <> JS.Throw_SyntaxError.
Proof.
  intros Hok. unfold Home.Home.
  apply bind_no_throw; [apply assert_type_no_throw|intros i].
  apply bind_no_throw; [apply assert_type_no_throw|intros r].
  apply bind_no_throw; [|discriminate].
  unfold useIncomeTracker, useLocalStorageState.
  apply bind_no_throw; [|intros i'; apply bind_no_throw; [|intros r'; apply bind_no_throw;
                                                             [|discriminate]]].
  - apply if_item_no_throw; [apply Hok; simpl; tauto| |discriminate].
    intros v. apply assert_type_no_throw.
  - apply if_item_no_throw; [apply Hok; simpl; tauto| |discriminate].
    intros v. apply assert_type_no_throw.
  - apply if_item_no_throw; [apply Hok; simpl; tauto| |].
    + intros v. apply assert_type_no_throw.
    + destruct (storedStartTime loaderData) as [d|]; [|discriminate].
      unfold JS.Number_of_Date. now destruct (JS.getTime d).
Qed.

(** A loader that returns has found no malformed entry. *)
Lemma clientLoader_Normal (storage : Storage) (loaderData : LoaderData) :
  clientLoader storage = JS.Normal loaderData ->
  forall key, In key keys ->
    ~ (absent (getItem storage key) = false /\ malformed (getItem storage key)).
Proof.
  rewrite clientLoader_eq. intros H.
  destruct (loader_read (getItem storage "income") (JSON.JNumber 0))
    as [(Ai & Mi & Ei)|(Ni & i & Ei)]; rewrite Ei in H; [discriminate|].
  destruct (loader_read_date (getItem storage "startTime"))
    as [(At & Mt & Et)|[(Nt & Ut & Et)|(Nt & Ut & t & Et)]];
    rewrite Et in H; [discriminate..|].
  destruct (loader_read (getItem storage "isRunning") (JSON.JBool false))
    as [(Ar & Mr & Er)|(Nr & r & Er)]; rewrite Er in H; [discriminate|].
  intros key [<-|[<-|[<-|[]]]]; assumption.
Qed.

(** X6: loading the page throws the [SyntaxError] of [JSON.parse]
    exactly when the first step of the loader to fail is the parsing
    of an entry that is present, not empty, and not JSON: [income] or
    [startTime], or [isRunning] after a [startTime] entry that
    [new Date] converts.  The loader throws the [TypeError] of
    [new Date] exactly when the [income] entry is not malformed and the
    [startTime] entry holds an array or an object that cannot be
    converted to a primitive; loading the page then fails with it. *)
Theorem initialize_throws_iff (storage : Storage) :
  (initialize storage = JS.Throw_SyntaxError
   <-> (absent (getItem storage "income") = false
        /\ malformed (getItem storage "income"))
       \/ (absent (getItem storage "startTime") = false
           /\ malformed (getItem storage "startTime"))
       \/ ((absent (getItem storage "isRunning") = false
            /\ malformed (getItem storage "isRunning"))
           /\ ~ unconvertible (getItem storage "startTime")))
  /\ (clientLoader storage = JS.Throw_TypeError
      <-> ~ (absent (getItem storage "income") = false
             /\ malformed (getItem storage "income"))
          /\ unconvertible (getItem storage "startTime"))
  /\ (clientLoader storage = JS.Throw_TypeError ->
      initialize storage = JS.Throw_TypeError).
Proof.
  split; [|split; [apply clientLoader_TypeError_iff|]].
  - rewrite <- clientLoader_SyntaxError_iff. unfold initialize. split.
    + destruct (clientLoader storage) as [loaderData| | |] eqn:E;
        try (intros H; reflexivity || discriminate H).
      intros H. exfalso. revert H.
      apply Home_no_throw, (clientLoader_Normal storage loaderData E).
    + now intros ->.
  - unfold initialize. now intros ->.
Qed.

Lemma initialize_throws_iff_witness :
  initialize (<["isRunning" := "tru"%string]> ∅) = JS.Throw_SyntaxError
  /\ initialize (<["startTime" := ("[[{" ++ JSON.quoted "toString" ++ ":null}]]")%string]> ∅)
     = JS.Throw_TypeError.
Proof.
  split.
  - apply (proj2 (proj1 (initialize_throws_iff (<["isRunning" := "tru"%string]> ∅)))).
    right. right. split.
    + split; [reflexivity|]. exists "tru"%string. split; reflexivity.
    + intros (text & v & H & _). discriminate H.
  - apply (proj2 (proj2 (initialize_throws_iff
             (<["startTime" := ("[[{" ++ JSON.quoted "toString" ++ ":null}]]")%string]> ∅)))).
    reflexivity.
Defined.

Lemma initialize_mount (storage : Storage) (s : TimerState) :
  initialize storage = JS.Normal s -> exists s0, s = mount s0.
Proof.
  unfold initialize. intros H.
  apply bind_Normal_inv in H as (loaderData & _ & H). unfold Home.Home in H.
  apply bind_Normal_inv in H as (i & _ & H).
  apply bind_Normal_inv in H as (r & _ & H).
  apply bind_Normal_inv in H as (s0 & _ & H).
  exists s0. now injection H.
Qed.

(** X7: whatever the [isRunning] entry says, a page that loads with an
    income greater than 0 and a [startTime] other than null, 0 and NaN
    is running: the effect of the first render sets [isRunning]. *)
Theorem initialize_resumes (storage : Storage) (s : TimerState) :
  initialize storage = JS.Normal s ->
  JS.gt (income s) 0 = true -> JS.ToBoolean_nullable (startTime s) = true ->
  isRunning s = true.
Proof.
  intros H Hi Ht. apply initialize_mount in H as [s0 ->]. unfold mount in *.
  rewrite effect_income in Hi. rewrite effect_startTime in Ht.
  now rewrite effect_isRunning, Hi, Ht.
Qed.

Lemma initialize_resumes_witness :
  initialize (<["income" := "500000"%string]>
                (<["isRunning" := "false"%string]>
                   (<["startTime" := "1771459200123"%string]> ∅)))
  = JS.Normal {| income := 500000; isRunning := true;
                 startTime := Some 1771459200123 |}
  /\ isRunning {| income := 500000; isRunning := true;
                  startTime := Some 1771459200123 |} = true.
Proof.
  split; [reflexivity|].
  apply (initialize_resumes
           (<["income" := "500000"%string]>
              (<["isRunning" := "false"%string]>
                 (<["startTime" := "1771459200123"%string]> ∅))));
    reflexivity.
Defined.

(** ** The page as the user operates it *)

Import Controls.

Lemma dispatch_Reset (s : TimerState) : dispatch Reset s = default_state.
Proof. unfold dispatch, commit. simpl. now destruct (same_deps _ _). Qed.

Lemma operable_Start (s : TimerState) (now : JS.number) :
  operable (control (Start now) s) = true ->
  isRunning s = false /\ (income s <=? 0) = false.
Proof.
  unfold operable. simpl. destruct (isRunning s); [discriminate|].
  rewrite andb_true_r. simpl. destruct (income s <=? 0); [discriminate|]. now split.
Qed.

Lemma operable_SetIncome (s : TimerState) (value : JS.number) :
  operable (control (SetIncome value) s) = true -> isRunning s = false.
Proof. unfold operable. simpl. now destruct (isRunning s). Qed.

Lemma user_invariant_step (s s' : TimerState) :
  user_invariant s -> user_step s s' -> user_invariant s'.
Proof.
  intros [Hrun Hinc] Hstep. destruct Hstep as [a s Hop].
  assert (Hidle : isRunning s = false -> startTime s = None).
  { intros Hr. destruct (startTime s) as [t|]; [|reflexivity].
    rewrite Hr in Hrun. assert (false = true) by (apply Hrun; discriminate).
    discriminate. }
  destruct a as [now| |value].
  - apply operable_Start in Hop as [Hr Hi].
    pose proof (start_sets_startTime s now) as [Ht Hi'].
    pose proof (start_isRunning s now) as Hr'. rewrite Hr in Hr'.
    assert (Hrun' : isRunning (dispatch (Start now) s) = true)
      by (rewrite Hr'; now destruct (_ && _)).
    split; [split; [intros _; now rewrite Ht|intros _; exact Hrun']|].
    intros _. now rewrite Hi'.
  - rewrite dispatch_Reset. split; [split|]; simpl; [discriminate|congruence|discriminate].
  - apply operable_SetIncome in Hop. specialize (Hidle Hop).
    assert (Hs : dispatch (SetIncome value) s
                 = {| income := value; isRunning := false; startTime := None |}).
    { unfold dispatch, commit.
      destruct (same_deps _ _); unfold effect, handler, setIncome;
        cbn [income isRunning startTime]; rewrite Hop, Hidle; [reflexivity|].
      cbn [JS.ToBoolean_nullable]. now rewrite andb_false_r. }
    rewrite Hs. split; [split|]; simpl; [discriminate|congruence|discriminate].
Qed.

(** X8: in every state the user can reach from the default state
    through the controls of the page (the Start button is hidden while
    running and disabled while the income is at most 0, the income
    field is disabled while running), the timer runs exactly when
    [startTime] is set, and it never runs with an income that is at
    most 0. *)
Theorem user_reachable_invariant (s : TimerState) :
  user_reachable s ->
  (isRunning s = true <-> startTime s <> None)
  /\ (isRunning s = true -> (income s <=? 0) = false).
Proof.
  intros H. change (user_invariant s).
  induction H as [|s s' _ IH Hstep].
  - split; [split|]; simpl; [discriminate|congruence|discriminate].
  - exact (user_invariant_step s s' IH Hstep).
Qed.

Lemma user_reachable_invariant_witness :
  (isRunning (dispatch (Start 1000) (dispatch (SetIncome 50000) default_state)) = true
   <-> startTime (dispatch (Start 1000) (dispatch (SetIncome 50000) default_state))
       <> None)
  /\ (isRunning (dispatch (Start 1000) (dispatch (SetIncome 50000) default_state)) = true ->
      (income (dispatch (Start 1000) (dispatch (SetIncome 50000) default_state)) <=? 0)
      = false).
Proof.
  apply (user_reachable_invariant
           (dispatch (Start 1000) (dispatch (SetIncome 50000) default_state))).
  eapply user_reachable_step; [|apply (user_step_action (Start 1000)); reflexivity].
  eapply user_reachable_step; [|apply (user_step_action (SetIncome 50000)); reflexivity].
  apply user_reachable_default.
Defined.

(** X9: while the timer runs, the only control the page leaves to the
    user is Reset: every action the user can take leads to the default
    state. *)
Theorem running_only_resets (s s' : TimerState) :
  isRunning s = true -> user_step s s' -> s' = default_state.
Proof.
  intros Hr Hstep. destruct Hstep as [a s Hop]. destruct a as [now| |value].
  - apply operable_Start in Hop as [Hr' _]. congruence.
  - apply dispatch_Reset.
  - apply operable_SetIncome in Hop. congruence.
Qed.

Lemma running_only_resets_witness :
  dispatch Reset {| income := 50000; isRunning := true; startTime := Some 1000 |}
  = default_state.
Proof.
  apply (running_only_resets
           {| income := 50000; isRunning := true; startTime := Some 1000 |}).
  - reflexivity.
  - apply (user_step_action Reset). reflexivity.
Defined.
(** ** The loader's data *)

Lemma useLocalStorageState_absent {T : Type} (as_T : JSON.value -> option T)
    (storage : Storage) (key : string) (initialValue : JS.completion T) :
  absent (getItem storage key) = true ->
  useLocalStorageState as_T storage key initialValue = initialValue.
Proof. intros H. unfold useLocalStorageState. now apply if_item_absent. Qed.

Lemma useLocalStorageState_present {T : Type} (as_T : JSON.value -> option T)
    (storage : Storage) (key : string) (initial1 initial2 : JS.completion T) :
  absent (getItem storage key) = false ->
  useLocalStorageState as_T storage key initial1
  = useLocalStorageState as_T storage key initial2.
Proof.
  intros H. unfold useLocalStorageState.
  destruct (if_item_present (getItem storage key)
              (fun storedValue => v ← JSON.parse storedValue; JS.assert_type as_T v)
              initial1 H) as (text & E & ->).
  destruct (if_item_present (getItem storage key)
              (fun storedValue => v ← JSON.parse storedValue; JS.assert_type as_T v)
              initial2 H) as (text' & E' & ->).
  congruence.
Qed.

(** What the loader returns for the entries that are missing. *)
Lemma clientLoader_defaults (storage : Storage) (loaderData : LoaderData) :
  clientLoader storage = JS.Normal loaderData ->
  (absent (getItem storage "income") = true ->
   storedIncome loaderData = JSON.JNumber 0)
  /\ (absent (getItem storage "startTime") = true ->
      storedStartTime loaderData = None)
  /\ (absent (getItem storage "isRunning") = true ->
      storedIsRunning loaderData = JSON.JBool false).
Proof.
  rewrite clientLoader_eq. intros H.
  apply bind_Normal_inv in H as (i & Hi & H).
  apply bind_Normal_inv in H as (t & Ht & H).
  apply bind_Normal_inv in H as (r & Hr & H).
  injection H as <-. cbn [storedIncome storedStartTime storedIsRunning].
  split; [|split]; intros Habs.
  - rewrite if_item_absent in Hi by assumption. now injection Hi.
  - rewrite if_item_absent in Ht by assumption. now injection Ht.
  - rewrite if_item_absent in Hr by assumption. now injection Hr.
Qed.

Lemma useIncomeTracker_loaderData (storage : Storage) (loaderData : LoaderData)
    (initialIncome : JS.number) (initialIsRunning : bool) :
  clientLoader storage = JS.Normal loaderData ->
  JSON.as_number (storedIncome loaderData) = Some initialIncome ->
  JSON.as_boolean (storedIsRunning loaderData) = Some initialIsRunning ->
  useIncomeTracker storage initialIncome (storedStartTime loaderData) initialIsRunning
  = useIncomeTracker storage 0 None false.
Proof.
  intros Hl Hi Hr. destruct (clientLoader_defaults storage loaderData Hl) as (Di & Dt & Dr).
  unfold useIncomeTracker.
  assert (E1 : useLocalStorageState JSON.as_number storage "income"
                 (mret (JS.or_number initialIncome 0))
               = useLocalStorageState JSON.as_number storage "income"
                   (mret (JS.or_number 0 0))).
  { destruct (absent (getItem storage "income")) eqn:A.
    - rewrite (Di eq_refl) in Hi. now injection Hi as <-.
    - now apply useLocalStorageState_present. }
  assert (E2 : useLocalStorageState JSON.as_boolean storage "isRunning"
                 (mret (initialIsRunning || false))
               = useLocalStorageState JSON.as_boolean storage "isRunning"
                   (mret (false || false))).
  { destruct (absent (getItem storage "isRunning")) eqn:A.
    - rewrite (Dr eq_refl) in Hr. now injection Hr as <-.
    - now apply useLocalStorageState_present. }
  assert (E3 : useLocalStorageState JSON.as_nullable_number storage "startTime"
                 (match storedStartTime loaderData with
                  | Some d => t ← JS.Number_of_Date d; mret (Some t)
                  | None => mret None
                  end)
               = useLocalStorageState JSON.as_nullable_number storage "startTime"
                   (mret None)).
  { destruct (absent (getItem storage "startTime")) eqn:A.
    - now rewrite (Dt eq_refl).
    - now apply useLocalStorageState_present. }
  now rewrite E1, E2, E3.
Qed.

(** X10: the data of the route loader never reaches the state: when
    the page loads, its state is the one the hooks read from
    [localStorage] with the fallbacks 0, null and false, as if the
    loader had returned nothing. *)
Theorem loader_data_unused (storage : Storage) (s : TimerState) :
  initialize storage = JS.Normal s ->
  (s0 ← useIncomeTracker storage 0 None false; mret (mount s0)) = JS.Normal s.
Proof.
  unfold initialize. intros H.
  apply bind_Normal_inv in H as (loaderData & Hl & H). unfold Home.Home in H.
  apply bind_Normal_inv in H as (i & Hi & H).
  apply bind_Normal_inv in H as (r & Hr & H).
  rewrite (useIncomeTracker_loaderData storage loaderData i r Hl) in H.
  - exact H.
  - unfold JS.assert_type in Hi. destruct (JSON.as_number _); [congruence|discriminate].
  - unfold JS.assert_type in Hr. destruct (JSON.as_boolean _); [congruence|discriminate].
Qed.

Lemma loader_data_unused_witness :
  (s0 ← useIncomeTracker (<["income" := "500000"%string]> ∅) 0 None false;
   mret (mount s0))
  = JS.Normal {| income := 500000; isRunning := false; startTime := None |}.
Proof.
  apply (loader_data_unused (<["income" := "500000"%string]> ∅)). reflexivity.
Defined.
(** ** Writing the state through and reading it back *)

Section RoundTrip.

Import Persist Binary64.
Local Open Scope Z_scope.

Lemma digit_char_cases d :
  0 <= d <= 9 ->
  In (digit_char d)
     ["0"; "1"; "2"; "3"; "4"; "5"; "6"; "7"; "8"; "9"]%char.
Proof.
  intros H.
  assert (E : d = 0 \/ d = 1 \/ d = 2 \/ d = 3 \/ d = 4 \/ d = 5 \/ d = 6
              \/ d = 7 \/ d = 8 \/ d = 9) by lia.
  simpl. repeat (destruct E as [->|E]; [tauto|]). subst d. tauto.
Qed.

Lemma digit_digit_char d : 0 <= d <= 9 -> JSON.digit (digit_char d) = Some d.
Proof.
  intros H.
  assert (E : d = 0 \/ d = 1 \/ d = 2 \/ d = 3 \/ d = 4 \/ d = 5 \/ d = 6
              \/ d = 7 \/ d = 8 \/ d = 9) by lia.
  repeat (destruct E as [->|E]; [reflexivity|]). now subst d.
Qed.

Lemma digits_digit_char a c d rest :
  0 <= d <= 9 ->
  JSON.digits a c (String (digit_char d) rest) = JSON.digits (10 * a + d) (S c) rest.
Proof. intros H. cbn [JSON.digits]. now rewrite digit_digit_char. Qed.

Lemma decimal_digits_S f n acc :
  decimal_digits (S f) n acc
  = if n <? 10 then String (digit_char (n mod 10)) acc
    else decimal_digits f (n / 10) (String (digit_char (n mod 10)) acc).
Proof. reflexivity. Qed.

(** Reading the digits of [n] gives [n] back. *)
Lemma digits_decimal_digits f : forall n acc,
  0 <= n < 2 ^ Z.of_nat (S f) ->
  exists k, (1 <= k)%nat /\ (n < 10 -> k = 1%nat)
    /\ forall a c,
         JSON.digits a c (decimal_digits (S f) n acc)
         = JSON.digits (a * 10 ^ Z.of_nat k + n) (c + k) acc.
Proof.
  induction f as [|f IH]; intros n acc Hn; rewrite decimal_digits_S.
  - change (2 ^ Z.of_nat 1) with 2 in Hn.
    destruct (Z.ltb_spec n 10); [|lia].
    exists 1%nat. split; [lia|]. split; [reflexivity|]. intros a c.
    rewrite digits_digit_char by divmod.
    replace (n mod 10) with n by divmod.
    f_equal; [change (10 ^ Z.of_nat 1) with 10|]; lia.
  - destruct (Z.ltb_spec n 10) as [Hlt|Hge].
    + exists 1%nat. split; [lia|]. split; [reflexivity|]. intros a c.
      rewrite digits_digit_char by divmod.
      replace (n mod 10) with n by divmod.
      f_equal; [change (10 ^ Z.of_nat 1) with 10|]; lia.
    + rewrite (Nat2Z.inj_succ (S f)), Z.pow_succ_r in Hn by lia.
      destruct (IH (n / 10) (String (digit_char (n mod 10)) acc)) as (k & Hk & _ & H).
      { divmod. }
      exists (S k). split; [lia|]. split; [lia|]. intros a c.
      rewrite H, digits_digit_char by divmod.
      rewrite (Nat2Z.inj_succ k), Z.pow_succ_r by lia.
      f_equal; [|lia]. divmod.
Qed.

(** The first digit of a number other than 0 is not 0. *)
Lemma decimal_digits_head f : forall n acc,
  0 <= n < 2 ^ Z.of_nat (S f) ->
  exists d rest, decimal_digits (S f) n acc = String (digit_char d) rest
                 /\ 0 <= d <= 9 /\ (1 <= n -> 1 <= d).
Proof.
  induction f as [|f IH]; intros n acc Hn; rewrite decimal_digits_S.
  - change (2 ^ Z.of_nat 1) with 2 in Hn.
    destruct (Z.ltb_spec n 10); [|lia].
    exists (n mod 10), acc. split; [reflexivity|]. divmod.
  - destruct (Z.ltb_spec n 10) as [Hlt|Hge].
    + exists (n mod 10), acc. split; [reflexivity|]. divmod.
    + rewrite (Nat2Z.inj_succ (S f)), Z.pow_succ_r in Hn by lia.
      destruct (IH (n / 10) (String (digit_char (n mod 10)) acc))
        as (d & rest & E & Hd & Hd1); [divmod|].
      exists d, rest. split; [exact E|]. split; [exact Hd|]. intros _. apply Hd1. divmod.
Qed.

Lemma decimal_fuel n : 0 <= n -> 0 <= n < 2 ^ Z.of_nat (S (Z.to_nat (Z.log2 n))).
Proof.
  intros H. split; [exact H|].
  rewrite Nat2Z.inj_succ, Z2Nat.id by apply Z.log2_nonneg.
  destruct (Z.eq_dec n 0) as [->|]; [reflexivity|].
  apply Z.log2_spec. lia.
Qed.

(** The text of a number: an optional sign, then digits that start
    with 0 only when there is one digit. *)
Lemma number_digits (neg : bool) s d rest n k :
  s = String (digit_char d) rest -> 0 <= d <= 9 ->
  JSON.digits 0 0 s = (n, k, EmptyString) ->
  (1 <= k)%nat -> (d = 0 -> k = 1%nat) ->
  JSON.number (if neg then String "-"%char s else s)
  = Some (JSON.of_decimal neg n 0, EmptyString).
Proof.
  intros Es Hd Hdig Hk Hz.
  assert (Hlz : d = 0 \/ 1 <= d) by lia.
  pose proof (digit_char_cases d Hd) as Hc.
  destruct k as [|k]; [lia|].
  assert (Hk0 : (S k =? 0)%nat = false) by reflexivity.
  unfold JSON.number.
  destruct neg.
  - rewrite Hdig. cbv beta iota. rewrite Hk0. cbn [orb].
    destruct Hlz as [->|Hlz].
    + rewrite (Hz eq_refl). rewrite Es. reflexivity.
    + assert (Hnz : match s with String "0"%char _ => true | _ => false end = false).
      { rewrite Es. cbn in Hc.
        destruct Hc as [E|[E|[E|[E|[E|[E|[E|[E|[E|[E|[]]]]]]]]]]]; rewrite <- E;
          try reflexivity.
        exfalso. assert (E' : JSON.digit (digit_char d) = Some 0) by now rewrite <- E.
        rewrite digit_digit_char in E' by lia. injection E' as E'. lia. }
      rewrite Hnz. reflexivity.
  - assert (Hsign : match s with
                    | String "-"%char rest => (true, rest)
                    | _ => (false, s)
                    end = (false, s)).
    { rewrite Es. cbn in Hc.
      destruct Hc as [E|[E|[E|[E|[E|[E|[E|[E|[E|[E|[]]]]]]]]]]]; rewrite <- E;
        reflexivity. }
    rewrite Hsign, Hdig. cbv beta iota. rewrite Hk0. cbn [orb].
    destruct Hlz as [->|Hlz].
    + rewrite (Hz eq_refl). rewrite Es. reflexivity.
    + assert (Hnz : match s with String "0"%char _ => true | _ => false end = false).
      { rewrite Es. cbn in Hc.
        destruct Hc as [E|[E|[E|[E|[E|[E|[E|[E|[E|[E|[]]]]]]]]]]]; rewrite <- E;
          try reflexivity.
        exfalso. assert (E' : JSON.digit (digit_char d) = Some 0) by now rewrite <- E.
        rewrite digit_digit_char in E' by lia. injection E' as E'. lia. }
      rewrite Hnz. reflexivity.
Qed.
Lemma parse_value_number f c rest :
  In c ["-"; "0"; "1"; "2"; "3"; "4"; "5"; "6"; "7"; "8"; "9"]%char ->
  JSON.parse_value (S f) (String c rest)
  = '(x, rest') ← JSON.number (String c rest); Some (JSON.JNumber x, rest').
Proof.
  intros Hc. cbn in Hc.
  destruct Hc as [E|[E|[E|[E|[E|[E|[E|[E|[E|[E|[E|[]]]]]]]]]]]]; rewrite <- E;
    reflexivity.
Qed.

Lemma parse_number_text (neg : bool) s d rest n k :
  s = String (digit_char d) rest -> 0 <= d <= 9 ->
  JSON.digits 0 0 s = (n, k, EmptyString) ->
  (1 <= k)%nat -> (d = 0 -> k = 1%nat) ->
  JSON.parse (if neg then String "-"%char s else s)
  = JS.Normal (JSON.JNumber (JSON.of_decimal neg n 0)).
Proof.
  intros Es Hd Hdig Hk Hz.
  pose proof (number_digits neg s d rest n k Es Hd Hdig Hk Hz) as Hnum.
  unfold JSON.parse.
  replace (2 * String.length (if neg then String "-"%char s else s) + 2)%nat
    with (S (2 * String.length (if neg then String "-"%char s else s) + 1))%nat by lia.
  assert (Hp : JSON.parse_value
                 (S (2 * String.length (if neg then String "-"%char s else s) + 1))
                 (if neg then String "-"%char s else s)
               = Some (JSON.JNumber (JSON.of_decimal neg n 0), EmptyString)).
  { destruct neg.
    - rewrite parse_value_number by (cbn; tauto). now rewrite Hnum.
    - revert Hnum. rewrite Es. intros Hnum.
      rewrite parse_value_number by (right; now apply digit_char_cases).
      now rewrite Hnum. }
  now rewrite Hp.
Qed.

(** The text of a non-negative integer, with or without a sign in
    front, parses as that integer. *)
Lemma parse_decimal (neg : bool) n :
  0 <= n ->
  JSON.parse (if neg then String "-"%char (decimal n) else decimal n)
  = JS.Normal (JSON.JNumber (JSON.of_decimal neg n 0)).
Proof.
  intros Hn. unfold decimal.
  pose proof (decimal_fuel n Hn) as Hf.
  destruct (digits_decimal_digits _ n EmptyString Hf) as (k & Hk & Hk1 & Hdig).
  destruct (decimal_digits_head _ n EmptyString Hf) as (d & rest & Es & Hd & Hd1).
  apply (parse_number_text neg _ d rest n k Es Hd).
  - rewrite Hdig. cbn [JSON.digits]. rewrite Z.mul_0_l, Z.add_0_l. reflexivity.
  - exact Hk.
  - intros ->. apply Hk1. lia.
Qed.

(** Rounding the integer a number is gives the number. *)
Lemma of_decimal_integer x s m e p :
  Prim2SF x = S754_finite s m e ->
  Z.pos p * 2 ^ 1074 = Z.pos m * 2 ^ (e + 1074) ->
  JSON.of_decimal s (Z.pos p) 0 = x.
Proof.
  intros Hx Hp.
  pose proof (FloatAxioms.Prim2SF_valid x) as V. rewrite Hx in V.
  pose proof (valid_finite _ _ _ V) as (C & B & _).
  unfold JSON.of_decimal. cbn [Z.leb Z.compare].
  change (Z.to_pos (10 ^ 0)) with 1%positive. rewrite Pos.mul_1_r.
  rewrite binary_round_RN by lia. change (0 + 1074) with 1074. rewrite Hp.
  replace (e + 1074) with (e - -1074) by lia.
  rewrite RN_id by (assumption || lia).
  cbn [to_sf Z.to_pos]. rewrite <- Hx. apply FloatAxioms.SF2Prim_Prim2SF.
Qed.

Lemma integer_value_finite x s m e v :
  Prim2SF x = S754_finite s m e -> integer_value x = Some v ->
  exists p, v = cond_Zopp s (Z.pos p)
            /\ Z.pos p * 2 ^ 1074 = Z.pos m * 2 ^ (e + 1074).
Proof.
  intros Hx. unfold integer_value. rewrite Hx.
  pose proof (FloatAxioms.Prim2SF_valid x) as V. rewrite Hx in V.
  pose proof (valid_finite _ _ _ V) as (_ & B & _).
  destruct (Z.leb_spec 0 e) as [He|He].
  - intros [= <-].
    assert (Hpos : 0 < Z.pos m * 2 ^ e)
      by (apply Z.mul_pos_pos; [lia|apply Z.pow_pos_nonneg; lia]).
    destruct (Z.pos m * 2 ^ e) as [|p|p] eqn:E; try lia.
    exists p. split; [reflexivity|].
    rewrite <- E, Z.pow_add_r by lia. lia.
  - destruct (Z.eqb_spec (Z.pos m mod 2 ^ (- e)) 0) as [Hdiv|]; [|discriminate].
    intros [= <-].
    assert (H2 : 0 < 2 ^ (- e)) by (apply Z.pow_pos_nonneg; lia).
    assert (Hm : Z.pos m = Z.pos m / 2 ^ (- e) * 2 ^ (- e)).
    { pose proof (Z.div_mod (Z.pos m) (2 ^ (- e)) ltac:(lia)). lia. }
    assert (Hpos : 0 < Z.pos m / 2 ^ (- e)).
    { destruct (Z.pos m / 2 ^ (- e)) as [|q|q] eqn:E; lia. }
    destruct (Z.pos m / 2 ^ (- e)) as [|p|p] eqn:E; try lia.
    exists p. split; [reflexivity|].
    rewrite Hm, <- Z.mul_assoc, <- Z.pow_add_r by lia.
    apply f_equal. apply f_equal. lia.
Qed.

Lemma not_neg_zero x s :
  Prim2SF x = S754_zero s -> JS.Object_is x PrimFloat.neg_zero = false ->
  x = PrimFloat.zero.
Proof.
  intros Hx Hnz. rewrite <- (FloatAxioms.SF2Prim_Prim2SF x), Hx.
  destruct s; [|reflexivity].
  exfalso. assert (E : x = PrimFloat.neg_zero)
    by now rewrite <- (FloatAxioms.SF2Prim_Prim2SF x), Hx.
  apply FloatAxioms.Leibniz.eqb_spec in E. unfold JS.Object_is in Hnz. congruence.
Qed.

(** What [JSON.stringify] printed for a finite number other than [-0],
    [JSON.parse] reads back as that number. *)
Lemma parse_stringify x text :
  stringify_number x = Some text ->
  is_finite x = true -> JS.Object_is x PrimFloat.neg_zero = false ->
  JSON.parse text = JS.Normal (JSON.JNumber x).
Proof.
  unfold stringify_number. intros Hs Hfin Hnz. rewrite Hfin in Hs. cbn [negb] in Hs.
  pose proof (is_finite_fz x Hfin) as Hfz.
  destruct (Prim2SF x) as [s0| | |s m e] eqn:Hx; try discriminate Hfz.
  - unfold integer_value in Hs. rewrite Hx in Hs. cbn in Hs. injection Hs as <-.
    now rewrite (not_neg_zero x s0 Hx Hnz).
  - destruct (integer_value x) as [v|] eqn:Hv; [|discriminate].
    destruct (integer_value_finite x s m e v Hx Hv) as (p & -> & Hp).
    destruct (Z.abs _ <? 2 ^ 53); [|discriminate]. injection Hs as <-.
    rewrite <- (of_decimal_integer x s m e p Hx Hp).
    destruct s; cbn [cond_Zopp Z.opp Z.ltb Z.compare].
    + apply (parse_decimal true (Z.pos p)). lia.
    + apply (parse_decimal false (Z.pos p)). lia.
Qed.

Lemma parse_nonempty text v :
  JSON.parse text = JS.Normal v -> JS.ToBoolean_string text = true.
Proof. destruct text; [discriminate|reflexivity]. Qed.

Lemma if_item_stored {A : Type} text (f : string -> JS.completion A) otherwise :
  JS.ToBoolean_string text = true -> if_item (Some text) f otherwise = f text.
Proof. intros H. simpl. now rewrite H. Qed.

(** The entries of a nullable number. *)
Lemma parse_stringify_nullable x text :
  stringify_nullable_number x = Some text ->
  (forall t, x = Some t ->
     is_finite t = true /\ JS.Object_is t PrimFloat.neg_zero = false) ->
  exists v, JSON.parse text = JS.Normal v /\ JSON.as_nullable_number v = Some x.
Proof.
  destruct x as [t|]; cbn [stringify_nullable_number]; intros Hs Ht.
  - destruct (Ht t eq_refl) as [Hfin Hnz]. exists (JSON.JNumber t).
    split; [now apply parse_stringify|reflexivity].
  - injection Hs as <-. now exists JSON.JNull.
Qed.

Lemma initialize_stored (storage : Storage) ti tr tt i r t vt :
  getItem storage "income" = Some ti ->
  getItem storage "isRunning" = Some tr ->
  getItem storage "startTime" = Some tt ->
  JSON.parse ti = JS.Normal (JSON.JNumber i) ->
  JSON.parse tr = JS.Normal (JSON.JBool r) ->
  JSON.parse tt = JS.Normal vt -> JSON.as_nullable_number vt = Some t ->
  initialize storage
  = JS.Normal (mount {| income := i; isRunning := r; startTime := t |}).
Proof.
  intros Gi Gr Gt Pi Pr Pt At.
  unfold initialize, clientLoader, Home.Home, useIncomeTracker, useLocalStorageState.
  cbv zeta. rewrite Gi, Gr, Gt. unfold if_item.
  rewrite (parse_nonempty _ _ Pi), (parse_nonempty _ _ Pr), (parse_nonempty _ _ Pt).
  assert (Hd : exists d, JSON.new_Date vt = JS.Normal d)
    by (destruct vt; try discriminate At; now eexists).
  destruct Hd as [d Hd].
  rewrite Pi, Pr, Pt. cbn -[mount JSON.new_Date]. rewrite Hd. cbn -[mount].
  unfold JS.assert_type. rewrite At. reflexivity.
Qed.

Lemma persist_entries (s : TimerState) (storage storage' : Storage) :
  persist s storage = Some storage' ->
  exists ti tt,
    stringify_number (income s) = Some ti
    /\ stringify_nullable_number (startTime s) = Some tt
    /\ getItem storage' "income" = Some ti
    /\ getItem storage' "isRunning" = Some (if isRunning s then "true" else "false")%string
    /\ getItem storage' "startTime" = Some tt.
Proof.
  unfold persist, useLocalStorageState_effect, stringify_boolean.
  destruct (stringify_number (income s)) as [ti|]; [|discriminate].
  destruct (stringify_nullable_number (startTime s)) as [tt|]; [|discriminate].
  cbn. intros [= <-]. exists ti, tt. unfold getItem, setItem.
  split; [reflexivity|]. split; [reflexivity|].
  split; [|split].
  - rewrite lookup_insert_ne by discriminate.
    rewrite lookup_insert_ne by discriminate. apply lookup_insert_eq.
  - rewrite lookup_insert_ne by discriminate. apply lookup_insert_eq.
  - apply lookup_insert_eq.
Qed.

End RoundTrip.

(** X11: for a finite number other than [-0] that [JSON.stringify]
    prints (a safe integer), [JSON.parse] reads the printed text back
    as the same number, and so does the initial state of
    [useLocalStorageState] from the entry the effect wrote. *)
Theorem parse_stringify_number (x : JS.number) (text : string) :
  Persist.stringify_number x = Some text ->
  is_finite x = true -> JS.Object_is x PrimFloat.neg_zero = false ->
  JSON.parse text = JS.Normal (JSON.JNumber x)
  /\ useLocalStorageState JSON.as_number (Persist.setItem ∅ "income" text)
       "income" (mret 0)
     = JS.Normal x.
Proof.
  intros Hs Hfin Hnz. pose proof (parse_stringify x text Hs Hfin Hnz) as Hp.
  split; [exact Hp|].
  unfold useLocalStorageState, getItem, Persist.setItem.
  rewrite lookup_insert_eq, if_item_stored by eauto using parse_nonempty.
  now rewrite Hp.
Qed.

Lemma parse_stringify_number_witness :
  JSON.parse "1771459200123" = JS.Normal (JSON.JNumber 1771459200123).
Proof.
  apply (parse_stringify_number 1771459200123 "1771459200123"); reflexivity.
Defined.

(** X12: a reload resumes the persisted state.  After the three
    entries of a state were written, with a finite [income] and a
    finite or null [startTime] (neither [-0]), loading the page yields
    that state once the effect of the first render has run; a running
    state is resumed exactly. *)
Theorem reload_resumes (s : TimerState) (storage storage' : Storage) :
  Persist.persist s storage = Some storage' ->
  is_finite (income s) = true ->
  JS.Object_is (income s) PrimFloat.neg_zero = false ->
  (forall t, startTime s = Some t ->
     is_finite t = true /\ JS.Object_is t PrimFloat.neg_zero = false) ->
  initialize storage' = JS.Normal (mount s)
  /\ (isRunning s = true -> initialize storage' = JS.Normal s).
Proof.
  intros Hp Hfin Hnz Ht.
  destruct (persist_entries s storage storage' Hp) as (ti & tt & Si & St & Gi & Gr & Gt).
  destruct (parse_stringify_nullable _ _ St Ht) as (vt & Pt & At).
  assert (H : initialize storage' = JS.Normal (mount s)).
  { rewrite <- (eta_TimerState s).
    apply (initialize_stored storage' ti _ tt _ _ _ vt Gi Gr Gt); try assumption.
    - now apply parse_stringify.
    - now destruct (isRunning s). }
  split; [exact H|]. intros Hr. rewrite H. f_equal.
  unfold mount, effect. destruct (_ && _); [|reflexivity].
  rewrite <- Hr. apply eta_TimerState.
Qed.

Lemma reload_resumes_witness :
  initialize (<["startTime" := "1771459200123"%string]>
                (<["isRunning" := "true"%string]>
                   (<["income" := "500000"%string]> ∅)))
  = JS.Normal {| income := 500000; isRunning := true;
                 startTime := Some 1771459200123 |}.
Proof.
  apply (reload_resumes
           {| income := 500000; isRunning := true; startTime := Some 1771459200123 |}
           ∅).
  - reflexivity.
  - reflexivity.
  - reflexivity.
  - intros t [= <-]. split; reflexivity.
  - reflexivity.
Defined.

(** ** The rates of a comparison card *)

Section Rates.

Import Binary64.
Local Open Scope Z_scope.

(** A quotient of a non-negative number by a number from 1 up, whose
    mantissa has its 53 bits, is non-negative and does not overflow. *)
Lemma SFdiv_nonneg a mq eq :
  valid_binary a = true -> fz a = true -> nonneg a = true ->
  Zdigits2 (Z.pos mq) = 53 -> -51 <= eq <= 0 ->
  fz (SFdiv prec emax a (S754_finite false mq eq)) = true
  /\ nonneg (SFdiv prec emax a (S754_finite false mq eq)) = true.
Proof.
  intros Va Fa Na Dq Eq. destruct a as [sa| | |sa ma ea]; try discriminate.
  - split; reflexivity.
  - destruct sa; [discriminate|].
    pose proof (valid_finite _ _ _ Va) as (_ & Ba & Da).
    cbn [SFdiv xorb]. unfold SFdiv_core_binary.
    change (fexp prec emax) with fexp64. rewrite Dq.
    pose proof (Zdigits2_bounds (Z.pos mq) ltac:(lia)) as [Hqlo _].
    rewrite Dq in Hqlo. change (2 ^ (53 - 1)) with 4503599627370496 in Hqlo.
    set (d1 := Zdigits2 (Z.pos ma)) in *.
    set (e' := Z.min (fexp64 (d1 + ea - (53 + eq))) (ea - eq)).
    set (sh := ea - eq - e').
    assert (Hsh : 0 <= sh) by (unfold sh, e'; lia).
    assert (Hm' : match sh with
                  | Z.pos _ => Z.shiftl (Z.pos ma) sh
                  | 0 => Z.pos ma
                  | Z.neg _ => 0
                  end = Z.pos ma * 2 ^ sh).
    { destruct sh as [|p|p]; [cbn; lia| |lia]. now rewrite Z.shiftl_mul_pow2. }
    rewrite Hm'.
    pose proof (Z_div_mod (Z.pos ma * 2 ^ sh) (Z.pos mq) ltac:(lia)) as Hdiv.
    destruct (Z.div_eucl (Z.pos ma * 2 ^ sh) (Z.pos mq)) as [q r].
    destruct Hdiv as [Hq Hr].
    assert (Psh : 0 < 2 ^ sh) by (apply Z.pow_pos_nonneg; lia).
    assert (Hq0 : 0 <= q) by nia.
    pose proof (Zdigits2_pos (Z.pos ma) ltac:(lia)) as Hd1. fold d1 in Hd1.
    assert (Hdq : Zdigits2 q <= Z.max 0 (d1 + sh - 52)).
    { destruct (Z.eq_dec q 0) as [->|N]; [cbn; lia|].
      assert (Hlt : q * 2 ^ 52 < 2 ^ (d1 + sh)).
      { pose proof (Zdigits2_bounds (Z.pos ma) ltac:(lia)) as [_ Hhi]. fold d1 in Hhi.
        rewrite Z.pow_add_r by lia. rewrite pow2_52.
        assert (q * 4503599627370496 <= q * Z.pos mq)
          by (apply Z.mul_le_mono_nonneg_l; lia).
        assert (Z.pos ma * 2 ^ sh < 2 ^ d1 * 2 ^ sh)
          by (apply Z.mul_lt_mono_pos_r; lia).
        lia. }
      assert (d1 + sh - 52 > 0).
      { destruct (Z.le_gt_cases (d1 + sh) 52) as [Hle|Hgt]; [|lia].
        assert (2 ^ (d1 + sh) <= 2 ^ 52) by (apply Z.pow_le_mono_r; lia). nia. }
      apply Zdigits2_le; [lia|].
      replace (Z.max 0 (d1 + sh - 52)) with (d1 + sh - 52) by lia.
      replace (d1 + sh) with (d1 + sh - 52 + 52) in Hlt by lia.
      rewrite Z.pow_add_r in Hlt by lia.
      assert (0 < 2 ^ 52) by reflexivity. nia. }
    destruct (bra_no_overflow false q e' (new_location (Z.pos mq) r))
      as [H1 H2].
    + exact Hq0.
    + unfold e', fexp64. lia.
    + unfold sh, e', fexp64 in *. lia.
    + split; [exact H1|now apply H2].
Qed.

Lemma fz_is_finite (x : float) : fz (Prim2SF x) = true -> is_finite x = true.
Proof.
  unfold is_finite, is_nan, is_infinity.
  rewrite !FloatAxioms.eqb_spec, FloatAxioms.abs_spec.
  change (Prim2SF infinity) with (S754_infinity false).
  destruct (Prim2SF x) as [s|s| |s m e]; intros H; try discriminate H.
  - reflexivity.
  - unfold SFeqb, SFcompare, SFabs.
    rewrite Z.compare_refl.
    destruct s; cbn; rewrite ?Pos.compare_cont_refl; reflexivity.
Qed.

Lemma nonneg_leb_zero (x : float) :
  nonneg (Prim2SF x) = true -> (0 <=? x)%float = true.
Proof.
  rewrite FloatAxioms.leb_spec. change (Prim2SF 0) with (S754_zero false).
  destruct (Prim2SF x) as [s|[]| |[] m e]; cbn; intros H;
    reflexivity || discriminate H.
Qed.

Lemma div_nonneg (a d : float) mq eq :
  Prim2SF d = S754_finite false mq eq ->
  Zdigits2 (Z.pos mq) = 53 -> -51 <= eq <= 0 ->
  is_finite a = true -> (0 <=? a)%float = true ->
  is_finite (a / d) = true /\ (0 <=? a / d)%float = true.
Proof.
  intros Hd Dq Eq Fa Na.
  destruct (SFdiv_nonneg (Prim2SF a) mq eq) as [H1 H2];
    try assumption.
  - apply FloatAxioms.Prim2SF_valid.
  - now apply is_finite_fz.
  - now apply leb_zero_nonneg.
  - rewrite <- Hd, <- FloatAxioms.div_spec in H1, H2.
    split; [now apply fz_is_finite|now apply nonneg_leb_zero].
Qed.

End Rates.

(** X13: a comparison card shows no negative, infinite or NaN rate:
    for a finite annual income that is at least 0, the amounts per
    second, per minute, per hour and per day are finite and at
    least 0. *)
Theorem rates_finite_nonneg (p : RichPerson.RichPersonProps) :
  is_finite (RichPerson.annualIncome p) = true ->
  (0 <=? RichPerson.annualIncome p) = true ->
  (is_finite (RichPerson.calculatePerSecond p) = true
   /\ (0 <=? RichPerson.calculatePerSecond p) = true)
  /\ (is_finite (RichPerson.calculatePerMinute p) = true
      /\ (0 <=? RichPerson.calculatePerMinute p) = true)
  /\ (is_finite (RichPerson.calculatePerHour p) = true
      /\ (0 <=? RichPerson.calculatePerHour p) = true)
  /\ (is_finite (RichPerson.calculatePerDay p) = true
      /\ (0 <=? RichPerson.calculatePerDay p) = true).
Proof.
  intros Fa Na.
  unfold RichPerson.calculatePerSecond, RichPerson.calculatePerMinute,
    RichPerson.calculatePerHour, RichPerson.calculatePerDay.
  split; [|split; [|split]].
  - apply (div_nonneg _ (365 * 24 * 60 * 60) 8465380540416000 (-28));
      (reflexivity || assumption || lia).
  - apply (div_nonneg _ (365 * 24 * 60) 4514869621555200 (-33));
      (reflexivity || assumption || lia).
  - apply (div_nonneg _ (365 * 24) 4815860929658880 (-39));
      (reflexivity || assumption || lia).
  - apply (div_nonneg _ 365 6421147906211840 (-44));
      (reflexivity || assumption || lia).
Qed.

Lemma rates_finite_nonneg_witness :
  (0 <=? RichPerson.calculatePerSecond
           (card "Elon Musk" (wikimedia "3/34/Elon_Musk_Royal_Society_%28crop2%29.jpg")
              147000000000 1000)) = true.
Proof.
  apply (rates_finite_nonneg
           (card "Elon Musk" (wikimedia "3/34/Elon_Musk_Royal_Society_%28crop2%29.jpg")
              147000000000 1000)); reflexivity.
Defined.
